(** * Horary judgment engine: a shallow embedding and its verified properties

    The development follows [calculator.py] and [judgment_engine.py] of the
    horary backend.  Python floats are read as exact rationals ([Q]), Python
    ints as [Z], enum classes as inductive types, dataclasses as records and
    result dictionaries as records with one field per key.  The process-wide
    configuration singleton [cfg()] is an explicit [Config] argument. *)

From Stdlib Require Import QArith Qabs Qround Qminmax Lqa ZArith Lia ZifyNat Bool Ascii
  Sorted.
From stdpp Require Import base option list gmap strings.

Local Open Scope Q_scope.

(* ===================================================================== *)
(** * Part I: definitions *)
(* ===================================================================== *)

(** ** Python arithmetic on floats and ints *)

Module Py.

Definition Qlt_bool (x y : Q) : bool := negb (Qle_bool y x).

Notation "x <=? y" := (Qle_bool x y) (at level 70, no associativity) : Q_scope.
Notation "x <? y" := (Qlt_bool x y) (at level 70, no associativity) : Q_scope.
Notation "x >=? y" := (Qle_bool y x) (at level 70, no associativity) : Q_scope.
Notation "x >? y" := (Qlt_bool y x) (at level 70, no associativity) : Q_scope.
Notation "x =? y" := (Qeq_bool x y) (at level 70, no associativity) : Q_scope.

(** [x % m] for a positive modulus: the result has the sign of [m]. *)
Definition fmod (x m : Q) : Q := x - m * inject_Z (Qfloor (x / m)).

(** [int(x)]: truncation toward zero. *)
Definition int (x : Q) : Z := if x <? 0 then Qceiling x else Qfloor x.

(** [float('inf')] only ever appears as a number of days. *)
Inductive days := Finite (d : Q) | Inf.

(** [a > b] for a possibly infinite [a] and a finite [b]. *)
Definition days_gt (a : days) (b : Q) : bool :=
  match a with Finite d => d >? b | Inf => true end.

(** Truthiness of an [Optional[float]]: [None] and [0.0] are falsy. *)
Definition truthy (o : option Q) : bool :=
  match o with Some d => negb (d =? 0) | None => false end.

(** f-strings are kept as the sequence of their pieces, so that no float
    has to be rendered: [+=] on strings is [++] on pieces. *)
Inductive piece :=
| Lit (s : string)          (* literal text or an interpolated str *)
| Float1 (q : Q)            (* {q:.1f} *)
| FloatRepr (q : Q)         (* {q} of a float *)
| SignedInt (z : Z)         (* {z:+d} *)
| Int (z : Z).              (* {z} of an int *)

Definition text := list piece.

End Py.
Import Py.

(** ** Enumerations ([models.py]) *)

Inductive Planet := SUN | MOON | MERCURY | VENUS | MARS | JUPITER | SATURN.

Inductive Sign :=
| ARIES | TAURUS | GEMINI | CANCER | LEO | VIRGO
| LIBRA | SCORPIO | SAGITTARIUS | CAPRICORN | AQUARIUS | PISCES.

Inductive Aspect := CONJUNCTION | SEXTILE | SQUARE | TRINE | OPPOSITION.

Inductive SolarCondition := CAZIMI | COMBUSTION | UNDER_BEAMS | FREE.

#[global] Instance Planet_eq_dec : EqDecision Planet.
Proof. solve_decision. Defined.
#[global] Instance Sign_eq_dec : EqDecision Sign.
Proof. solve_decision. Defined.
#[global] Instance Aspect_eq_dec : EqDecision Aspect.
Proof. solve_decision. Defined.
#[global] Instance SolarCondition_eq_dec : EqDecision SolarCondition.
Proof. solve_decision. Defined.

(** [x in [a, b, ...]] on enum members. *)
Definition member {A} `{EqDecision A} (x : A) (l : list A) : bool :=
  existsb (λ y, bool_decide (x = y)) l.

(** Modelled from the spec: the member tables of the enums of [models.py],
    which this development does not have.  The spec fixes five aspects at
    0, 60, 90, 120 and 180 degrees, iterated in this canonical order, and
    twelve signs each owning a 30 degree span and a ruling planet (the
    traditional rulerships, of which the detriment table of [calculator.py]
    is the mirror image). *)
Definition all_aspects : list Aspect :=
  [CONJUNCTION; SEXTILE; SQUARE; TRINE; OPPOSITION].

(** Modelled from the spec: the exact angle of each aspect. *)
Definition aspect_degrees (a : Aspect) : Q :=
  match a with
  | CONJUNCTION => 0 | SEXTILE => 60 | SQUARE => 90
  | TRINE => 120 | OPPOSITION => 180
  end.

Definition aspect_display_name (a : Aspect) : string :=
  match a with
  | CONJUNCTION => "Conjunction" | SEXTILE => "Sextile" | SQUARE => "Square"
  | TRINE => "Trine" | OPPOSITION => "Opposition"
  end.

Definition aspect_display_name_lower (a : Aspect) : string :=
  match a with
  | CONJUNCTION => "conjunction" | SEXTILE => "sextile" | SQUARE => "square"
  | TRINE => "trine" | OPPOSITION => "opposition"
  end.

Definition all_signs : list Sign :=
  [ARIES; TAURUS; GEMINI; CANCER; LEO; VIRGO;
   LIBRA; SCORPIO; SAGITTARIUS; CAPRICORN; AQUARIUS; PISCES].

(** Modelled from the spec: each sign starts at a multiple of 30 degrees. *)
Definition sign_start_degree (s : Sign) : Q :=
  match s with
  | ARIES => 0 | TAURUS => 30 | GEMINI => 60 | CANCER => 90
  | LEO => 120 | VIRGO => 150 | LIBRA => 180 | SCORPIO => 210
  | SAGITTARIUS => 240 | CAPRICORN => 270 | AQUARIUS => 300 | PISCES => 330
  end.

(** Modelled from the spec: the ruling planet of each sign. *)
Definition sign_ruler (s : Sign) : Planet :=
  match s with
  | ARIES => MARS | TAURUS => VENUS | GEMINI => MERCURY | CANCER => MOON
  | LEO => SUN | VIRGO => MERCURY | LIBRA => VENUS | SCORPIO => MARS
  | SAGITTARIUS => JUPITER | CAPRICORN => SATURN | AQUARIUS => SATURN
  | PISCES => JUPITER
  end.

Definition sign_name (s : Sign) : string :=
  match s with
  | ARIES => "Aries" | TAURUS => "Taurus" | GEMINI => "Gemini"
  | CANCER => "Cancer" | LEO => "Leo" | VIRGO => "Virgo" | LIBRA => "Libra"
  | SCORPIO => "Scorpio" | SAGITTARIUS => "Sagittarius"
  | CAPRICORN => "Capricorn" | AQUARIUS => "Aquarius" | PISCES => "Pisces"
  end.

Definition planet_value (p : Planet) : string :=
  match p with
  | SUN => "Sun" | MOON => "Moon" | MERCURY => "Mercury" | VENUS => "Venus"
  | MARS => "Mars" | JUPITER => "Jupiter" | SATURN => "Saturn"
  end.

(** Insertion order of [planets_swe], hence the iteration order of
    [chart.planets.items()]. *)
Definition planet_order : list Planet :=
  [SUN; MOON; MERCURY; VENUS; MARS; JUPITER; SATURN].

(** [self.exaltations] of the calculator: every planet has an entry. *)
Definition exaltations (p : Planet) : Sign :=
  match p with
  | SUN => ARIES | MOON => TAURUS | MERCURY => VIRGO | VENUS => PISCES
  | MARS => CAPRICORN | JUPITER => CANCER | SATURN => LIBRA
  end.

(** [self.combustion_resistant]: the keys of the dictionary. *)
Definition combustion_resistant (p : Planet) : bool :=
  member p [MERCURY; VENUS].

(** ** Dataclasses ([models.py]) *)

Record PlanetPosition := {
  pp_planet : Planet;
  pp_longitude : Q;
  pp_latitude : Q;
  pp_house : Z;
  pp_sign : Sign;
  pp_dignity_score : Z;
  pp_retrograde : bool;
  pp_speed : Q
}.

Record AspectInfo := {
  ai_planet1 : Planet;
  ai_planet2 : Planet;
  ai_aspect : Aspect;
  ai_orb : Q;
  ai_applying : bool;
  ai_degrees_to_exact : Q
}.

Record LunarAspect := {
  la_planet : Planet;
  la_aspect : Aspect;
  la_orb : Q;
  la_degrees_difference : Q;
  la_perfection_eta_days : days;
  la_perfection_eta_description : text;
  la_applying : bool
}.

Record SolarAnalysis := {
  sa_planet : Planet;
  sa_distance_from_sun : Q;
  sa_condition : SolarCondition;
  sa_exact_cazimi : bool;
  sa_traditional_exception : bool
}.

(** The chart.  [planets] is total because [calculate_chart] stores a
    position (a fallback one on an ephemeris failure) for every planet;
    [solar_analyses] keeps the dictionary's insertion order because the
    judgment iterates over it; [house_rulers] is looked up with [.get]. *)
Record HoraryChart := {
  location : Q * Q;
  planets : Planet → PlanetPosition;
  aspects : list AspectInfo;
  houses : list Q;
  house_rulers : gmap Z Planet;
  ascendant : Q;
  midheaven : Q;
  solar_analyses : list (Planet * SolarAnalysis);
  julian_day : Q;
  moon_last_aspect : option LunarAspect;
  moon_next_aspect : option LunarAspect
}.

(** ** Configuration ([horary_config.cfg()]) *)

Inductive VoidRule := by_sign | by_orb | lilly | unknown_rule (name : string).

Record PhaseBonus := {
  new_moon : Z; waxing_crescent : Z; first_quarter : Z; waxing_gibbous : Z;
  full_moon : Z; waning_gibbous : Z; last_quarter : Z; waning_crescent : Z
}.

Record SpeedBonus := {
  very_slow : Z; slow : Z; average : Z; fast : Z; very_fast : Z
}.

Record AngularityBonus := { angular : Z; succedent : Z; cadent : Z }.

Record VoidExceptions := { ve_cancer : bool; ve_sagittarius : bool; ve_taurus : bool }.

Record MoonConfig := {
  phase_bonus : PhaseBonus;
  speed_bonus : SpeedBonus;
  angularity_bonus : AngularityBonus;
  void_rule : VoidRule;
  void_exceptions : VoidExceptions;
  translation_require_speed_advantage : bool;
  translation_require_proper_sequence : bool;
  collection_require_collector_dignity : bool;
  collection_minimum_dignity_score : Z
}.

Record OrbsConfig := {
  cazimi_orb_arcmin : Q;
  combustion_orb : Q;
  under_beams_orb : Q;
  void_orb_deg : Q
}.

Record TimingConfig := {
  stationary_speed_threshold : Q;
  timing_precision_days : Q
}.

Record RadicalityConfig := {
  asc_too_early : Q;
  asc_too_late : Q;
  saturn_7th_enabled : bool;
  via_combusta_enabled : bool;
  vc_libra_start : Q;
  vc_scorpio_full : bool;
  vc_capricorn_start : Q
}.

Record PerfectionConfidence := {
  direct_with_mutual_rulership : Z;
  direct_with_mutual_exaltation : Z;
  direct_basic : Z;
  translation_of_light : Z;
  collection_of_light : Z;
  reception_only : Z
}.

Record ConfidenceConfig := {
  base_confidence : Z;
  solar_cazimi_bonus : Z;
  solar_combustion_penalty : Z;
  conf_perfection : PerfectionConfidence;
  denial_prohibition : Z;
  denial_frustration_retrograde : Z;
  lunar_cap_favorable : Z;
  lunar_cap_unfavorable : Z;
  lunar_cap_neutral : Z;
  reception_mutual_exaltation_bonus : Q
}.

Record Config := {
  cfg_moon : MoonConfig;
  cfg_orbs : OrbsConfig;
  cfg_timing : TimingConfig;
  cfg_radicality : RadicalityConfig;
  cfg_confidence : ConfidenceConfig;
  retrograde_automatic_denial : bool
}.

(** ** Moon accidental dignities ([judgment_engine.py]) *)

(** The first three statements of [_moon_phase_bonus] (and of
    [_get_moon_phase_name]): the Moon-Sun distance folded once at 180. *)
Definition moon_sun_elongation (chart : HoraryChart) : Q :=
  let moon_pos := planets chart MOON in
  let sun_pos := planets chart SUN in
  let elongation := Qabs (pp_longitude moon_pos - pp_longitude sun_pos) in
  if elongation >? 180 then 360 - elongation else elongation.

Definition _moon_phase_bonus (config : Config) (chart : HoraryChart) : Z :=
  let elongation := moon_sun_elongation chart in
  let pb := phase_bonus (cfg_moon config) in
  if (0 <=? elongation) && (elongation <? 30) then new_moon pb
  else if (30 <=? elongation) && (elongation <? 60) then waxing_crescent pb
  else if (60 <=? elongation) && (elongation <? 120) then first_quarter pb
  else if (120 <=? elongation) && (elongation <? 150) then waxing_gibbous pb
  else if (150 <=? elongation) && (elongation <? 210) then full_moon pb
  else if (210 <=? elongation) && (elongation <? 240) then waning_gibbous pb
  else if (240 <=? elongation) && (elongation <? 300) then last_quarter pb
  else waning_crescent pb.

Definition _moon_speed_bonus (config : Config) (chart : HoraryChart) : Z :=
  let moon_speed := Qabs (pp_speed (planets chart MOON)) in
  let sb := speed_bonus (cfg_moon config) in
  if moon_speed <? 11 then very_slow sb
  else if moon_speed <? 12 then slow sb
  else if moon_speed <? 14 then average sb
  else if moon_speed <? 15 then fast sb
  else very_fast sb.

Definition _moon_angularity_bonus (config : Config) (chart : HoraryChart) : Z :=
  let moon_house := pp_house (planets chart MOON) in
  let ab := angularity_bonus (cfg_moon config) in
  if bool_decide (moon_house ∈ [1; 4; 7; 10]%Z) then angular ab
  else if bool_decide (moon_house ∈ [2; 5; 8; 11]%Z) then succedent ab
  else cadent ab.

(** ** Helpers of [_horary_math] and the ephemeris *)

(** The helpers imported from [_horary_math], a module this development
    does not have: the judgment and the calculator are stated for every
    implementation of them. *)
Class HoraryMath := {
  (** days until a body at a longitude, moving at a signed speed, leaves
      its sign; [None] when no exit is projected *)
  days_to_sign_exit : Q → Q → option Q;
  (** angular distance between a planet and the Sun *)
  calculate_elongation : Q → Q → Q;
  is_planet_oriental : Q → Q → bool;
  (** Sun altitude for a latitude, a longitude and a Julian day *)
  sun_altitude_at_civil_twilight : Q → Q → Q → Q;
  (** the ["is_separating"] entry of [check_aspect_separation_order] *)
  check_aspect_separation_order :
    Q → Q → Q → Q → Q → Q → bool
}.

(** The ephemeris behind [get_real_moon_speed]: the absolute daily motion of
    the Moon at a Julian day (the configured fallback on a failed lookup). *)
Class Ephemeris := {
  get_real_moon_speed : Q → Q
}.

(** Modelled from the spec: [calculate_elongation] and [days_to_sign_exit]
    of the missing [_horary_math] module, used where a statement is run on
    concrete numbers.  The spec gives the elongation as the angular
    separation folded to at most 180 degrees, and the days to a sign exit as
    the distance to the sign boundary lying in the direction of the signed
    speed, divided by the speed; a body at rest has no projected exit. *)
Definition spec_elongation (planet_lon sun_lon : Q) : Q :=
  let d := Qabs (planet_lon - sun_lon) in
  if d >? 180 then 360 - d else d.

(** Modelled from the spec: [days_to_sign_exit], directional in the signed
    speed. *)
Definition spec_days_to_sign_exit (longitude speed : Q) : option Q :=
  if speed =? 0 then None
  else if speed >? 0 then Some ((30 - fmod longitude 30) / speed)
  else Some (fmod longitude 30 / Qabs speed).

(** Modelled from the spec: a set of helpers for the examples, with a fixed
    Sun altitude and no separation ever detected. *)
Definition spec_math (sun_altitude : Q) : HoraryMath := {|
  days_to_sign_exit := spec_days_to_sign_exit;
  calculate_elongation := spec_elongation;
  is_planet_oriental := λ planet_lon sun_lon,
    fmod (planet_lon - sun_lon) 360 >? 180;
  sun_altitude_at_civil_twilight := λ _ _ _, sun_altitude;
  check_aspect_separation_order := λ _ _ _ _ _ _, false
|}.

(** ** Void of course ([judgment_engine.py]) *)

Record VoidResult := {
  void : bool;
  exception : bool;
  reason : text;
  degrees_left_in_sign : option Q
}.

Record FutureAspect := {
  fa_planet : Planet;
  fa_aspect : Aspect;
  fa_target_degree : Q;
  fa_degrees_to_reach : Q
}.

Definition _calculate_aspect_positions
    (planet_longitude : Q) (aspect : Aspect) (moon_sign : Sign) : list Q :=
  let aspect_positions :=
    [fmod (planet_longitude + aspect_degrees aspect) 360;
     fmod (planet_longitude - aspect_degrees aspect) 360] in
  let sign_start := sign_start_degree moon_sign in
  let sign_end := fmod (sign_start + 30) 360 in
  flat_map (λ pos,
    let pos_normalized := fmod pos 360 in
    if sign_start <? sign_end then
      if (sign_start <=? pos_normalized) && (pos_normalized <? sign_end)
      then [pos_normalized] else []
    else
      if (pos_normalized >=? sign_start) || (pos_normalized <? sign_end)
      then [pos_normalized] else [])
    aspect_positions.

(** [min(l, key=...)]: the first element carrying the least key. *)
Fixpoint min_by_key {A} (key : A → Q) (best : A) (l : list A) : A :=
  match l with
  | [] => best
  | x :: rest =>
      if key x <? key best then min_by_key key x rest
      else min_by_key key best rest
  end.

(** The nested loops of [_void_by_sign_method] that collect the aspects the
    Moon still makes inside its sign. *)
Definition future_aspects_in_sign (chart : HoraryChart) : list FutureAspect :=
  let moon_pos := planets chart MOON in
  let moon_degree_in_sign := fmod (pp_longitude moon_pos) 30 in
  let degrees_left_in_sign := 30 - moon_degree_in_sign in
  flat_map (λ planet,
    if bool_decide (planet = MOON) then []
    else
      let planet_pos := planets chart planet in
      flat_map (λ aspect_type,
        flat_map (λ target_position,
          let target_degree_in_sign := fmod target_position 30 in
          if target_degree_in_sign >? moon_degree_in_sign then
            let degrees_to_target := target_degree_in_sign - moon_degree_in_sign in
            if degrees_to_target <? degrees_left_in_sign then
              [{| fa_planet := planet; fa_aspect := aspect_type;
                  fa_target_degree := target_degree_in_sign;
                  fa_degrees_to_reach := degrees_to_target |}]
            else []
          else [])
          (_calculate_aspect_positions
             (pp_longitude planet_pos) aspect_type (pp_sign moon_pos)))
        all_aspects)
    planet_order.

Definition _void_by_sign_method (config : Config) (chart : HoraryChart) : VoidResult :=
  let moon_pos := planets chart MOON in
  let moon_degree_in_sign := fmod (pp_longitude moon_pos) 30 in
  let degrees_left_in_sign := 30 - moon_degree_in_sign in
  if Qabs (pp_speed moon_pos) <? stationary_speed_threshold (cfg_timing config) then
    {| void := false;
       exception := false;
       reason := [Lit "Moon stationary - cannot be void of course"];
       degrees_left_in_sign := Some degrees_left_in_sign |}
  else
    let future_aspects := future_aspects_in_sign chart in
    let void_exceptions := void_exceptions (cfg_moon config) in
    let exceptions :=
      if bool_decide (pp_sign moon_pos = CANCER) && ve_cancer void_exceptions then true
      else if bool_decide (pp_sign moon_pos = SAGITTARIUS) && ve_sagittarius void_exceptions then true
      else if bool_decide (pp_sign moon_pos = TAURUS) && ve_taurus void_exceptions then true
      else false in
    let reason :=
      match future_aspects with
      | [] =>
          [Lit "Moon makes no more aspects before leaving ";
           Lit (sign_name (pp_sign moon_pos))]
      | first :: rest =>
          let next_aspect := min_by_key fa_degrees_to_reach first rest in
          [Lit "Moon will "; Lit (aspect_display_name_lower (fa_aspect next_aspect));
           Lit " "; Lit (planet_value (fa_planet next_aspect));
           Lit " at "; Float1 (fa_target_degree next_aspect); Lit "° ";
           Lit (sign_name (pp_sign moon_pos))]
      end in
    let is_void := match future_aspects with [] => true | _ => false end in
    let reason :=
      if exceptions then
        if bool_decide (pp_sign moon_pos = CANCER)
        then reason ++ [Lit " (but in own sign - Cancer)"]
        else if bool_decide (pp_sign moon_pos = SAGITTARIUS)
        then reason ++ [Lit " (but in joy - Sagittarius)"]
        else if bool_decide (pp_sign moon_pos = TAURUS)
        then reason ++ [Lit " (but in exaltation - Taurus)"]
        else reason
      else reason in
    {| void := is_void;
       exception := exceptions;
       reason := reason;
       degrees_left_in_sign := Some degrees_left_in_sign |}.

(** The first planet and aspect, in iteration order, whose orb the Moon is
    within. *)
Definition first_within_orb (void_orb : Q) (chart : HoraryChart)
    : option (Planet * Aspect) :=
  let moon_pos := planets chart MOON in
  head (flat_map (λ planet,
    if bool_decide (planet = MOON) then []
    else
      let planet_pos := planets chart planet in
      let separation := Qabs (pp_longitude moon_pos - pp_longitude planet_pos) in
      let separation := if separation >? 180 then 360 - separation else separation in
      flat_map (λ aspect_type,
        let orb_diff := Qabs (separation - aspect_degrees aspect_type) in
        if orb_diff <=? void_orb then [(planet, aspect_type)] else [])
        all_aspects)
    planet_order).

Definition _void_by_orb_method (config : Config) (chart : HoraryChart) : VoidResult :=
  let void_orb := void_orb_deg (cfg_orbs config) in
  match first_within_orb void_orb chart with
  | Some (planet, aspect_type) =>
      {| void := false; exception := false;
         reason := [Lit "Moon within "; FloatRepr void_orb; Lit "° orb of ";
                    Lit (aspect_display_name aspect_type); Lit " to ";
                    Lit (planet_value planet)];
         degrees_left_in_sign := None |}
  | None =>
      {| void := true; exception := false;
         reason := [Lit "Moon not within "; FloatRepr void_orb;
                    Lit "° of any aspect"];
         degrees_left_in_sign := None |}
  end.

Definition lilly_exceptions : list Sign := [CANCER; TAURUS; SAGITTARIUS; PISCES].

(** In-place updates of a result dictionary. *)
Definition set_exception (r : VoidResult) (b : bool) : VoidResult :=
  {| void := void r; exception := b; reason := reason r;
     degrees_left_in_sign := degrees_left_in_sign r |}.

Definition append_reason (r : VoidResult) (t : text) : VoidResult :=
  {| void := void r; exception := exception r; reason := reason r ++ t;
     degrees_left_in_sign := degrees_left_in_sign r |}.

Definition _void_lilly_method (config : Config) (chart : HoraryChart) : VoidResult :=
  let moon_pos := planets chart MOON in
  let is_exception := member (pp_sign moon_pos) lilly_exceptions in
  let void_result := _void_by_sign_method config chart in
  let void_result := set_exception void_result is_exception in
  if is_exception then
    append_reason void_result
      [Lit " (Lilly exception: "; Lit (sign_name (pp_sign moon_pos)); Lit ")"]
  else void_result.

Definition _is_moon_void_of_course_enhanced (config : Config) (chart : HoraryChart)
    : VoidResult :=
  match void_rule (cfg_moon config) with
  | by_sign => _void_by_sign_method config chart
  | by_orb => _void_by_orb_method config chart
  | lilly => _void_lilly_method config chart
  | unknown_rule _ => _void_by_sign_method config chart
  end.

(** ** Solar conditions ([calculator.py]) *)

Section SolarCondition.
Context `{HoraryMath}.

Definition _check_enhanced_combustion_exception
    (planet : Planet) (planet_pos sun_pos : PlanetPosition)
    (lat lon jd_ut : Q) : bool :=
  let elongation :=
    calculate_elongation (pp_longitude planet_pos) (pp_longitude sun_pos) in
  if elongation <? 10 then false
  else
    let is_oriental :=
      is_planet_oriental (pp_longitude planet_pos) (pp_longitude sun_pos) in
    let sun_altitude := sun_altitude_at_civil_twilight lat lon jd_ut in
    if bool_decide (planet = MERCURY) then
      if (elongation >=? 10) && member (pp_sign planet_pos) [GEMINI; VIRGO] then true
      else if elongation >=? 18 then true
      else false
    else if bool_decide (planet = VENUS) then
      if elongation >=? 10 then
        if sun_altitude <=? -8 then true
        else if elongation >=? 40 then true
        else false
      else false
    else false.

(** [_analyze_enhanced_solar_condition], with the method it calls through
    [self] as an argument: the test suite replaces that method to force an
    exception.  The two flags default to [False] where the constructor
    call of the source leaves them out. *)
Definition analyze_solar_condition_with
    (check_exception : Planet → PlanetPosition → PlanetPosition → Q → Q → Q → bool)
    (config : Config) (planet : Planet) (planet_pos sun_pos : PlanetPosition)
    (lat lon jd_ut : Q) : SolarAnalysis :=
  if bool_decide (planet = SUN) then
    {| sa_planet := planet; sa_distance_from_sun := 0; sa_condition := FREE;
       sa_exact_cazimi := false; sa_traditional_exception := false |}
  else
    let elongation :=
      calculate_elongation (pp_longitude planet_pos) (pp_longitude sun_pos) in
    let cazimi_orb := cazimi_orb_arcmin (cfg_orbs config) / 60 in
    let combustion_orb := combustion_orb (cfg_orbs config) in
    let under_beams_orb := under_beams_orb (cfg_orbs config) in
    let traditional_exception :=
      if combustion_resistant planet
      then check_exception planet planet_pos sun_pos lat lon jd_ut
      else false in
    if elongation <=? cazimi_orb then
      let exact_cazimi := elongation <=? 3 / 60 in
      {| sa_planet := planet; sa_distance_from_sun := elongation;
         sa_condition := CAZIMI; sa_exact_cazimi := exact_cazimi;
         sa_traditional_exception := false |}
    else if elongation <=? combustion_orb then
      if traditional_exception then
        {| sa_planet := planet; sa_distance_from_sun := elongation;
           sa_condition := FREE; sa_exact_cazimi := false;
           sa_traditional_exception := true |}
      else
        {| sa_planet := planet; sa_distance_from_sun := elongation;
           sa_condition := COMBUSTION; sa_exact_cazimi := false;
           sa_traditional_exception := false |}
    else if elongation <=? under_beams_orb then
      if traditional_exception then
        {| sa_planet := planet; sa_distance_from_sun := elongation;
           sa_condition := FREE; sa_exact_cazimi := false;
           sa_traditional_exception := true |}
      else
        {| sa_planet := planet; sa_distance_from_sun := elongation;
           sa_condition := UNDER_BEAMS; sa_exact_cazimi := false;
           sa_traditional_exception := false |}
    else
      {| sa_planet := planet; sa_distance_from_sun := elongation;
         sa_condition := FREE; sa_exact_cazimi := false;
         sa_traditional_exception := false |}.

Definition _analyze_enhanced_solar_condition :=
  analyze_solar_condition_with _check_enhanced_combustion_exception.

End SolarCondition.

(** ** Applying aspects and sign exits ([calculator.py]) *)

(** [while separation > 180: separation -= 360] and its mirror image, run
    on a budget of iterations that [normalize_separation_range] shows to be
    enough for the loops to reach their exit conditions. *)
Fixpoint while_above_180 (fuel : nat) (separation : Q) : Q :=
  match fuel with
  | O => separation
  | S fuel' =>
      if separation >? 180 then while_above_180 fuel' (separation - 360)
      else separation
  end.

Fixpoint while_below_minus_180 (fuel : nat) (separation : Q) : Q :=
  match fuel with
  | O => separation
  | S fuel' =>
      if separation <? -180 then while_below_minus_180 fuel' (separation + 360)
      else separation
  end.

Definition loop_budget (separation : Q) : nat :=
  Z.to_nat (Qceiling (Qabs separation / 360)).

Definition normalize_separation (separation : Q) : Q :=
  let separation := while_above_180 (loop_budget separation) separation in
  while_below_minus_180 (loop_budget separation) separation.

(** [x and y > x] on an [Optional[float]] number of days [x]. *)
Definition exits_before (days_to_exit : option Q) (days_to_perfect : days) : bool :=
  match days_to_exit with
  | Some d => negb (d =? 0) && days_gt days_to_perfect d
  | None => false
  end.

Section Applying.
Context `{HoraryMath}.

(** "Faster planet applies to slower planet". *)
Definition faster_slower (pos1 pos2 : PlanetPosition)
    : PlanetPosition * PlanetPosition :=
  if Qabs (pp_speed pos1) >? Qabs (pp_speed pos2) then (pos1, pos2) else (pos2, pos1).

Definition aspect_targets (aspect : Aspect) : Q * list Q :=
  let target := aspect_degrees aspect in
  (target,
   [- target] ++
   (if negb (target =? 0) && negb (target =? 180)
    then [target - 360; - target + 360] else [])).

Definition current_separation (pos1 pos2 : PlanetPosition) : Q :=
  let '(faster, slower) := faster_slower pos1 pos2 in
  normalize_separation (pp_longitude faster - pp_longitude slower).

Definition closest_target (pos1 pos2 : PlanetPosition) (aspect : Aspect) : Q :=
  let separation := current_separation pos1 pos2 in
  let '(first, rest) := aspect_targets aspect in
  min_by_key (λ t, Qabs (separation - t)) first rest.

Definition current_orb (pos1 pos2 : PlanetPosition) (aspect : Aspect) : Q :=
  Qabs (current_separation pos1 pos2 - closest_target pos1 pos2 aspect).

Definition relative_speed (pos1 pos2 : PlanetPosition) : Q :=
  let '(faster, slower) := faster_slower pos1 pos2 in
  Qabs (pp_speed faster - pp_speed slower).

Definition applying_days_to_perfect (pos1 pos2 : PlanetPosition) (aspect : Aspect)
    : days :=
  if relative_speed pos1 pos2 >? 0
  then Finite (current_orb pos1 pos2 aspect / relative_speed pos1 pos2)
  else Inf.

(** The closing test of [_is_applying_enhanced]: the orb from the closest
    target shrinks over one time increment. *)
Definition orb_decreasing (config : Config) (pos1 pos2 : PlanetPosition)
    (aspect : Aspect) : bool :=
  let '(faster, slower) := faster_slower pos1 pos2 in
  let time_increment := timing_precision_days (cfg_timing config) in
  let future_separation :=
    normalize_separation
      (current_separation pos1 pos2
       + (pp_speed faster - pp_speed slower) * time_increment) in
  let future_orb := Qabs (future_separation - closest_target pos1 pos2 aspect) in
  future_orb <? current_orb pos1 pos2 aspect.

Definition _is_applying_enhanced (config : Config) (pos1 pos2 : PlanetPosition)
    (aspect : Aspect) (jd_ut : Q) : bool :=
  let '(faster, slower) := faster_slower pos1 pos2 in
  let days_to_perfect := applying_days_to_perfect pos1 pos2 aspect in
  let faster_days_to_exit :=
    days_to_sign_exit (pp_longitude faster) (pp_speed faster) in
  let slower_days_to_exit :=
    days_to_sign_exit (pp_longitude slower) (pp_speed slower) in
  if exits_before faster_days_to_exit days_to_perfect then false
  else if exits_before slower_days_to_exit days_to_perfect then false
  else orb_decreasing config pos1 pos2 aspect.

End Applying.

(** ** House placement ([calculator.py]) *)

(** The test of one arc inside the loop of [_calculate_house_position]. *)
Definition in_arc (current_cusp next_cusp longitude : Q) : bool :=
  if current_cusp >? next_cusp then
    (longitude >=? current_cusp) || (longitude <? next_cusp)
  else
    (current_cusp <=? longitude) && (longitude <? next_cusp).

(** How the loop over [range(12)] ends: inside an arc, by falling through to
    the default, or with an [IndexError] on a list that is too short. *)
Inductive house_scan := Matched (i : nat) | NoArc | IndexError.

Fixpoint scan_arcs (longitude : Q) (houses : list Q) (indices : list nat)
    : house_scan :=
  match indices with
  | [] => NoArc
  | i :: rest =>
      match houses !! i, houses !! ((i + 1) mod 12)%nat with
      | Some cusp, Some next =>
          if in_arc (fmod cusp 360) (fmod next 360) longitude then Matched i
          else scan_arcs longitude houses rest
      | _, _ => IndexError
      end
  end.

(** [None] stands for the [IndexError]. *)
Definition _calculate_house_position (longitude : Q) (houses : list Q) : option Z :=
  let longitude := fmod longitude 360 in
  match scan_arcs longitude houses (seq 0 12) with
  | Matched i => Some (Z.of_nat i + 1)%Z
  | NoArc => Some 1%Z
  | IndexError => None
  end.

(** The same cusps listed from another starting cusp. *)
Definition rotate_cusps (k : nat) (houses : list Q) : list Q :=
  drop k houses ++ take k houses.

(** The cusp of house [i + 1], reduced to the circle as the loop does, and
    the arc test of the loop at index [i]. *)
Definition cusp (houses : list Q) (i : nat) : Q :=
  fmod (default 0 (houses !! i)) 360.

Definition arc_contains (houses : list Q) (longitude : Q) (i : nat) : bool :=
  in_arc (cusp houses i) (cusp houses ((i + 1) mod 12)%nat) longitude.

(** Twelve cusps partition the circle when, going round the list, they never
    decrease except for one step down, the arc that crosses 0 degrees. *)
Definition valid_partition (houses : list Q) : Prop :=
  length houses = 12%nat
  ∧ ∃ j, (j < 12)%nat
      ∧ cusp houses ((j + 1) mod 12)%nat < cusp houses j
      ∧ ∀ i, (i < 12)%nat → i ≠ j →
          cusp houses i <= cusp houses ((i + 1) mod 12)%nat.

Definition equal_houses : list Q :=
  [0; 30; 60; 90; 120; 150; 180; 210; 240; 270; 300; 330].

(** ** Exceptions *)

(** The exceptions that travel through the judgment: the [LocationError] of
    the geocoder, and any other subclass of [Exception] with its class name
    and message. *)
Inductive exn :=
| LocationError (msg : string)
| Exception (class msg : string).

Definition str_exn (e : exn) : string :=
  match e with LocationError msg => msg | Exception _ msg => msg end.

(** A call either returns or raises. *)
Inductive outcome (A : Type) :=
| Return (a : A)
| Raise (e : exn).
Arguments Return {A} a.
Arguments Raise {A} e.

Definition bind {A B} (m : outcome A) (k : A → outcome B) : outcome B :=
  match m with Return a => k a | Raise e => Raise e end.

#[global] Instance outcome_ret : MRet outcome := λ A a, Return a.
#[global] Instance outcome_bind : MBind outcome := λ A B k m, bind m k.

(** ** Judgment: radicality and significators ([judgment_engine.py]) *)

Record Radicality := { rad_valid : bool; rad_reason : text }.

Definition _check_enhanced_radicality (config : Config) (chart : HoraryChart)
    (ignore_saturn_7th : bool) : Radicality :=
  let rc := cfg_radicality config in
  let asc_degree := fmod (ascendant chart) 30 in
  if asc_degree <? asc_too_early rc then
    {| rad_valid := false;
       rad_reason := [Lit "Ascendant too early at "; Float1 asc_degree;
                      Lit "° - question premature or not mature"] |}
  else if asc_degree >? asc_too_late rc then
    {| rad_valid := false;
       rad_reason := [Lit "Ascendant too late at "; Float1 asc_degree;
                      Lit "° - question too late or already decided"] |}
  else if saturn_7th_enabled rc && negb ignore_saturn_7th
          && bool_decide (pp_house (planets chart SATURN) = 7%Z) then
    {| rad_valid := false;
       rad_reason := [Lit "Saturn in 7th house - astrologer may err in judgment (Bonatti)"] |}
  else
    let moon_pos := planets chart MOON in
    let moon_degree_in_sign := fmod (pp_longitude moon_pos) 30 in
    if via_combusta_enabled rc
       && ((bool_decide (pp_sign moon_pos = LIBRA)
            && (moon_degree_in_sign >? vc_libra_start rc))
           || (bool_decide (pp_sign moon_pos = SCORPIO) && vc_scorpio_full rc)
           || (bool_decide (pp_sign moon_pos = CAPRICORN)
               && (moon_degree_in_sign >? vc_capricorn_start rc))) then
      {| rad_valid := false;
         rad_reason := [Lit "Moon in Via Combusta ("; Lit (sign_name (pp_sign moon_pos));
                        Lit " "; Float1 moon_degree_in_sign;
                        Lit "°) - volatile or corrupted matter"] |}
    else
      {| rad_valid := true;
         rad_reason := [Lit "Chart is radical - Ascendant at "; Float1 asc_degree;
                        Lit "°"] |}.

Record QuestionAnalysis := {
  question_type : string;
  relevant_houses : list Z;
  quesited_house : Z
}.

Inductive Significators :=
| NoSignificators (why : text)
| Significator_pair (querent quesited : Planet) (description : text).

Definition _identify_significators (chart : HoraryChart)
    (question_analysis : QuestionAnalysis) : Significators :=
  let querent_house := 1%Z in
  let querent_ruler := house_rulers chart !! querent_house in
  let quesited_house := quesited_house question_analysis in
  let quesited_ruler := house_rulers chart !! quesited_house in
  match querent_ruler, quesited_ruler with
  | Some querent_ruler, Some quesited_ruler =>
      if bool_decide (querent_ruler = quesited_ruler) then
        NoSignificators
          [Lit (planet_value querent_ruler);
           Lit " rules both querent and quesited - seek natural significators"]
      else
        Significator_pair querent_ruler quesited_ruler
          [Lit "Querent: "; Lit (planet_value querent_ruler);
           Lit " (ruler of "; Int querent_house; Lit "), Quesited: ";
           Lit (planet_value quesited_ruler);
           Lit " (ruler of "; Int quesited_house; Lit ")"]
  | _, _ => NoSignificators [Lit "Cannot determine house rulers"]
  end.

(** ** Judgment: solar factors *)

(** The counts and the summary of [_analyze_enhanced_solar_factors]; the
    per-planet table it also serialises for display is left out. *)
Record SolarFactors := {
  significant : bool;
  summary : text;
  cazimi_count : nat;
  combustion_count : nat;
  under_beams_count : nat;
  combustion_ignored : bool
}.

(** The branch of the [if]/[elif] chain an analysis falls into. *)
Definition solar_bucket (ignore_combustion : bool) (analysis : SolarAnalysis)
    : option SolarCondition :=
  if bool_decide (sa_condition analysis = CAZIMI) then Some CAZIMI
  else if bool_decide (sa_condition analysis = COMBUSTION) && negb ignore_combustion
  then Some COMBUSTION
  else if bool_decide (sa_condition analysis = UNDER_BEAMS) && negb ignore_combustion
  then Some UNDER_BEAMS
  else None.

Definition planets_in_bucket (chart : HoraryChart) (ignore_combustion : bool)
    (bucket : SolarCondition) : list Planet :=
  flat_map (λ '(planet, analysis),
    if bool_decide (solar_bucket ignore_combustion analysis = Some bucket)
    then [planet] else [])
    (solar_analyses chart).

Definition _analyze_enhanced_solar_factors (chart : HoraryChart)
    (querent quesited : Planet) (ignore_combustion : bool) : SolarFactors :=
  let cazimi_planets := planets_in_bucket chart ignore_combustion CAZIMI in
  let combusted_planets := planets_in_bucket chart ignore_combustion COMBUSTION in
  let under_beams_planets := planets_in_bucket chart ignore_combustion UNDER_BEAMS in
  let names l := String.concat ", " (planet_value <$> l) in
  let nonempty (l : list Planet) := match l with [] => false | _ => true end in
  let summary_parts :=
    (if nonempty cazimi_planets then [[Lit "Cazimi: "; Lit (names cazimi_planets)]] else [])
    ++ (if nonempty combusted_planets
        then [[Lit "Combusted: "; Lit (names combusted_planets)]] else [])
    ++ (if nonempty under_beams_planets
        then [[Lit "Under Beams: "; Lit (names under_beams_planets)]] else [])
    ++ (if ignore_combustion
           && (nonempty combusted_planets || nonempty under_beams_planets)
        then [[Lit "(Combustion effects ignored by override)"]] else []) in
  {| significant := match summary_parts with [] => false | _ => true end;
     summary :=
       match summary_parts with
       | [] => [Lit "No significant solar conditions"]
       | first :: rest => first ++ flat_map (λ part, Lit "; " :: part) rest
       end;
     cazimi_count := length cazimi_planets;
     combustion_count := if ignore_combustion then 0 else length combusted_planets;
     under_beams_count := if ignore_combustion then 0 else length under_beams_planets;
     combustion_ignored := ignore_combustion |}.

(** ** Judgment: perfection *)

(** The dictionary returned by [_find_applying_aspect]. *)
Record AspectDict := {
  ad_aspect : Aspect;
  ad_orb : Q;
  ad_degrees_to_exact : Q
}.

Definition _find_applying_aspect (chart : HoraryChart) (planet1 planet2 : Planet)
    : option AspectDict :=
  (λ aspect, {| ad_aspect := ai_aspect aspect; ad_orb := ai_orb aspect;
                ad_degrees_to_exact := ai_degrees_to_exact aspect |})
  <$> head (flat_map (λ aspect,
        if ((bool_decide (ai_planet1 aspect = planet1)
             && bool_decide (ai_planet2 aspect = planet2))
            || (bool_decide (ai_planet1 aspect = planet2)
                && bool_decide (ai_planet2 aspect = planet1)))
           && ai_applying aspect
        then [aspect] else [])
      (aspects chart)).

Inductive Reception := mutual_rulership | mutual_exaltation | mixed_reception | none.

#[global] Instance Reception_eq_dec : EqDecision Reception.
Proof. solve_decision. Defined.

Definition reception_name (r : Reception) : string :=
  match r with
  | mutual_rulership => "mutual_rulership"
  | mutual_exaltation => "mutual_exaltation"
  | mixed_reception => "mixed_reception"
  | none => "none"
  end.

Definition _check_enhanced_mutual_reception (chart : HoraryChart)
    (planet1 planet2 : Planet) : Reception :=
  let pos1 := planets chart planet1 in
  let pos2 := planets chart planet2 in
  if bool_decide (sign_ruler (pp_sign pos1) = planet2)
     && bool_decide (sign_ruler (pp_sign pos2) = planet1) then mutual_rulership
  else if bool_decide (exaltations planet1 = pp_sign pos2)
          && bool_decide (exaltations planet2 = pp_sign pos1) then mutual_exaltation
  else if (bool_decide (sign_ruler (pp_sign pos1) = planet2)
           && bool_decide (exaltations planet2 = pp_sign pos1))
          || (bool_decide (sign_ruler (pp_sign pos2) = planet1)
              && bool_decide (exaltations planet1 = pp_sign pos2)) then mixed_reception
  else none.

Definition _is_aspect_favorable (aspect : Aspect) (reception : Reception) : bool :=
  let favorable_aspects := [CONJUNCTION; SEXTILE; TRINE] in
  let base_favorable := member aspect favorable_aspects in
  if member reception [mutual_rulership; mutual_exaltation; mixed_reception] then true
  else base_favorable.

Inductive PerfectionType := direct | translation | collection | reception_only_type.

(** A result dictionary with ["perfects": True]; the dictionary with
    ["perfects": False] is [None]. *)
Record Perfection := {
  perf_type : PerfectionType;
  perf_favorable : bool;
  perf_confidence : Z;
  perf_reason : text;
  perf_reception : option Reception;
  perf_aspect : option AspectDict;
  perf_third_planet : option Planet
}.

Section Perfection.
Context `{HoraryMath}.

Definition _enhanced_perfects_in_sign (pos1 pos2 : PlanetPosition)
    (aspect_info : AspectDict) (chart : HoraryChart) : bool :=
  let days_to_exit_1 := days_to_sign_exit (pp_longitude pos1) (pp_speed pos1) in
  let days_to_exit_2 := days_to_sign_exit (pp_longitude pos2) (pp_speed pos2) in
  let relative_speed := Qabs (pp_speed pos1 - pp_speed pos2) in
  if relative_speed =? 0 then false
  else
    let days_to_perfect := Finite (ad_degrees_to_exact aspect_info / relative_speed) in
    if exits_before days_to_exit_1 days_to_perfect then false
    else if exits_before days_to_exit_2 days_to_perfect then false
    else true.

(** One iteration of the loop of [_check_enhanced_translation_of_light]:
    [Some sequence] when the planet is returned as translator. *)
Definition translates (config : Config) (chart : HoraryChart)
    (querent quesited planet : Planet) : option text :=
  if member planet [querent; quesited] then None
  else
    let pos := planets chart planet in
    match _find_applying_aspect chart planet querent,
          _find_applying_aspect chart planet quesited with
    | Some aspect_to_querent, Some aspect_to_quesited =>
        if translation_require_proper_sequence (cfg_moon config) then
          let querent_separation :=
            check_aspect_separation_order
              (pp_longitude (planets chart querent)) (pp_speed (planets chart querent))
              (pp_longitude pos) (pp_speed pos)
              (aspect_degrees (ad_aspect aspect_to_querent)) (julian_day chart) in
          let quesited_separation :=
            check_aspect_separation_order
              (pp_longitude (planets chart quesited)) (pp_speed (planets chart quesited))
              (pp_longitude pos) (pp_speed pos)
              (aspect_degrees (ad_aspect aspect_to_quesited)) (julian_day chart) in
          if querent_separation
             && (ad_degrees_to_exact aspect_to_quesited
                 <? ad_degrees_to_exact aspect_to_querent) then
            Some [Lit "separating from "; Lit (planet_value querent);
                  Lit ", applying to "; Lit (planet_value quesited)]
          else if quesited_separation
                  && (ad_degrees_to_exact aspect_to_querent
                      <? ad_degrees_to_exact aspect_to_quesited) then
            Some [Lit "separating from "; Lit (planet_value quesited);
                  Lit ", applying to "; Lit (planet_value querent)]
          else None
        else
          Some [Lit "connecting "; Lit (planet_value querent); Lit " and ";
                Lit (planet_value quesited)]
    | _, _ => None
    end.

(** The translator and the sequence text of the first planet that
    translates; translation is always reported favorable. *)
Definition _check_enhanced_translation_of_light (config : Config)
    (chart : HoraryChart) (querent quesited : Planet) : option (Planet * text) :=
  if negb (translation_require_speed_advantage (cfg_moon config)) then
    head (flat_map (λ planet,
      match translates config chart querent quesited planet with
      | Some sequence => [(planet, sequence)]
      | None => []
      end) planet_order)
  else None.

(** One iteration of the loop of [_check_enhanced_collection_of_light]. *)
Definition collects (config : Config) (chart : HoraryChart)
    (querent quesited planet : Planet) : bool :=
  if member planet [querent; quesited] then false
  else
    let pos := planets chart planet in
    match _find_applying_aspect chart querent planet,
          _find_applying_aspect chart quesited planet with
    | Some aspects_from_querent, Some aspects_from_quesited =>
        if collection_require_collector_dignity (cfg_moon config)
           && (pp_dignity_score pos <? collection_minimum_dignity_score (cfg_moon config))%Z
        then false
        else
          let querent_pos := planets chart querent in
          let quesited_pos := planets chart quesited in
          let querent_days_to_sign :=
            days_to_sign_exit (pp_longitude querent_pos) (pp_speed querent_pos) in
          let quesited_days_to_sign :=
            days_to_sign_exit (pp_longitude quesited_pos) (pp_speed quesited_pos) in
          let days_for (degrees_to_exact : Q) (p : PlanetPosition) :=
            if Qabs (pp_speed p - pp_speed pos) >? 0
            then degrees_to_exact / Qabs (pp_speed p - pp_speed pos) else 0 in
          let max_collection_days :=
            Qmax (days_for (ad_degrees_to_exact aspects_from_querent) querent_pos)
                 (days_for (ad_degrees_to_exact aspects_from_quesited) quesited_pos) in
          negb (exits_before querent_days_to_sign (Finite max_collection_days))
          && negb (exits_before quesited_days_to_sign (Finite max_collection_days))
    | _, _ => false
    end.

Definition _check_enhanced_collection_of_light (config : Config)
    (chart : HoraryChart) (querent quesited : Planet) : option Planet :=
  head (flat_map (λ planet,
    if collects config chart querent quesited planet then [planet] else [])
    planet_order).

Definition _check_enhanced_perfection (config : Config) (chart : HoraryChart)
    (querent quesited : Planet) (exaltation_confidence_boost : Q)
    : option Perfection :=
  let pc := conf_perfection (cfg_confidence config) in
  let querent_pos := planets chart querent in
  let quesited_pos := planets chart quesited in
  let direct_aspect := _find_applying_aspect chart querent quesited in
  let direct_result :=
    match direct_aspect with
    | Some direct_aspect =>
        if _enhanced_perfects_in_sign querent_pos quesited_pos direct_aspect chart then
          let reception := _check_enhanced_mutual_reception chart querent quesited in
          let aspect_name := aspect_display_name (ad_aspect direct_aspect) in
          match reception with
          | mutual_rulership =>
              Some {| perf_type := direct; perf_favorable := true;
                      perf_confidence := direct_with_mutual_rulership pc;
                      perf_reason := [Lit aspect_name;
                        Lit " with mutual rulership - unconditional perfection"];
                      perf_reception := Some reception;
                      perf_aspect := Some direct_aspect;
                      perf_third_planet := None |}
          | mutual_exaltation =>
              let base_confidence := direct_with_mutual_exaltation pc in
              let boosted_confidence :=
                Qmin 100 (inject_Z base_confidence + exaltation_confidence_boost) in
              Some {| perf_type := direct; perf_favorable := true;
                      perf_confidence := Py.int boosted_confidence;
                      perf_reason := [Lit aspect_name;
                        Lit " with mutual exaltation (+";
                        FloatRepr exaltation_confidence_boost; Lit "% confidence)"];
                      perf_reception := Some reception;
                      perf_aspect := Some direct_aspect;
                      perf_third_planet := None |}
          | _ =>
              let favorable := _is_aspect_favorable (ad_aspect direct_aspect) reception in
              Some {| perf_type := direct; perf_favorable := favorable;
                      perf_confidence := direct_basic pc;
                      perf_reason := [Lit aspect_name; Lit " between significators"]
                        ++ (if bool_decide (reception ≠ none)
                            then [Lit " with "; Lit (reception_name reception)] else []);
                      perf_reception := Some reception;
                      perf_aspect := Some direct_aspect;
                      perf_third_planet := None |}
          end
        else None
    | None => None
    end in
  match direct_result with
  | Some p => Some p
  | None =>
  match _check_enhanced_translation_of_light config chart querent quesited with
  | Some (translator, sequence) =>
      Some {| perf_type := translation; perf_favorable := true;
              perf_confidence := translation_of_light pc;
              perf_reason := [Lit "Translation of light by ";
                              Lit (planet_value translator); Lit " - "] ++ sequence;
              perf_reception := None; perf_aspect := None;
              perf_third_planet := Some translator |}
  | None =>
  match _check_enhanced_collection_of_light config chart querent quesited with
  | Some collector =>
      Some {| perf_type := collection; perf_favorable := true;
              perf_confidence := collection_of_light pc;
              perf_reason := [Lit "Collection of light by ";
                              Lit (planet_value collector)];
              perf_reception := None; perf_aspect := None;
              perf_third_planet := Some collector |}
  | None =>
      let reception := _check_enhanced_mutual_reception chart querent quesited in
      match reception with
      | mutual_rulership =>
          Some {| perf_type := reception_only_type; perf_favorable := true;
                  perf_confidence := reception_only pc;
                  perf_reason :=
                    [Lit "Mutual reception by rulership - unconditional perfection"];
                  perf_reception := Some reception; perf_aspect := None;
                  perf_third_planet := None |}
      | mutual_exaltation =>
          let boosted_confidence :=
            Qmin 100 (inject_Z (reception_only pc) + exaltation_confidence_boost) in
          Some {| perf_type := reception_only_type; perf_favorable := true;
                  perf_confidence := Py.int boosted_confidence;
                  perf_reason := [Lit "Mutual reception by exaltation (+";
                    FloatRepr exaltation_confidence_boost; Lit "% confidence)"];
                  perf_reception := Some reception; perf_aspect := None;
                  perf_third_planet := None |}
      | _ => None
      end
  end end end.

End Perfection.

(** ** Judgment: denial, Moon testimony, timing *)

(** One iteration of the prohibition loop: Saturn applies to a significator
    and completes before the significators' own applying aspect. *)
Definition prohibits (chart : HoraryChart) (querent quesited : Planet)
    (aspect : AspectInfo) : option Planet :=
  if (bool_decide (ai_planet1 aspect = SATURN) || bool_decide (ai_planet2 aspect = SATURN))
     && ai_applying aspect then
    let other_planet :=
      if bool_decide (ai_planet1 aspect = SATURN)
      then ai_planet2 aspect else ai_planet1 aspect in
    if member other_planet [querent; quesited] then
      match _find_applying_aspect chart querent quesited with
      | Some sig_aspect =>
          if ai_degrees_to_exact aspect <? ad_degrees_to_exact sig_aspect
          then Some other_planet else None
      | None => None
      end
    else None
  else None.

(** [Some (confidence, reason)] for ["denied": True]. *)
Definition _check_enhanced_denial_conditions (config : Config) (chart : HoraryChart)
    (querent quesited : Planet) : option (Z * text) :=
  match head (flat_map (λ aspect,
           match prohibits chart querent quesited aspect with
           | Some other_planet => [other_planet] | None => []
           end) (aspects chart)) with
  | Some other_planet =>
      Some (denial_prohibition (cfg_confidence config),
            [Lit "Prohibition by Saturn - aspects "; Lit (planet_value other_planet);
             Lit " before perfection"])
  | None =>
      let querent_pos := planets chart querent in
      let quesited_pos := planets chart quesited in
      if negb (retrograde_automatic_denial config) then None
      else if pp_retrograde querent_pos || pp_retrograde quesited_pos then
        Some (denial_frustration_retrograde (cfg_confidence config),
              [Lit "Frustration - ";
               Lit (if pp_retrograde querent_pos then "querent" else "quesited");
               Lit " significator retrograde"])
      else None
  end.

Record MoonTestimony := {
  mt_favorable : bool;
  mt_unfavorable : bool;
  mt_reason : text;
  mt_void_of_course : bool;
  mt_timing : option text
}.

Definition _check_enhanced_moon_testimony (config : Config) (chart : HoraryChart)
    (querent quesited : Planet) (ignore_void_moon : bool) : MoonTestimony :=
  let moon_pos := planets chart MOON in
  let void_check := _is_moon_void_of_course_enhanced config chart in
  if negb ignore_void_moon && void void_check && negb (exception void_check) then
    {| mt_favorable := false; mt_unfavorable := true;
       mt_reason := Lit "Moon void of course - " :: reason void_check;
       mt_void_of_course := true;
       mt_timing := Some [Lit "Nothing comes of the matter"] |}
  else if ignore_void_moon then
    {| mt_favorable := false; mt_unfavorable := false;
       mt_reason := [Lit "Moon void of course - ignored by override"];
       mt_void_of_course := true;
       mt_timing := Some [Lit "Uncertain (void Moon overridden)"] |}
  else
    let phase_bonus := _moon_phase_bonus config chart in
    let speed_bonus := _moon_speed_bonus config chart in
    let angularity_bonus := _moon_angularity_bonus config chart in
    let total_moon_bonus := (phase_bonus + speed_bonus + angularity_bonus)%Z in
    let adjusted_dignity := (pp_dignity_score moon_pos + total_moon_bonus)%Z in
    let general :=
      if (adjusted_dignity >? 0)%Z then
        {| mt_favorable := true; mt_unfavorable := false;
           mt_reason := [Lit "Moon well-dignified in "; Lit (sign_name (pp_sign moon_pos));
                         Lit " (adjusted dignity: "; SignedInt adjusted_dignity; Lit ")"];
           mt_void_of_course := false; mt_timing := None |}
      else if (adjusted_dignity <? -3)%Z then
        {| mt_favorable := false; mt_unfavorable := true;
           mt_reason := [Lit "Moon poorly dignified in "; Lit (sign_name (pp_sign moon_pos));
                         Lit " (adjusted dignity: "; SignedInt adjusted_dignity; Lit ")"];
           mt_void_of_course := false; mt_timing := None |}
      else
        {| mt_favorable := false; mt_unfavorable := false;
           mt_reason := [Lit "Moon testimony neutral (adjusted dignity: ";
                         SignedInt adjusted_dignity; Lit ")"];
           mt_void_of_course := false; mt_timing := None |} in
    match moon_next_aspect chart with
    | Some next_aspect =>
        let other_planet := la_planet next_aspect in
        let aspect_type := la_aspect next_aspect in
        if member other_planet [querent; quesited] then
          let favorable := member aspect_type [CONJUNCTION; SEXTILE; TRINE] in
          {| mt_favorable := favorable; mt_unfavorable := negb favorable;
             mt_reason := [Lit "Moon next "; Lit (aspect_display_name aspect_type);
                           Lit "s "; Lit (planet_value other_planet);
                           Lit " (total dignity: "; SignedInt adjusted_dignity; Lit ")"];
             mt_void_of_course := false;
             mt_timing := Some (la_perfection_eta_description next_aspect) |}
        else general
    | None => general
    end.

Definition _format_timing_description_enhanced (days : Q) : text :=
  if days <? 1 # 2 then [Lit "Within hours"]
  else if days <? 1 then [Lit "Within a day"]
  else if days <? 7 then [Lit "Within "; Int (Py.int days); Lit " days"]
  else if days <? 30 then [Lit "Within "; Int (Py.int (days / 7)); Lit " weeks"]
  else if days <? 365 then [Lit "Within "; Int (Py.int (days / 30)); Lit " months"]
  else [Lit "More than a year"].

(** ** The judgment pipeline *)

Inductive Verdict :=
| YES | NO | UNCLEAR | NOT_RADICAL | CANNOT_JUDGE | ERROR | LOCATION_ERROR.

Definition verdict_name (v : Verdict) : string :=
  match v with
  | YES => "YES" | NO => "NO" | UNCLEAR => "UNCLEAR"
  | NOT_RADICAL => "NOT RADICAL" | CANNOT_JUDGE => "CANNOT JUDGE"
  | ERROR => "ERROR" | LOCATION_ERROR => "LOCATION_ERROR"
  end.

(** The judgment dictionary; of ["traditional_factors"] the perfection type
    and the void flag are kept. *)
Record Judgment := {
  j_result : Verdict;
  j_confidence : Z;
  j_reasoning : list text;
  j_timing : option text;
  j_perfection_type : option PerfectionType;
  j_moon_void : option bool;
  j_solar_factors : option SolarFactors
}.

Section Judgment.
Context `{HoraryMath} `{Ephemeris}.

(** Dividing by a Moon speed of zero raises. *)
Definition _calculate_enhanced_timing (chart : HoraryChart) (perfection : Perfection)
    : outcome text :=
  match perf_aspect perfection with
  | Some aspect =>
      let degrees := ad_degrees_to_exact aspect in
      let moon_speed := get_real_moon_speed (julian_day chart) in
      if moon_speed =? 0 then Raise (Exception "ZeroDivisionError" "float division by zero")
      else
        let timing_days := degrees / moon_speed in
        Return (_format_timing_description_enhanced timing_days)
  | None => Return [Lit "Timing uncertain"]
  end.

Definition _apply_enhanced_judgment (config : Config) (chart : HoraryChart)
    (question_analysis : QuestionAnalysis)
    (ignore_radicality ignore_void_moon ignore_combustion ignore_saturn_7th : bool)
    (exaltation_confidence_boost : Q) : outcome Judgment :=
  let cc := cfg_confidence config in
  let confidence := base_confidence cc in
  let radicality := _check_enhanced_radicality config chart ignore_saturn_7th in
  if negb ignore_radicality && negb (rad_valid radicality) then
    Return {| j_result := NOT_RADICAL; j_confidence := 0;
              j_reasoning := [rad_reason radicality]; j_timing := None;
              j_perfection_type := None; j_moon_void := None;
              j_solar_factors := None |}
  else
  let reasoning :=
    if negb ignore_radicality
    then [Lit "Radicality: " :: rad_reason radicality]
    else [[Lit "Radicality: Bypassed by override"]] in
  match _identify_significators chart question_analysis with
  | NoSignificators why =>
      Return {| j_result := CANNOT_JUDGE; j_confidence := 0;
                j_reasoning := reasoning ++ [why]; j_timing := None;
                j_perfection_type := None; j_moon_void := None;
                j_solar_factors := None |}
  | Significator_pair querent_planet quesited_planet description =>
  let reasoning := reasoning ++ [Lit "Significators: " :: description] in
  let solar_factors :=
    _analyze_enhanced_solar_factors chart querent_planet quesited_planet
      ignore_combustion in
  let '(confidence, reasoning) :=
    if significant solar_factors then
      let reasoning := reasoning ++ [Lit "Solar conditions: " :: summary solar_factors] in
      if (0 <? cazimi_count solar_factors)%nat then
        ((confidence + solar_cazimi_bonus cc)%Z,
         reasoning ++ [[Lit "Cazimi planets significantly strengthen the judgment"]])
      else if (0 <? combustion_count solar_factors)%nat && negb ignore_combustion then
        ((confidence - solar_combustion_penalty cc)%Z,
         reasoning ++ [[Lit "Combusted planets significantly weaken the judgment"]])
      else (confidence, reasoning)
    else (confidence, reasoning) in
  match _check_enhanced_perfection config chart querent_planet quesited_planet
          exaltation_confidence_boost with
  | Some perfection =>
      let result := if perf_favorable perfection then YES else NO in
      let confidence := Z.min confidence (perf_confidence perfection) in
      let reasoning := reasoning ++ [Lit "Perfection: " :: perf_reason perfection] in
      timing ← _calculate_enhanced_timing chart perfection;
      Return {| j_result := result; j_confidence := confidence;
                j_reasoning := reasoning; j_timing := Some timing;
                j_perfection_type := Some (perf_type perfection);
                j_moon_void := None;
                j_solar_factors := Some solar_factors |}
  | None =>
  match _check_enhanced_denial_conditions config chart querent_planet quesited_planet with
  | Some (denial_confidence, denial_reason) =>
      Return {| j_result := NO;
                j_confidence := Z.min confidence denial_confidence;
                j_reasoning := reasoning ++ [Lit "Denial: " :: denial_reason];
                j_timing := None;
                j_perfection_type := None; j_moon_void := None;
                j_solar_factors := Some solar_factors |}
  | None =>
      let moon_testimony :=
        _check_enhanced_moon_testimony config chart querent_planet quesited_planet
          ignore_void_moon in
      let reasoning := reasoning ++ [Lit "Moon: " :: mt_reason moon_testimony] in
      let '(result, confidence) :=
        if mt_favorable moon_testimony then
          (YES, Z.min confidence (lunar_cap_favorable cc))
        else if mt_unfavorable moon_testimony then
          (NO, Z.min confidence (lunar_cap_unfavorable cc))
        else
          (UNCLEAR, Z.min confidence (lunar_cap_neutral cc)) in
      Return {| j_result := result; j_confidence := confidence;
                j_reasoning := reasoning;
                j_timing := Some (default [Lit "Uncertain"] (mt_timing moon_testimony));
                j_perfection_type := None;
                j_moon_void := Some (mt_void_of_course moon_testimony);
                j_solar_factors := Some solar_factors |}
  end end end.

End Judgment.

(** ** Dates and time zones ([TimezoneManager]) *)

(** A naive [datetime] with minute resolution, as the number of minutes
    since 1970-01-01 00:00 on its own wall clock. *)
Definition naive := Z.

Definition hour (t : naive) : Z := ((t / 60) mod 24)%Z.
Definition minute (t : naive) : Z := (t mod 60)%Z.

(** [dt + datetime.timedelta(hours=h)]. *)
Definition add_hours (t : naive) (h : Z) : naive := (t + 60 * h)%Z.

(** Days from 1970-01-01 to a date of the proleptic Gregorian calendar. *)
Definition days_from_civil (y m d : Z) : Z :=
  (let y' := if m <=? 2 then y - 1 else y in
   let era := y' / 400 in
   let yoe := y' - era * 400 in
   let doy := (153 * (if m >? 2 then m - 3 else m + 9) + 2) / 5 + d - 1 in
   let doe := yoe * 365 + yoe / 4 - yoe / 100 + doy in
   era * 146097 + doe - 719468)%Z.

Definition is_leap (y : Z) : bool :=
  ((y mod 4 =? 0) && (negb (y mod 100 =? 0) || (y mod 400 =? 0)))%Z.

Definition days_in_month (y m : Z) : Z :=
  (if m =? 2 then (if is_leap y then 29 else 28)
   else if (m =? 4) || (m =? 6) || (m =? 9) || (m =? 11) then 30 else 31)%Z.

Definition digit_value (c : Ascii.ascii) : option Z :=
  let n := Ascii.nat_of_ascii c in
  if (48 <=? n)%nat && (n <=? 57)%nat then Some (Z.of_nat n - 48)%Z else None.

Fixpoint digits_value (acc : Z) (s : string) : option Z :=
  match s with
  | String.EmptyString => Some acc
  | String.String c rest =>
      match digit_value c with
      | Some d => digits_value (10 * acc + d)%Z rest
      | None => None
      end
  end.

(** A decimal field of [strptime] with a bounded number of digits. *)
Definition number_field (min_len max_len : nat) (s : string) : option Z :=
  if (min_len <=? String.length s)%nat && (String.length s <=? max_len)%nat
  then digits_value 0 s else None.

Fixpoint split_on (sep : Ascii.ascii) (current : string) (s : string) : list string :=
  match s with
  | String.EmptyString => [current]
  | String.String c rest =>
      if Ascii.eqb c sep then current :: split_on sep String.EmptyString rest
      else split_on sep (current +:+ String.String c String.EmptyString) rest
  end.

(** [datetime.strptime(f"{date_str} {time_str}", "%Y-%m-%d %H:%M")];
    [None] is the [ValueError] of a string that does not match. *)
Definition strptime (date_str time_str : string) : option naive :=
  match split_on "-"%char "" date_str, split_on ":"%char "" time_str with
  | [ys; ms; ds], [hs; mins] =>
      match number_field 4 4 ys, number_field 1 2 ms, number_field 1 2 ds,
            number_field 1 2 hs, number_field 1 2 mins with
      | Some y, Some m, Some d, Some h, Some mi =>
          if ((1 <=? y) && (1 <=? m) && (m <=? 12) && (1 <=? d)
              && (d <=? days_in_month y m) && (h <=? 23) && (mi <=? 59))%Z
          then Some ((days_from_civil y m d * 24 + h) * 60 + mi)%Z
          else None
      | _, _, _, _, _ => None
      end
  | _, _ => None
  end.

(** The time zone objects the code builds: a [ZoneInfo], a pytz zone, or
    [pytz.UTC].  Only the pytz ones have a [localize] method. *)
Inductive tzinfo :=
| ZoneInfoTz (key : string)
| PytzTz (zone : string)
| PytzUTC.

Definition has_localize (tz : tzinfo) : bool :=
  match tz with ZoneInfoTz _ => false | _ => true end.

(** What [tz.localize] answers: an offset from UTC in minutes, or one of the
    two DST errors. *)
Inductive localized :=
| Offset (minutes : Z)
| AmbiguousTimeError
| NonExistentTimeError.

(** The Python environment and the third-party time zone libraries:
    whether [zoneinfo] could be imported, which zone names exist, what pytz
    answers to [localize] (with the [is_dst] argument when one is passed),
    what offset a [ZoneInfo] gives to a wall-clock time, and the zone the
    finder returns for coordinates (an exception of the finder is caught by
    [get_timezone_for_location] and reads as [None]). *)
Class TimeZones := {
  ZoneInfo_available : bool;
  zone_exists : string → bool;
  pytz_localize : string → naive → option bool → localized;
  zoneinfo_utcoffset : string → naive → Z;
  timezone_at : Q → Q → option string
}.

(** An aware [datetime]: the wall clock, the zone object and the offset in
    force. *)
Record aware := {
  wall : naive;
  tz_of : tzinfo;
  utcoffset : Z
}.

(** [dt.astimezone(pytz.UTC)]. *)
Definition astimezone_utc (dt : aware) : aware :=
  {| wall := (wall dt - utcoffset dt)%Z; tz_of := PytzUTC; utcoffset := 0 |}.

Section TimezoneManager.
Context `{TimeZones}.

(** [ZoneInfo(name) if ZoneInfo else pytz.timezone(name)], falling back to
    UTC when the name is rejected. *)
Definition zone_or_utc (name : string) : tzinfo * string :=
  if zone_exists name then
    (if ZoneInfo_available then ZoneInfoTz name else PytzTz name, name)
  else (PytzUTC, "UTC").

Definition get_timezone_for_location (lat lon : Q) : option string :=
  timezone_at lat lon.

(** [tz.localize(dt)] and [tz.localize(dt, is_dst=...)] on a pytz zone. *)
Definition localize (tz : tzinfo) (dt : naive) (is_dst : option bool) : localized :=
  match tz with
  | PytzTz zone => pytz_localize zone dt is_dst
  | _ => Offset 0
  end.

(** [dt_naive.replace(tzinfo=tz)]: the wall clock is kept as it is. *)
Definition replace_tzinfo (dt : naive) (tz : tzinfo) : aware :=
  {| wall := dt; tz_of := tz;
     utcoffset := match tz with
                  | ZoneInfoTz key => zoneinfo_utcoffset key dt
                  | _ => 0
                  end |}.

Definition dst_error (r : localized) : exn :=
  match r with
  | AmbiguousTimeError => Exception "AmbiguousTimeError" ""
  | _ => Exception "NonExistentTimeError" ""
  end.

Definition parse_datetime_with_timezone (date_str time_str : string)
    (timezone_str : option string) (coordinates : option (Q * Q))
    : outcome (aware * aware * string) :=
  match strptime date_str time_str with
  | None => Raise (Exception "ValueError" "time data does not match format")
  | Some dt_naive =>
    let '(tz, timezone_used) :=
      match timezone_str with
      | Some timezone_str =>
          if bool_decide (timezone_str = "") then
            match coordinates with
            | Some (lat, lon) =>
                match get_timezone_for_location lat lon with
                | Some tz_str =>
                    if bool_decide (tz_str = "") then (PytzUTC, "UTC")
                    else zone_or_utc tz_str
                | None => (PytzUTC, "UTC")
                end
            | None => (PytzUTC, "UTC")
            end
          else zone_or_utc timezone_str
      | None =>
          match coordinates with
          | Some (lat, lon) =>
              match get_timezone_for_location lat lon with
              | Some tz_str =>
                  if bool_decide (tz_str = "") then (PytzUTC, "UTC")
                  else zone_or_utc tz_str
              | None => (PytzUTC, "UTC")
              end
          | None => (PytzUTC, "UTC")
          end
      end in
    dt_local ←
      (if ZoneInfo_available || has_localize tz then
         if has_localize tz then
           match localize tz dt_naive None with
           | Offset off =>
               Return {| wall := dt_naive; tz_of := tz; utcoffset := off |}
           | AmbiguousTimeError =>
               match localize tz dt_naive (Some false) with
               | Offset off =>
                   Return {| wall := dt_naive; tz_of := tz; utcoffset := off |}
               | r => Raise (dst_error r)
               end
           | NonExistentTimeError =>
               let dt_adjusted := add_hours dt_naive 1 in
               match localize tz dt_adjusted None with
               | Offset off =>
                   Return {| wall := dt_adjusted; tz_of := tz; utcoffset := off |}
               | r => Raise (dst_error r)
               end
           end
         else Return (replace_tzinfo dt_naive tz)
       else Return (replace_tzinfo dt_naive tz));
    let dt_utc := astimezone_utc dt_local in
    Return (dt_local, dt_utc, timezone_used)
  end.

End TimezoneManager.

(** ** The entry point [judge_question] *)

(** [try: body except LocationError/Exception as e: handler e]: both
    handlers of [judge_question] take every exception of the model. *)
Definition try_except {A} (body : outcome A) (handler : exn → outcome A) : outcome A :=
  match body with
  | Return a => Return a
  | Raise e => handler e
  end.

(** The result dictionary of [judge_question]; the chart and the display
    sections of a successful answer are one opaque payload. *)
Record JudgeResult (Payload : Type) := {
  r_error : option string;
  r_judgment : Verdict;
  r_confidence : Z;
  r_reasoning : list text;
  r_error_type : option string;
  r_timing : option text;
  r_payload : option Payload
}.
Arguments r_error {Payload}.
Arguments r_judgment {Payload}.
Arguments r_confidence {Payload}.
Arguments r_reasoning {Payload}.
Arguments r_error_type {Payload}.
Arguments r_timing {Payload}.
Arguments r_payload {Payload}.

(** Everything [judge_question] calls outside the judgment itself; each
    call may raise. *)
Class Services := {
  Payload : Type;
  cfg : outcome Config;
  geolocator : bool;
  safe_geocode : string → outcome (Q * Q * string);
  get_current_time_for_location : Q → Q → outcome (aware * aware * string);
  calculate_chart :
    aware → aware → string → Q → Q → string → outcome HoraryChart;
  analyze_question : string → outcome QuestionAnalysis;
  (** [serialize_chart_for_frontend], [_calculate_general_info],
      [_calculate_considerations], [_build_moon_story] and the timezone
      block of the answer *)
  render_payload :
    HoraryChart → QuestionAnalysis → aware → aware → string → outcome Payload
}.

Section JudgeQuestion.
Context `{HoraryMath} `{Ephemeris} `{TimeZones} `{Services}.

Definition falsy (s : option string) : bool :=
  match s with None => true | Some s => bool_decide (s = "") end.

(** The body of the [try] block. *)
Definition judge_pipeline (question location : string)
    (date_str time_str timezone_str : option string) (use_current_time : bool)
    (manual_houses : option (list Z))
    (ignore_radicality ignore_void_moon ignore_combustion ignore_saturn_7th : bool)
    (exaltation_confidence_boost : option Q) : outcome (JudgeResult Payload) :=
  config ← cfg;
  let exaltation_confidence_boost :=
    default (reception_mutual_exaltation_bonus (cfg_confidence config))
            exaltation_confidence_boost in
  '(lat, lon, full_location) ←
    (if geolocator then safe_geocode location
     else Raise (LocationError "Geocoding service not available"));
  '(dt_local, dt_utc, timezone_used) ←
    (if use_current_time then get_current_time_for_location lat lon
     else if falsy date_str || falsy time_str then
       Raise (Exception "ValueError"
                "Date and time must be provided when not using current time")
     else parse_datetime_with_timezone (default "" date_str) (default "" time_str)
            timezone_str (Some (lat, lon)));
  chart ← calculate_chart dt_local dt_utc timezone_used lat lon full_location;
  question_analysis ← analyze_question question;
  let question_analysis :=
    match manual_houses with
    | Some (first :: rest) =>
        {| question_type := question_type question_analysis;
           relevant_houses := first :: rest;
           quesited_house := default 7%Z (head rest) |}
    | _ => question_analysis
    end in
  judgment ← _apply_enhanced_judgment config chart question_analysis
                ignore_radicality ignore_void_moon ignore_combustion
                ignore_saturn_7th exaltation_confidence_boost;
  payload ← render_payload chart question_analysis dt_local dt_utc timezone_used;
  Return {| r_error := None;
            r_judgment := j_result judgment;
            r_confidence := j_confidence judgment;
            r_reasoning := j_reasoning judgment;
            r_error_type := None;
            r_timing := j_timing judgment;
            r_payload := Some payload |}.

Definition judge_question (question location : string)
    (date_str time_str timezone_str : option string) (use_current_time : bool)
    (manual_houses : option (list Z))
    (ignore_radicality ignore_void_moon ignore_combustion ignore_saturn_7th : bool)
    (exaltation_confidence_boost : option Q) : outcome (JudgeResult Payload) :=
  try_except
    (judge_pipeline question location date_str time_str timezone_str
       use_current_time manual_houses ignore_radicality ignore_void_moon
       ignore_combustion ignore_saturn_7th exaltation_confidence_boost)
    (λ e,
      match e with
      | LocationError msg =>
          Return {| r_error := Some msg;
                    r_judgment := LOCATION_ERROR;
                    r_confidence := 0;
                    r_reasoning := [[Lit "Location error: "; Lit msg]];
                    r_error_type := Some "LocationError";
                    r_timing := None;
                    r_payload := None |}
      | Exception _ msg =>
          Return {| r_error := Some msg;
                    r_judgment := ERROR;
                    r_confidence := 0;
                    r_reasoning := [[Lit "Calculation error: "; Lit msg]];
                    r_error_type := None;
                    r_timing := None;
                    r_payload := None |}
      end).

End JudgeQuestion.

(** ** Conditions on charts used in the statements *)

(** Ecliptic longitudes of a chart lie in [0, 360). *)
Definition longitude_in_circle (p : PlanetPosition) : Prop :=
  0 <= pp_longitude p ∧ pp_longitude p < 360.

(** The Moon is slower than the configured stationary threshold. *)
Definition moon_stationary (config : Config) (chart : HoraryChart) : Prop :=
  Qabs (pp_speed (planets chart MOON)) < stationary_speed_threshold (cfg_timing config).

(** ** Ranges of the confidence settings *)

Definition in_percent (z : Z) : Prop := (0 ≤ z ≤ 100)%Z.

(** The ranges of the confidence settings under which the judgment keeps
    its confidence between 0 and 100: levels and caps are percentages, the
    cazimi bonus and the exaltation boost are not negative, and the
    combustion penalty is at most the base confidence. *)
Definition confidence_ranges (config : Config) (exaltation_confidence_boost : Q)
    : Prop :=
  let cc := cfg_confidence config in
  let pc := conf_perfection cc in
  in_percent (base_confidence cc)
  ∧ (0 ≤ solar_cazimi_bonus cc)%Z
  ∧ (0 ≤ solar_combustion_penalty cc ≤ base_confidence cc)%Z
  ∧ Forall in_percent
      [direct_with_mutual_rulership pc; direct_with_mutual_exaltation pc;
       direct_basic pc; translation_of_light pc; collection_of_light pc;
       reception_only pc; denial_prohibition cc; denial_frustration_retrograde cc;
       lunar_cap_favorable cc; lunar_cap_unfavorable cc; lunar_cap_neutral cc]
  ∧ 0 <= exaltation_confidence_boost.

(** The running confidence of [_apply_enhanced_judgment] once the solar
    factors have been taken into account. *)
Definition solar_adjusted_confidence (config : Config) (solar_factors : SolarFactors)
    (ignore_combustion : bool) : Z :=
  let cc := cfg_confidence config in
  if significant solar_factors then
    if (0 <? cazimi_count solar_factors)%nat then
      (base_confidence cc + solar_cazimi_bonus cc)%Z
    else if (0 <? combustion_count solar_factors)%nat && negb ignore_combustion then
      (base_confidence cc - solar_combustion_penalty cc)%Z
    else base_confidence cc
  else base_confidence cc.

(** ** A sample configuration and sample charts

    Concrete inputs on which the statements of Part II are run.  The
    numbers of [sample_config] are ordinary settings for this engine; no
    statement depends on them except the examples that mention them. *)

Definition sample_config : Config := {|
  cfg_moon := {|
    phase_bonus := {|
      new_moon := -1; waxing_crescent := 1; first_quarter := 0;
      waxing_gibbous := 1; full_moon := 0; waning_gibbous := 0;
      last_quarter := 0; waning_crescent := -1 |}%Z;
    speed_bonus := {|
      very_slow := -2; slow := -1; average := 0; fast := 1; very_fast := 2 |}%Z;
    angularity_bonus := {| angular := 1; succedent := 0; cadent := -1 |}%Z;
    void_rule := by_sign;
    void_exceptions := {| ve_cancer := true; ve_sagittarius := true; ve_taurus := true |};
    translation_require_speed_advantage := false;
    translation_require_proper_sequence := false;
    collection_require_collector_dignity := true;
    collection_minimum_dignity_score := 0%Z |};
  cfg_orbs := {|
    cazimi_orb_arcmin := 17; combustion_orb := 17 # 2;
    under_beams_orb := 15; void_orb_deg := 1 |};
  cfg_timing := {| stationary_speed_threshold := 1 # 1000; timing_precision_days := 1 # 4 |};
  cfg_radicality := {|
    asc_too_early := 3; asc_too_late := 27;
    saturn_7th_enabled := true; via_combusta_enabled := true;
    vc_libra_start := 15; vc_scorpio_full := true; vc_capricorn_start := 15 |};
  cfg_confidence := {|
    base_confidence := 100;
    solar_cazimi_bonus := 15;
    solar_combustion_penalty := 10;
    conf_perfection := {|
      direct_with_mutual_rulership := 95; direct_with_mutual_exaltation := 85;
      direct_basic := 80; translation_of_light := 75;
      collection_of_light := 70; reception_only := 70 |}%Z;
    denial_prohibition := 85;
    denial_frustration_retrograde := 80;
    lunar_cap_favorable := 80;
    lunar_cap_unfavorable := 80;
    lunar_cap_neutral := 50;
    reception_mutual_exaltation_bonus := 15 |}%Z;
  retrograde_automatic_denial := false
|}.

Definition position (p : Planet) (lon speed : Q) (s : Sign) (house : Z)
    : PlanetPosition :=
  {| pp_planet := p; pp_longitude := lon; pp_latitude := 0; pp_house := house;
     pp_sign := s; pp_dignity_score := 0; pp_retrograde := speed <? 0;
     pp_speed := speed |}.

(** Moon at 29 Pisces with every other body at 10 degrees of a sign: no
    aspect point falls in the last degree of Pisces. *)
Definition late_pisces_moon (moon_speed : Q) : HoraryChart := {|
  location := (0, 0);
  planets := λ p,
    match p with
    | SUN => position SUN 100 1 CANCER 4
    | MOON => position MOON 359 moon_speed PISCES 12
    | MERCURY => position MERCURY 70 1 GEMINI 3
    | VENUS => position VENUS 130 1 LEO 5
    | MARS => position MARS 190 (1 # 2) LIBRA 7
    | JUPITER => position JUPITER 250 (1 # 10) SAGITTARIUS 9
    | SATURN => position SATURN 310 (1 # 30) AQUARIUS 11
    end;
  aspects := [];
  houses := [0; 30; 60; 90; 120; 150; 180; 210; 240; 270; 300; 330];
  house_rulers := ∅;
  ascendant := 10;
  midheaven := 280;
  solar_analyses := [];
  julian_day := 2459000;
  moon_last_aspect := None;
  moon_next_aspect := None
|}.

(** A sample environment for New York in 2021: [zoneinfo] is importable and
    gives a wall-clock time the offset of its first occurrence (daylight
    time from 03:00 on 14 March until 02:00 on 7 November, standard time
    otherwise); pytz raises on ambiguous and missing local times unless
    [is_dst] is given. *)
Definition ny_dst_begin : naive := ((days_from_civil 2021 3 14 * 24 + 3) * 60)%Z.
Definition ny_dst_end : naive := ((days_from_civil 2021 11 7 * 24 + 2) * 60)%Z.

Definition new_york_2021 (with_zoneinfo : bool) : TimeZones := {|
  ZoneInfo_available := with_zoneinfo;
  zone_exists := λ name, bool_decide (name = "America/New_York");
  pytz_localize := λ _ t is_dst,
    (if (ny_dst_begin - 60 <=? t) && (t <? ny_dst_begin) then
       match is_dst with
       | None => NonExistentTimeError
       | Some dst => Offset (if dst then -240 else -300)
       end
     else if (ny_dst_end - 60 <=? t) && (t <? ny_dst_end) then
       match is_dst with
       | None => AmbiguousTimeError
       | Some dst => Offset (if dst then -240 else -300)
       end
     else if (ny_dst_begin <=? t) && (t <? ny_dst_end) then Offset (-240)
     else Offset (-300))%Z;
  zoneinfo_utcoffset := λ _ t,
    (if (ny_dst_begin <=? t) && (t <? ny_dst_end) then -240 else -300)%Z;
  timezone_at := λ _ _, Some "America/New_York"
|}.

(** Aries rising: Mars rules the first house and Venus the seventh.  Venus
    at 10 Aries applies to the opposition of Mars at 15 Libra, each in a sign
    the other rules.  The ascendant and the solar analyses vary. *)
Definition opposition_in_reception (asc : Q)
    (solar : list (Planet * SolarAnalysis)) : HoraryChart := {|
  location := (0, 0);
  planets := λ p,
    match p with
    | SUN => position SUN 100 1 CANCER 4
    | MOON => position MOON 50 13 TAURUS 2
    | MERCURY => position MERCURY 105 1 CANCER 4
    | VENUS => position VENUS 10 (6 # 5) ARIES 1
    | MARS => position MARS 195 (1 # 2) LIBRA 7
    | JUPITER => position JUPITER 250 (1 # 10) SAGITTARIUS 9
    | SATURN => position SATURN 310 (1 # 30) AQUARIUS 11
    end;
  aspects := [{| ai_planet1 := VENUS; ai_planet2 := MARS; ai_aspect := OPPOSITION;
                 ai_orb := 5; ai_applying := true; ai_degrees_to_exact := 5 |}];
  houses := [asc; 30 + asc; 60 + asc; 90 + asc; 120 + asc; 150 + asc;
             180 + asc; 210 + asc; 240 + asc; 270 + asc; 300 + asc; 330 + asc];
  house_rulers := {[1%Z := MARS; 7%Z := VENUS]};
  ascendant := asc;
  midheaven := 270 + asc;
  solar_analyses := solar;
  julian_day := 2459000;
  moon_last_aspect := None;
  moon_next_aspect := None
|}.

Definition mercury_combust : list (Planet * SolarAnalysis) :=
  [(MERCURY, {| sa_planet := MERCURY; sa_distance_from_sun := 5;
                sa_condition := COMBUSTION; sa_exact_cazimi := false;
                sa_traditional_exception := false |})].

Definition seventh_house_question : QuestionAnalysis :=
  {| question_type := "marriage"; relevant_houses := [1; 7]%Z; quesited_house := 7 |}.

(** An ephemeris that reports the same Moon speed for every day. *)
Definition steady_moon (speed : Q) : Ephemeris :=
  {| get_real_moon_speed := λ _, speed |}.

(** Collaborators that place every question at Greenwich at a fixed
    instant and hand back a fixed chart. *)
Definition fixed_chart_services (chart : HoraryChart) : Services := {|
  Payload := unit;
  cfg := Return sample_config;
  geolocator := true;
  safe_geocode := λ name, Return (51 # 1, 0, name);
  get_current_time_for_location := λ _ _,
    Return ({| wall := 26928150%Z; tz_of := PytzUTC; utcoffset := 0%Z |},
            {| wall := 26928150%Z; tz_of := PytzUTC; utcoffset := 0%Z |}, "UTC");
  calculate_chart := λ _ _ _ _ _ _, Return chart;
  analyze_question := λ _, Return seventh_house_question;
  render_payload := λ _ _ _ _ _, Return ()
|}.

(** ** Signs and essential dignity ([calculator.py]) *)

(** [_get_sign]: the first sign whose span holds the longitude reduced to
    the circle, Pisces when the loop finds none. *)
Definition _get_sign (longitude : Q) : Sign :=
  let longitude := fmod longitude 360 in
  default PISCES
    (List.find (λ sign,
       (sign_start_degree sign <=? longitude)
       && (longitude <? sign_start_degree sign + 30))
       all_signs).

(** The span test of [_get_sign] for one sign. *)
Definition in_sign_span (s : Sign) (l : Q) : Prop :=
  sign_start_degree s <= l ∧ l < sign_start_degree s + 30.

(** The sign on the other side of the circle. *)
Definition opposite_sign (s : Sign) : Sign :=
  match s with
  | ARIES => LIBRA | TAURUS => SCORPIO | GEMINI => SAGITTARIUS
  | CANCER => CAPRICORN | LEO => AQUARIUS | VIRGO => PISCES
  | LIBRA => ARIES | SCORPIO => TAURUS | SAGITTARIUS => GEMINI
  | CAPRICORN => CANCER | AQUARIUS => LEO | PISCES => VIRGO
  end.

(** [self.falls] of the calculator. *)
Definition falls (p : Planet) : Sign :=
  match p with
  | SUN => LIBRA | MOON => SCORPIO | MERCURY => PISCES | VENUS => VIRGO
  | MARS => CANCER | JUPITER => CAPRICORN | SATURN => ARIES
  end.

(** The [detriment_signs] and [house_joys] tables of
    [_calculate_enhanced_dignity]. *)
Definition detriment_signs (p : Planet) : list Sign :=
  match p with
  | SUN => [AQUARIUS]
  | MOON => [CAPRICORN]
  | MERCURY => [PISCES; SAGITTARIUS]
  | VENUS => [ARIES; SCORPIO]
  | MARS => [LIBRA; TAURUS]
  | JUPITER => [GEMINI; VIRGO]
  | SATURN => [CANCER; LEO]
  end.

Definition house_joys (p : Planet) : Z :=
  match p with
  | MERCURY => 1 | MOON => 3 | VENUS => 5 | MARS => 6
  | SUN => 9 | JUPITER => 11 | SATURN => 12
  end%Z.

(** The configuration keys read by the dignity score: [config.dignity] and
    the two solar entries of [config.confidence.solar] that the judgment
    itself does not use. *)
Record DignityConfig := {
  dg_rulership : Z;
  dg_exaltation : Z;
  dg_detriment : Z;
  dg_fall : Z;
  dg_joy : Z;
  dg_angular : Z;
  dg_succedent : Z;
  dg_cadent : Z;
  dg_exact_cazimi_bonus : Z;
  dg_under_beams_penalty : Z
}.

(** The part of the score that comes from sign and house. *)
Definition essential_score (dc : DignityConfig) (planet : Planet) (sign : Sign)
    (house : Z) : Z :=
  ((if bool_decide (sign_ruler sign = planet) then dg_rulership dc else 0)
   + (if bool_decide (exaltations planet = sign) then dg_exaltation dc else 0)
   + (if member sign (detriment_signs planet) then dg_detriment dc else 0)
   + (if bool_decide (falls planet = sign) then dg_fall dc else 0)
   + (if bool_decide (house_joys planet = house) then dg_joy dc else 0)
   + (if bool_decide (house ∈ [1; 4; 7; 10]) then dg_angular dc
      else if bool_decide (house ∈ [2; 5; 8; 11]) then dg_succedent dc
      else if bool_decide (house ∈ [3; 6; 9; 12]) then dg_cadent dc
      else 0))%Z.

Definition _calculate_enhanced_dignity (config : Config) (dc : DignityConfig)
    (planet : Planet) (sign : Sign) (house : Z)
    (solar_analysis : option SolarAnalysis) : Z :=
  let score := essential_score dc planet sign house in
  match solar_analysis with
  | Some solar_analysis =>
      match sa_condition solar_analysis with
      | CAZIMI =>
          if sa_exact_cazimi solar_analysis
          then (score + dg_exact_cazimi_bonus dc)%Z
          else (score + solar_cazimi_bonus (cfg_confidence config))%Z
      | COMBUSTION =>
          if negb (sa_traditional_exception solar_analysis)
          then (score - solar_combustion_penalty (cfg_confidence config))%Z
          else score
      | UNDER_BEAMS =>
          if negb (sa_traditional_exception solar_analysis)
          then (score - dg_under_beams_penalty dc)%Z
          else score
      | FREE => score
      end
  | None => score
  end.

(** ** Aspects between the planets ([calculator.py]) *)

(** The configured orbs: [Aspect.orb] of each aspect, which [models.py]
    reads from the configuration, and the two luminary bonuses. *)
Record AspectOrbs := {
  aspect_orb : Aspect → Q;
  sun_orb_bonus : Q;
  moon_orb_bonus : Q
}.

(** [abs(a - b)], folded at 180: the separation used throughout. *)
Definition angular_separation (lon1 lon2 : Q) : Q :=
  let separation := Qabs (lon1 - lon2) in
  if separation >? 180 then 360 - separation else separation.

(** The degrees returned by [_calculate_enhanced_degrees_to_exact]; the
    estimated instant it returns beside them needs the ephemeris calendar
    and is left out. *)
Definition _calculate_enhanced_degrees_to_exact (pos1 pos2 : PlanetPosition)
    (aspect : Aspect) : Q :=
  let separation := angular_separation (pp_longitude pos1) (pp_longitude pos2) in
  let orb_from_exact := Qabs (separation - aspect_degrees aspect) in
  if orb_from_exact <? 1 # 10 then 1 # 10 else orb_from_exact.

(** [for i, planet1 in enumerate(l): for planet2 in l[i+1:]]. *)
Fixpoint pairs_in_order {A} (l : list A) : list (A * A) :=
  match l with
  | [] => []
  | x :: rest => ((λ y, (x, y)) <$> rest) ++ pairs_in_order rest
  end.

Section Aspects.
Context `{HoraryMath}.

Definition max_orb_for (ao : AspectOrbs) (planet1 planet2 : Planet)
    (aspect_type : Aspect) : Q :=
  let max_orb := aspect_orb ao aspect_type in
  let max_orb :=
    if member SUN [planet1; planet2] then max_orb + sun_orb_bonus ao else max_orb in
  if member MOON [planet1; planet2] then max_orb + moon_orb_bonus ao else max_orb.

(** The inner loop over the aspect types, left at the first one in orb. *)
Definition aspect_between (config : Config) (ao : AspectOrbs)
    (planets : Planet → PlanetPosition) (jd_ut : Q) (planet1 planet2 : Planet)
    : option AspectInfo :=
  let pos1 := planets planet1 in
  let pos2 := planets planet2 in
  let angle_diff := angular_separation (pp_longitude pos1) (pp_longitude pos2) in
  (λ aspect_type,
     {| ai_planet1 := planet1; ai_planet2 := planet2; ai_aspect := aspect_type;
        ai_orb := Qabs (angle_diff - aspect_degrees aspect_type);
        ai_applying := _is_applying_enhanced config pos1 pos2 aspect_type jd_ut;
        ai_degrees_to_exact :=
          _calculate_enhanced_degrees_to_exact pos1 pos2 aspect_type |})
  <$> List.find (λ aspect_type,
        Qabs (angle_diff - aspect_degrees aspect_type)
        <=? max_orb_for ao planet1 planet2 aspect_type)
        all_aspects.

Definition _calculate_enhanced_aspects (config : Config) (ao : AspectOrbs)
    (planets : Planet → PlanetPosition) (jd_ut : Q) : list AspectInfo :=
  flat_map (λ '(planet1, planet2),
    match aspect_between config ao planets jd_ut planet1 planet2 with
    | Some aspect => [aspect]
    | None => []
    end)
    (pairs_in_order planet_order).

End Aspects.

(** ** The Moon's last and next aspect ([calculator.py]) *)

(** The orb from an aspect now and after a tenth of a day of lunar motion,
    as both [_is_moon_separating_from_aspect] and
    [_is_moon_applying_to_aspect] compute them. *)
Definition moon_orbs (moon_pos planet_pos : PlanetPosition) (aspect : Aspect)
    (moon_speed : Q) : Q * Q :=
  let time_increment := 1 # 10 in
  let current_separation :=
    angular_separation (pp_longitude moon_pos) (pp_longitude planet_pos) in
  let future_moon_lon := fmod (pp_longitude moon_pos + moon_speed * time_increment) 360 in
  let future_separation := angular_separation future_moon_lon (pp_longitude planet_pos) in
  (Qabs (current_separation - aspect_degrees aspect),
   Qabs (future_separation - aspect_degrees aspect)).

Definition _is_moon_separating_from_aspect (moon_pos planet_pos : PlanetPosition)
    (aspect : Aspect) (moon_speed : Q) : bool :=
  let '(current_orb, future_orb) := moon_orbs moon_pos planet_pos aspect moon_speed in
  future_orb >? current_orb.

Definition _is_moon_applying_to_aspect (moon_pos planet_pos : PlanetPosition)
    (aspect : Aspect) (moon_speed : Q) : bool :=
  let '(current_orb, future_orb) := moon_orbs moon_pos planet_pos aspect moon_speed in
  future_orb <? current_orb.

(** [_format_timing_description] on a possibly infinite number of days:
    every comparison with infinity fails. *)
Definition _format_timing_description (d : days) : text :=
  match d with
  | Finite days => _format_timing_description_enhanced days
  | Inf => [Lit "More than a year"]
  end.

(** [a < b] on possibly infinite numbers of days. *)
Definition days_lt (a b : days) : bool :=
  match a, b with
  | Finite x, Finite y => x <? y
  | Finite _, Inf => true
  | Inf, _ => false
  end.

Fixpoint min_by_days {A} (key : A → days) (best : A) (l : list A) : A :=
  match l with
  | [] => best
  | x :: rest =>
      if days_lt (key x) (key best) then min_by_days key x rest
      else min_by_days key best rest
  end.

(** [min(l, key=...)] of a list that may be empty: [None] for [if l:]
    failing. *)
Definition min_of {A} (pick : A → list A → A) (l : list A) : option A :=
  match l with
  | [] => None
  | first :: rest => Some (pick first rest)
  end.

Section MoonAspects.
Context `{Ephemeris}.

(** The aspects the Moon is within orb of and applying to, in the order the
    loops meet them. *)
Definition applying_moon_aspects (ao : AspectOrbs)
    (planets : Planet → PlanetPosition) (moon_speed : Q) : list LunarAspect :=
  let moon_pos := planets MOON in
  flat_map (λ planet,
    if bool_decide (planet = MOON) then []
    else
      let planet_pos := planets planet in
      let separation :=
        angular_separation (pp_longitude moon_pos) (pp_longitude planet_pos) in
      flat_map (λ aspect_type,
        let orb_diff := Qabs (separation - aspect_degrees aspect_type) in
        let max_orb := aspect_orb ao aspect_type in
        if (orb_diff <=? max_orb)
           && _is_moon_applying_to_aspect moon_pos planet_pos aspect_type moon_speed
        then
          let degrees_to_exact := orb_diff in
          let relative_speed := Qabs (moon_speed - Qabs (pp_speed planet_pos)) in
          let time_to_exact :=
            if relative_speed >? 0 then Finite (degrees_to_exact / relative_speed)
            else Inf in
          [{| la_planet := planet; la_aspect := aspect_type; la_orb := orb_diff;
              la_degrees_difference := degrees_to_exact;
              la_perfection_eta_days := time_to_exact;
              la_perfection_eta_description := _format_timing_description time_to_exact;
              la_applying := true |}]
        else [])
        all_aspects)
    planet_order.

Definition _calculate_moon_next_aspect (ao : AspectOrbs)
    (planets : Planet → PlanetPosition) (jd_ut : Q) : option LunarAspect :=
  let moon_speed := get_real_moon_speed jd_ut in
  min_of (min_by_days la_perfection_eta_days)
    (applying_moon_aspects ao planets moon_speed).

(** The planet and aspect pairs the Moon is within one and a half orbs of
    and separating from, in the order the loops meet them. *)
Definition separating_moon_candidates (ao : AspectOrbs)
    (planets : Planet → PlanetPosition) (moon_speed : Q)
    : list (Planet * Aspect * Q) :=
  let moon_pos := planets MOON in
  flat_map (λ planet,
    if bool_decide (planet = MOON) then []
    else
      let planet_pos := planets planet in
      let separation :=
        angular_separation (pp_longitude moon_pos) (pp_longitude planet_pos) in
      flat_map (λ aspect_type,
        let orb_diff := Qabs (separation - aspect_degrees aspect_type) in
        let max_orb := aspect_orb ao aspect_type in
        if (orb_diff <=? max_orb * (3 # 2))
           && _is_moon_separating_from_aspect moon_pos planet_pos aspect_type moon_speed
        then [(planet, aspect_type, orb_diff)]
        else [])
        all_aspects)
    planet_order.

(** Each candidate divides its orb by the Moon's speed; a speed of zero
    raises at the first one. *)
Definition _calculate_moon_last_aspect (ao : AspectOrbs)
    (planets : Planet → PlanetPosition) (jd_ut : Q)
    : outcome (option LunarAspect) :=
  let moon_speed := get_real_moon_speed jd_ut in
  match separating_moon_candidates ao planets moon_speed with
  | [] => Return None
  | first :: rest =>
      if moon_speed =? 0
      then Raise (Exception "ZeroDivisionError" "float division by zero")
      else
        let record '(planet, aspect_type, orb_diff) :=
          let degrees_since_exact := orb_diff in
          let time_since_exact := degrees_since_exact / moon_speed in
          {| la_planet := planet; la_aspect := aspect_type; la_orb := orb_diff;
             la_degrees_difference := degrees_since_exact;
             la_perfection_eta_days := Finite time_since_exact;
             la_perfection_eta_description :=
               [Float1 time_since_exact; Lit " days ago"];
             la_applying := false |} in
        Return (Some (min_by_days la_perfection_eta_days
                        (record first) (record <$> rest)))
  end.

End MoonAspects.

(** Orbs of eight degrees, six for the sextile, and two more for each
    luminary. *)
Definition sample_orbs : AspectOrbs := {|
  aspect_orb := λ a, match a with SEXTILE => 6 | _ => 8 end;
  sun_orb_bonus := 2;
  moon_orb_bonus := 2
|}.

(** The sample chart with Mercury moved to 112 degrees, two degrees past the
    sextile the Moon at 50 degrees is closing. *)
Definition moon_applying_planets : Planet → PlanetPosition :=
  λ p, match p with
       | MERCURY => position MERCURY 112 1 CANCER 4
       | _ => planets (opposition_in_reception 15 []) p
       end.

(** The aspect joins the two planets, in either order, and is applying. *)
Definition applying_between (planet1 planet2 : Planet) (aspect : AspectInfo) : bool :=
  ((bool_decide (ai_planet1 aspect = planet1)
    && bool_decide (ai_planet2 aspect = planet2))
   || (bool_decide (ai_planet1 aspect = planet2)
       && bool_decide (ai_planet2 aspect = planet1)))
  && ai_applying aspect.

(** The chart with another list of aspects. *)
Definition with_aspects (chart : HoraryChart) (l : list AspectInfo) : HoraryChart := {|
  location := location chart;
  planets := planets chart;
  aspects := l;
  houses := houses chart;
  house_rulers := house_rulers chart;
  ascendant := ascendant chart;
  midheaven := midheaven chart;
  solar_analyses := solar_analyses chart;
  julian_day := julian_day chart;
  moon_last_aspect := moon_last_aspect chart;
  moon_next_aspect := moon_next_aspect chart
|}.

Definition without_aspects (chart : HoraryChart) : HoraryChart :=
  with_aspects chart [].

(** The opposition of Venus and Mars five degrees from exact, with Saturn
    applying to a sextile of Venus two degrees from exact. *)
Definition saturn_before_perfection : HoraryChart :=
  with_aspects (opposition_in_reception 15 [])
    [{| ai_planet1 := VENUS; ai_planet2 := MARS; ai_aspect := OPPOSITION;
        ai_orb := 5; ai_applying := true; ai_degrees_to_exact := 5 |};
     {| ai_planet1 := VENUS; ai_planet2 := SATURN; ai_aspect := SEXTILE;
        ai_orb := 2; ai_applying := true; ai_degrees_to_exact := 2 |}].

(** ** Considerations before judgment ([judgment_engine.py]) *)

Record Considerations := {
  radical : bool;
  radical_reason : text;
  moon_void : bool;
  moon_void_reason : text
}.

(** Radicality is checked here with the default [ignore_saturn_7th=False],
    whatever override the judgment itself was given. *)
Definition _calculate_considerations (config : Config) (chart : HoraryChart)
    (question_analysis : QuestionAnalysis) : Considerations :=
  let radicality := _check_enhanced_radicality config chart false in
  let moon_void := _is_moon_void_of_course_enhanced config chart in
  {| radical := rad_valid radicality;
     radical_reason := rad_reason radicality;
     moon_void := void moon_void;
     moon_void_reason := reason moon_void |}.

(** ** General information ([judgment_engine.py]) *)

Definition _get_moon_phase_name (chart : HoraryChart) : string :=
  let elongation := moon_sun_elongation chart in
  if (0 <=? elongation) && (elongation <? 30) then "New Moon"
  else if (30 <=? elongation) && (elongation <? 60) then "Waxing Crescent"
  else if (60 <=? elongation) && (elongation <? 120) then "First Quarter"
  else if (120 <=? elongation) && (elongation <? 150) then "Waxing Gibbous"
  else if (150 <=? elongation) && (elongation <? 210) then "Full Moon"
  else if (210 <=? elongation) && (elongation <? 240) then "Waning Gibbous"
  else if (240 <=? elongation) && (elongation <? 300) then "Last Quarter"
  else "Waning Crescent".

Definition _moon_speed_category (speed : Q) : string :=
  let speed := Qabs speed in
  if speed <? 11 then "Very Slow"
  else if speed <? 12 then "Slow"
  else if speed <? 14 then "Average"
  else if speed <? 15 then "Fast"
  else "Very Fast".

Definition PLANET_SEQUENCE : list Planet :=
  [SATURN; JUPITER; MARS; SUN; VENUS; MERCURY; MOON].

(** Keyed by [datetime.weekday()]: Monday is 0. *)
Definition PLANETARY_DAY_RULERS : gmap Z Planet :=
  {[0 := MOON; 1 := MARS; 2 := MERCURY; 3 := JUPITER; 4 := VENUS;
    5 := SATURN; 6 := SUN]}%Z.


(** [l.index(x)]: the position of the first occurrence; [None] is the
    [ValueError] of a value that is not in the list. *)
Fixpoint list_index {A} `{EqDecision A} (x : A) (l : list A) : option nat :=
  match l with
  | [] => None
  | y :: rest => if bool_decide (y = x) then Some 0%nat else S <$> list_index x rest
  end.

(** [l[i]] with Python's negative indices; [None] is the [IndexError]. *)
Definition getitem {A} (l : list A) (i : Z) : option A :=
  let n := Z.of_nat (length l) in
  if (i <? 0)%Z then
    if (0 <=? n + i)%Z then l !! Z.to_nat (n + i) else None
  else l !! Z.to_nat i.

(** The rulers of the day and of the hour, from the weekday and the hour of
    [chart.date_time]. *)
Definition planetary_rulers (weekday hour_index : Z) : outcome (Planet * Planet) :=
  let day_ruler := default SUN (PLANETARY_DAY_RULERS !! weekday) in
  match list_index day_ruler PLANET_SEQUENCE with
  | None => Raise (Exception "ValueError" "list.index(x): x not in list")
  | Some start_idx =>
      match getitem PLANET_SEQUENCE ((Z.of_nat start_idx + hour_index) mod 7) with
      | None => Raise (Exception "IndexError" "list index out of range")
      | Some hour_ruler => Return (day_ruler, hour_ruler)
      end
  end.



(** ** Question analysis ([question_analysis.py]) *)

Module TraditionalHoraryQuestionAnalyzer.

(** [needle in haystack] on strings. *)
Fixpoint contains (needle haystack : string) : bool :=
  String.prefix needle haystack
  || match haystack with
     | String.EmptyString => false
     | String.String _ rest => contains needle rest
     end.

(** [any(k in text for k in keywords)]. *)
Definition any_in (keywords : list string) (text : string) : bool :=
  existsb (λ k, contains k text) keywords.

(** The dictionaries of [__init__], in insertion order. *)
Definition house_meanings : list (Z * list string) :=
  [(1, ["querent"; "self"; "body"; "life"; "personality"; "appearance"]);
   (2, ["money"; "possessions"; "moveable goods"; "income"; "resources"; "values"]);
   (3, ["siblings"; "neighbors"; "short journeys"; "communication"; "letters"; "rumors"]);
   (4, ["father"; "home"; "land"; "property"; "endings"; "foundations"; "graves"]);
   (5, ["children"; "pregnancy"; "pleasure"; "gambling"; "creativity"; "entertainment"]);
   (6, ["illness"; "servants"; "small animals"; "work"; "daily routine"; "uncle/aunt"]);
   (7, ["spouse"; "partner"; "open enemies"; "thieves"; "others"; "contracts"]);
   (8, ["death"; "partner's money"; "wills"; "transformation"; "fear"; "surgery"]);
   (9, ["long journeys"; "foreign lands"; "religion"; "law"; "higher learning"; "dreams"]);
   (10, ["mother"; "career"; "honor"; "reputation"; "authority"; "government"]);
   (11, ["friends"; "hopes"; "wishes"; "advisors"; "king's money"; "groups"]);
   (12, ["hidden enemies"; "large animals"; "prisons"; "secrets"; "self-undoing";
         "witchcraft"])]%Z.

Definition question_patterns : list (string * list string) :=
  [("lost_object", ["where is"; "lost"; "missing"; "find"; "stolen"]);
   ("marriage", ["marry"; "wedding"; "spouse"; "husband"; "wife"]);
   ("pregnancy", ["pregnant"; "child"; "baby"; "conceive"]);
   ("travel", ["journey"; "travel"; "trip"; "go to"; "visit"]);
   ("money", ["money"; "wealth"; "rich"; "profit"; "gain"; "debt"]);
   ("career", ["job"; "career"; "work"; "employment"; "business"]);
   ("health", ["sick"; "illness"; "disease"; "health"; "recover"; "die"]);
   ("lawsuit", ["court"; "lawsuit"; "legal"; "judge"; "trial"]);
   ("relationship", ["love"; "relationship"; "friend"; "enemy"])].

Definition person_keywords : list (Z * list string) :=
  [(4, ["father"; "dad"; "grandfather"; "stepfather"]);
   (10, ["mother"; "mom"; "mum"; "stepmother"]);
   (7, ["spouse"; "husband"; "wife"; "partner"]);
   (3, ["brother"; "sister"; "sibling"]);
   (5, ["child"; "son"; "daughter"; "baby"]);
   (11, ["friend"; "ally"; "benefactor"])]%Z.

(** One of the twelve houses. *)
Definition is_house (h : Z) : Prop := (1 <= h <= 12)%Z.

Definition _turn (base offset : Z) : Z := ((base + offset - 1) mod 12 + 1)%Z.

(** The first key of a dictionary one of whose keywords is in the text. *)
Definition first_key {K} (table : list (K * list string)) (text : string) : option K :=
  fst <$> List.find (λ '(_, keywords), any_in keywords text) table.

Definition _determine_question_type (question : string) : string :=
  default "general" (first_key question_patterns question).

(** [[h for h in houses if not (h in seen or seen.add(h))]]. *)
Fixpoint keep_first (seen : gset Z) (houses : list Z) : list Z :=
  match houses with
  | [] => []
  | h :: rest =>
      if bool_decide (h ∈ seen) then keep_first seen rest
      else h :: keep_first ({[h]} ∪ seen) rest
  end.

Record SignificatorHouses := {
  sg_querent_house : Z;
  sg_quesited_house : Z;
  sg_moon_role : string;
  sg_special_significators : list (string * string)
}.

Definition _determine_significators (houses : list Z) (q_type : string)
    : SignificatorHouses :=
  {| sg_querent_house := 1;
     sg_quesited_house :=
       if (1 <? length houses)%nat then default 7%Z (houses !! 1%nat) else 7%Z;
     sg_moon_role := "co-significator of querent and general flow";
     sg_special_significators :=
       if bool_decide (q_type = "marriage") then
         [("venus", "natural significator of love");
          ("mars", "natural significator of men")]
       else if bool_decide (q_type = "money") then
         [("jupiter", "greater fortune"); ("venus", "lesser fortune")]
       else if bool_decide (q_type = "career") then
         [("sun", "honor and reputation"); ("jupiter", "success")]
       else if bool_decide (q_type = "health") then
         [("mars", "fever and inflammation"); ("saturn", "chronic illness")]
       else [] |}.

Section Analyzer.
(** [str.lower], of which nothing is assumed. *)
Variable lower : string → string.

Definition _determine_houses (question q_type : string) : list Z :=
  let question_lower := lower question in
  let houses := [1%Z] in
  let subject_house := first_key person_keywords question_lower in
  let death_words := ["die"; "death"; "pass away"; "funeral"] in
  let illness_words := ["sick"; "illness"; "disease"; "recover"] in
  let houses :=
    match subject_house with
    | Some subject_house =>
        if any_in death_words question_lower then
          houses ++ [_turn subject_house 8] ++ [subject_house]
        else if any_in illness_words question_lower then
          houses ++ [_turn subject_house 6] ++ [subject_house]
        else houses ++ [subject_house]
    | None =>
        let houses :=
          if bool_decide (q_type = "lost_object") then houses ++ [2%Z]
          else if bool_decide (q_type = "marriage") || contains "spouse" question_lower
          then houses ++ [7%Z]
          else if bool_decide (q_type = "pregnancy") || contains "child" question_lower
          then houses ++ [5%Z]
          else if bool_decide (q_type = "travel") then
            if any_in ["far"; "foreign"; "abroad"] question_lower
            then houses ++ [9%Z] else houses ++ [3%Z]
          else if bool_decide (q_type = "money") then houses ++ [2%Z]
          else if bool_decide (q_type = "career") then houses ++ [10%Z]
          else if bool_decide (q_type = "health") then houses ++ [6%Z]
          else if bool_decide (q_type = "lawsuit") then houses ++ [7%Z]
          else houses ++ [7%Z] in
        fold_left (λ houses '(house, keywords),
          if negb (bool_decide (house ∈ houses)) && any_in keywords question_lower
          then houses ++ [house] else houses)
          house_meanings houses
    end in
  keep_first ∅ houses.

Definition analyze_question (question : string) : QuestionAnalysis :=
  let question_lower := lower question in
  let q_type := _determine_question_type question_lower in
  let houses := _determine_houses question q_type in
  let significators := _determine_significators houses q_type in
  {| question_type := q_type;
     relevant_houses := houses;
     quesited_house := sg_quesited_house significators |}.

End Analyzer.

End TraditionalHoraryQuestionAnalyzer.

(** The sample chart with the aspects the calculator computes for its
    planets. *)
Definition chart_with_computed_aspects : HoraryChart :=
  with_aspects (opposition_in_reception 15 [])
    (_calculate_enhanced_aspects (H := spec_math 0) sample_config sample_orbs
       (planets (opposition_in_reception 15 [])) 0).

(** ** The top-level engine ([HoraryEngine]) *)

(** The settings dictionary: each field is the value under its key, [None]
    when the key is missing. *)
Record Settings := {
  st_location : option string;
  st_date : option string;
  st_time : option string;
  st_timezone : option string;
  st_use_current_time : option bool;
  st_manual_houses : option (list Z);
  st_ignore_radicality : option bool;
  st_ignore_void_moon : option bool;
  st_ignore_combustion : option bool;
  st_ignore_saturn_7th : option bool;
  st_exaltation_confidence_boost : option Q
}.

Section HoraryEngine.
Context `{HoraryMath} `{Ephemeris} `{TimeZones} `{Services}.

(** The configured default is read outside of any [try]. *)
Definition judge (question : string) (settings : Settings)
    : outcome (JudgeResult Payload) :=
  let location := default "London, England" (st_location settings) in
  let date_str := st_date settings in
  let time_str := st_time settings in
  let timezone_str := st_timezone settings in
  let use_current_time := default true (st_use_current_time settings) in
  let manual_houses := st_manual_houses settings in
  let ignore_radicality := default false (st_ignore_radicality settings) in
  let ignore_void_moon := default false (st_ignore_void_moon settings) in
  let ignore_combustion := default false (st_ignore_combustion settings) in
  let ignore_saturn_7th := default false (st_ignore_saturn_7th settings) in
  exaltation_confidence_boost ←
    match st_exaltation_confidence_boost settings with
    | Some boost => Return boost
    | None =>
        config ← cfg;
        Return (reception_mutual_exaltation_bonus (cfg_confidence config))
    end;
  judge_question question location date_str time_str timezone_str
    use_current_time manual_houses ignore_radicality ignore_void_moon
    ignore_combustion ignore_saturn_7th (Some exaltation_confidence_boost).

End HoraryEngine.

(** ** The Moon story ([judgment_engine.py]) *)

Record MoonStoryEntry := {
  ms_planet : string;
  ms_aspect : string;
  ms_orb : Q;
  ms_applying : bool;
  ms_status : string;
  ms_timing : text;
  ms_days_to_perfect : Q
}.

(** [list.sort(key=...)] is stable: an element goes before the first
    element of the sorted rest whose key is not smaller. *)
Fixpoint insert_by_key {A} (key : A → Q) (x : A) (l : list A) : list A :=
  match l with
  | [] => [x]
  | y :: rest =>
      if key x <=? key y then x :: y :: rest else y :: insert_by_key key x rest
  end.

Fixpoint sort_by_key {A} (key : A → Q) (l : list A) : list A :=
  match l with
  | [] => []
  | x :: rest => insert_by_key key x (sort_by_key key rest)
  end.

(** The dictionary appended for one aspect of the Moon. *)
Definition moon_story_entry (moon_speed : Q) (aspect : AspectInfo) : MoonStoryEntry :=
  let other_planet :=
    if bool_decide (ai_planet1 aspect = MOON)
    then ai_planet2 aspect else ai_planet1 aspect in
  let '(timing_estimate, timing_days) :=
    if ai_applying aspect then
      let timing_days :=
        if moon_speed >? 0 then ai_degrees_to_exact aspect / moon_speed else 0 in
      (_format_timing_description_enhanced timing_days, timing_days)
    else ([Lit "Past"], 0) in
  {| ms_planet := planet_value other_planet;
     ms_aspect := aspect_display_name (ai_aspect aspect);
     ms_orb := ai_orb aspect;
     ms_applying := ai_applying aspect;
     ms_status := if ai_applying aspect then "applying" else "separating";
     ms_timing := timing_estimate;
     ms_days_to_perfect := if ai_applying aspect then timing_days else 0 |}.

(** The key of the final sort: days for applying aspects, orb for the
    others. *)
Definition moon_story_key (x : MoonStoryEntry) : Q :=
  if ms_applying x then ms_days_to_perfect x else ms_orb x.

Definition current_moon_aspects (moon_speed : Q) (chart : HoraryChart)
    : list MoonStoryEntry :=
  flat_map (λ aspect,
    if member MOON [ai_planet1 aspect; ai_planet2 aspect]
    then [moon_story_entry moon_speed aspect] else [])
    (aspects chart).

Definition _build_moon_story `{Ephemeris} (chart : HoraryChart)
    : list MoonStoryEntry :=
  let moon_speed := get_real_moon_speed (julian_day chart) in
  sort_by_key moon_story_key (current_moon_aspects moon_speed chart).

(* ===================================================================== *)
(** * Part II: theorems *)
(* ===================================================================== *)

(** ** Boolean comparisons on rationals *)

Lemma Qlt_bool_iff (x y : Q) : (x <? y) = true ↔ x < y.
Proof.
  unfold Qlt_bool. rewrite negb_true_iff.
  split.
  - intros H. apply Qnot_le_lt. intros Hle.
    apply Qle_bool_iff in Hle. congruence.
  - intros H. destruct (Qle_bool y x) eqn:E; [|reflexivity].
    apply Qle_bool_iff in E. lra.
Qed.

Lemma Qlt_bool_false_iff (x y : Q) : (x <? y) = false ↔ y <= x.
Proof.
  unfold Qlt_bool. rewrite negb_false_iff. apply Qle_bool_iff.
Qed.

Lemma Qle_bool_false_iff (x y : Q) : (x <=? y) = false ↔ y < x.
Proof.
  rewrite <- Qlt_bool_iff. unfold Qlt_bool.
  destruct (Qle_bool x y); simpl; split; congruence.
Qed.

(** Index arithmetic modulo 12 is left to [lia]. *)
Ltac Zify.zify_post_hook ::= Z.div_mod_to_equations.

(** Turns every boolean comparison in the context and goal into an order
    fact that [lra] understands. *)
Ltac qbool :=
  repeat match goal with
  | H : (_ && _) = true |- _ => apply andb_true_iff in H; destruct H
  | H : (_ || _) = false |- _ => apply orb_false_iff in H; destruct H
  | H : negb _ = true |- _ => apply negb_true_iff in H
  | H : negb _ = false |- _ => apply negb_false_iff in H
  | H : Qlt_bool _ _ = true |- _ => apply Qlt_bool_iff in H
  | H : Qlt_bool _ _ = false |- _ => apply Qlt_bool_false_iff in H
  | H : Qle_bool _ _ = true |- _ => apply Qle_bool_iff in H
  | H : Qle_bool _ _ = false |- _ => apply Qle_bool_false_iff in H
  | H : Qeq_bool _ _ = true |- _ => apply Qeq_bool_iff in H
  | H : Qeq_bool _ _ = false |- _ => apply Qeq_bool_neq in H
  end.

Ltac qcase c := let E := fresh "E" in destruct c eqn:E; qbool.

(** Case split on the failed conjunctions and disjunctions of guards. *)
Ltac qsplit :=
  repeat match goal with
  | H : (_ && _) = false |- _ => apply andb_false_iff in H; destruct H
  | H : (_ || _) = true |- _ => apply orb_true_iff in H; destruct H
  end; qbool.

(** ** Moon phase bonus *)

Section MoonPhase.
Variable config : Config.
Variable chart : HoraryChart.

Lemma moon_sun_elongation_range :
  longitude_in_circle (planets chart MOON) →
  longitude_in_circle (planets chart SUN) →
  0 <= moon_sun_elongation chart ∧ moon_sun_elongation chart <= 180.
Proof.
  intros [Hm0 Hm1] [Hs0 Hs1]. unfold moon_sun_elongation.
  set (d := pp_longitude (planets chart MOON) - pp_longitude (planets chart SUN)).
  assert (Hd : Qabs d < 360).
  { apply Qabs_case; intros; unfold d; lra. }
  assert (Hd0 : 0 <= Qabs d) by apply Qabs_nonneg.
  qcase (Qabs d >? 180); lra.
Qed.

(** C10. With both luminaries on the circle, the folded elongation lies in
    [0, 180]; the bonus returned is therefore one of the first five phase
    entries, and the guards of the three waning branches (elongation at
    least 210) are never satisfied. *)
Theorem moon_phase_bonus_waning_unreachable :
  longitude_in_circle (planets chart MOON) →
  longitude_in_circle (planets chart SUN) →
  let e := moon_sun_elongation chart in
  let pb := phase_bonus (cfg_moon config) in
  (0 <= e ∧ e <= 180)
  ∧ _moon_phase_bonus config chart ∈
      [new_moon pb; waxing_crescent pb; first_quarter pb;
       waxing_gibbous pb; full_moon pb]
  ∧ (210 <=? e) = false
  ∧ (_moon_phase_bonus config chart = full_moon pb ∨ e < 150).
Proof.
  intros Hm Hs e pb.
  destruct (moon_sun_elongation_range Hm Hs) as [H0 H180].
  fold e in H0, H180.
  split; [split; assumption|].
  assert (H210 : e < 210) by lra.
  unfold _moon_phase_bonus. fold e. fold pb.
  repeat match goal with
  | |- context [if ?c then _ else _] => qcase c
  end;
  first
    [ solve [ split; [set_solver|]; split; [apply Qle_bool_false_iff; lra|];
              first [left; reflexivity | right; lra] ]
    | exfalso; qsplit; lra ].
Qed.

End MoonPhase.

(** Moon at 359 and Sun at 100: the raw distance of 259 folds to 101, a
    first quarter. *)
Lemma moon_phase_bonus_waning_unreachable_witness :
  longitude_in_circle (planets (late_pisces_moon 13) MOON)
  ∧ longitude_in_circle (planets (late_pisces_moon 13) SUN)
  ∧ moon_sun_elongation (late_pisces_moon 13) <= 180
  ∧ _moon_phase_bonus sample_config (late_pisces_moon 13)
    = first_quarter (phase_bonus (cfg_moon sample_config)).
Proof.
  assert (Hm : longitude_in_circle (planets (late_pisces_moon 13) MOON))
    by (split; vm_compute; [discriminate | reflexivity]).
  assert (Hs : longitude_in_circle (planets (late_pisces_moon 13) SUN))
    by (split; vm_compute; [discriminate | reflexivity]).
  destruct (moon_phase_bonus_waning_unreachable sample_config
              (late_pisces_moon 13) Hm Hs) as ((_ & Hhi) & _).
  repeat split; try assumption; try apply Hm; try apply Hs.
Defined.

(** ** Void of course *)

Section VoidOfCourse.
Variable config : Config.
Variable chart : HoraryChart.

Let moon_pos := planets chart MOON.

Lemma void_by_sign_stationary :
  moon_stationary config chart →
  _void_by_sign_method config chart =
    {| void := false; exception := false;
       reason := [Lit "Moon stationary - cannot be void of course"];
       degrees_left_in_sign := Some (30 - fmod (pp_longitude moon_pos) 30) |}.
Proof.
  intros H. unfold moon_stationary in H. fold moon_pos in H.
  apply Qlt_bool_iff in H.
  unfold _void_by_sign_method. fold moon_pos. rewrite H. reflexivity.
Qed.

Lemma void_by_sign_moving :
  ¬ moon_stationary config chart →
  void (_void_by_sign_method config chart)
  = match future_aspects_in_sign chart with [] => true | _ => false end.
Proof.
  intros H. unfold moon_stationary in H. fold moon_pos in H.
  unfold _void_by_sign_method. fold moon_pos.
  destruct (Qabs (pp_speed moon_pos) <? _) eqn:E.
  - apply Qlt_bool_iff in E. contradiction.
  - reflexivity.
Qed.

(** C5. The lilly method keeps the void flag and the degrees left of the
    by_sign computation, replaces the exception flag by membership of the
    Moon's sign in Cancer, Taurus, Sagittarius, Pisces (appending a note
    to the reason when it holds), and does not flip voidness: an excepted
    Moon without a further aspect in its sign is still reported void. *)
Theorem void_lilly_is_by_sign_with_exception_flag :
  let r := _void_lilly_method config chart in
  let s := _void_by_sign_method config chart in
  void r = void s
  ∧ degrees_left_in_sign r = degrees_left_in_sign s
  ∧ (exception r = true ↔ pp_sign moon_pos ∈ [CANCER; TAURUS; SAGITTARIUS; PISCES])
  ∧ reason r = reason s ++
      (if exception r
       then [Lit " (Lilly exception: "; Lit (sign_name (pp_sign moon_pos)); Lit ")"]
       else [])
  ∧ (¬ moon_stationary config chart → future_aspects_in_sign chart = [] →
       void r = true).
Proof.
  intros r s. subst r s. unfold _void_lilly_method. fold moon_pos.
  set (s := _void_by_sign_method config chart).
  assert (Hmem : member (pp_sign moon_pos) lilly_exceptions = true
                 ↔ pp_sign moon_pos ∈ [CANCER; TAURUS; SAGITTARIUS; PISCES]).
  { destruct (pp_sign moon_pos); cbn; split; intros H;
      first [ reflexivity | discriminate
            | solve [repeat first [apply list_elem_of_here | apply list_elem_of_further]]
            | repeat (apply elem_of_cons in H as [H|H]; try discriminate);
              by apply elem_of_nil in H ]. }
  assert (Hvoid : ¬ moon_stationary config chart → future_aspects_in_sign chart = [] →
                  void s = true).
  { intros Hns Hfa. unfold s. rewrite void_by_sign_moving by assumption.
    rewrite Hfa. reflexivity. }
  destruct (member (pp_sign moon_pos) lilly_exceptions) eqn:E; cbn.
  - split; [reflexivity|]. split; [reflexivity|]. split; [tauto|].
    split; [reflexivity|]. exact Hvoid.
  - split; [reflexivity|]. split; [reflexivity|].
    split; [split; [discriminate | intros H; apply Hmem in H; discriminate]|].
    split; [by rewrite app_nil_r|]. exact Hvoid.
Qed.

(** C9. A Moon slower than the stationary threshold is never reported
    void by the by_sign method, whatever aspects lie ahead in its sign, and
    the reason is the stationary one; the lilly method, which delegates,
    answers the same with at most its exception note appended. *)
Theorem stationary_moon_never_void :
  moon_stationary config chart →
  let s := _void_by_sign_method config chart in
  let r := _void_lilly_method config chart in
  void s = false
  ∧ exception s = false
  ∧ reason s = [Lit "Moon stationary - cannot be void of course"]
  ∧ void r = false
  ∧ (∃ note, reason r = Lit "Moon stationary - cannot be void of course" :: note)
  ∧ (void_rule (cfg_moon config) ≠ by_orb →
     void (_is_moon_void_of_course_enhanced config chart) = false).
Proof.
  intros H s r.
  pose proof (void_by_sign_stationary H) as Hs. fold s in Hs.
  assert (Hr : void r = false
               ∧ ∃ note, reason r = Lit "Moon stationary - cannot be void of course" :: note).
  { subst r. unfold _void_lilly_method. fold s. rewrite Hs.
    destruct (member _ lilly_exceptions); cbn; split; eauto. }
  destruct Hr as [Hr1 Hr2].
  rewrite Hs; cbn. repeat split; try assumption.
  intros Hrule. unfold _is_moon_void_of_course_enhanced.
  destruct (void_rule (cfg_moon config)); try congruence; fold s; try (rewrite Hs; reflexivity).
  exact Hr1.
Qed.

End VoidOfCourse.

(** The stationary rule run on a chart: a Moon at rest at 29 Pisces. *)
Lemma stationary_moon_never_void_witness :
  moon_stationary sample_config (late_pisces_moon 0)
  ∧ void (_void_by_sign_method sample_config (late_pisces_moon 0)) = false
  ∧ void (_void_lilly_method sample_config (late_pisces_moon 0)) = false.
Proof.
  assert (H : moon_stationary sample_config (late_pisces_moon 0))
    by (vm_compute; reflexivity).
  split; [exact H|].
  destruct (stationary_moon_never_void sample_config (late_pisces_moon 0) H)
    as (Hs & _ & _ & Hr & _).
  split; assumption.
Defined.

(** The same chart with the Moon moving: void under both methods, and the
    lilly exception for Pisces leaves the void flag set. *)
Example lilly_excepted_moon_still_void :
  let r := _void_lilly_method sample_config (late_pisces_moon 13) in
  void r = true ∧ exception r = true
  ∧ void (_void_by_sign_method sample_config (late_pisces_moon 13)) = true
  ∧ exception (_void_by_sign_method sample_config (late_pisces_moon 13)) = false.
Proof. vm_compute. repeat split. Qed.

(** ** Solar conditions *)

Section SolarConditionFacts.
Context `{HoraryMath}.
Variable check_exception :
  Planet → PlanetPosition → PlanetPosition → Q → Q → Q → bool.
Variable config : Config.
Variables (planet : Planet) (planet_pos sun_pos : PlanetPosition).
Variables lat lon jd_ut : Q.

(** C3. For a planet other than the Sun the analysis is a first-match
    cascade on the elongation [e]: at most the cazimi orb gives CAZIMI,
    exact within three arcminutes and never excepted; otherwise at most
    the combustion orb gives COMBUSTION, otherwise at most the under-beams
    orb gives UNDER_BEAMS, and both become FREE with the exception flag
    set when the visibility exception holds; beyond all orbs the planet is
    FREE.  At 12 degrees with orbs 8.5 and 15 (and a cazimi orb below 12
    degrees) this is UNDER_BEAMS, or FREE with the flag when excepted. *)
Theorem solar_condition_hierarchy :
  planet ≠ SUN →
  let e := calculate_elongation (pp_longitude planet_pos) (pp_longitude sun_pos) in
  let cazimi := cazimi_orb_arcmin (cfg_orbs config) / 60 in
  let combustion := combustion_orb (cfg_orbs config) in
  let beams := under_beams_orb (cfg_orbs config) in
  let excepted :=
    combustion_resistant planet
    && check_exception planet planet_pos sun_pos lat lon jd_ut in
  let r := analyze_solar_condition_with check_exception config planet
             planet_pos sun_pos lat lon jd_ut in
  sa_distance_from_sun r = e
  ∧ (e <= cazimi →
     sa_condition r = CAZIMI
     ∧ sa_exact_cazimi r = (e <=? 3 / 60)
     ∧ sa_traditional_exception r = false)
  ∧ (cazimi < e → e <= combustion →
     sa_condition r = (if excepted then FREE else COMBUSTION)
     ∧ sa_traditional_exception r = excepted)
  ∧ (cazimi < e → combustion < e → e <= beams →
     sa_condition r = (if excepted then FREE else UNDER_BEAMS)
     ∧ sa_traditional_exception r = excepted)
  ∧ (cazimi < e → combustion < e → beams < e →
     sa_condition r = FREE ∧ sa_traditional_exception r = false)
  ∧ (e == 12 → combustion == 17 # 2 → beams == 15 → cazimi < 12 →
     sa_condition r = (if excepted then FREE else UNDER_BEAMS)
     ∧ sa_traditional_exception r = excepted).
Proof.
  intros Hsun e cazimi combustion beams excepted r.
  assert (Hr : r =
    if e <=? cazimi then
      {| sa_planet := planet; sa_distance_from_sun := e; sa_condition := CAZIMI;
         sa_exact_cazimi := e <=? 3 / 60; sa_traditional_exception := false |}
    else if e <=? combustion then
      {| sa_planet := planet; sa_distance_from_sun := e;
         sa_condition := if excepted then FREE else COMBUSTION;
         sa_exact_cazimi := false; sa_traditional_exception := excepted |}
    else if e <=? beams then
      {| sa_planet := planet; sa_distance_from_sun := e;
         sa_condition := if excepted then FREE else UNDER_BEAMS;
         sa_exact_cazimi := false; sa_traditional_exception := excepted |}
    else
      {| sa_planet := planet; sa_distance_from_sun := e; sa_condition := FREE;
         sa_exact_cazimi := false; sa_traditional_exception := false |}).
  { subst r. unfold analyze_solar_condition_with.
    rewrite bool_decide_eq_false_2 by assumption.
    fold e cazimi combustion beams.
    replace (if combustion_resistant planet
             then check_exception planet planet_pos sun_pos lat lon jd_ut
             else false) with excepted
      by (unfold excepted; destruct (combustion_resistant planet); reflexivity).
    destruct (e <=? cazimi); [reflexivity|].
    destruct (e <=? combustion); [destruct excepted; reflexivity|].
    destruct (e <=? beams); [destruct excepted; reflexivity|]. reflexivity. }
  assert (Hcascade :
    sa_distance_from_sun r = e
    ∧ (e <= cazimi →
       sa_condition r = CAZIMI
       ∧ sa_exact_cazimi r = (e <=? 3 / 60)
       ∧ sa_traditional_exception r = false)
    ∧ (cazimi < e → e <= combustion →
       sa_condition r = (if excepted then FREE else COMBUSTION)
       ∧ sa_traditional_exception r = excepted)
    ∧ (cazimi < e → combustion < e → e <= beams →
       sa_condition r = (if excepted then FREE else UNDER_BEAMS)
       ∧ sa_traditional_exception r = excepted)
    ∧ (cazimi < e → combustion < e → beams < e →
       sa_condition r = FREE ∧ sa_traditional_exception r = false)).
  { rewrite Hr.
    qcase (e <=? cazimi); [|qcase (e <=? combustion); [|qcase (e <=? beams)]];
      cbn; repeat split; intros; first [reflexivity | exfalso; lra]. }
  destruct Hcascade as (Hd & Hc & Hb & Hu & Hf).
  split; [exact Hd|]. split; [exact Hc|]. split; [exact Hb|].
  split; [exact Hu|]. split; [exact Hf|].
  intros He Hco Hbe Hca; apply Hu; lra.
Qed.

End SolarConditionFacts.

(** The 12 degree case of the test suite, on the helpers modelled from the
    spec: Mars at 112 with the Sun at 100. *)
Lemma solar_condition_hierarchy_witness :
  MARS ≠ SUN
  ∧ sa_condition
      (analyze_solar_condition_with (H := spec_math 0)
         (_check_enhanced_combustion_exception (H := spec_math 0)) sample_config MARS
         (position MARS 112 (1 # 2) CANCER 1) (position SUN 100 1 CANCER 1) 0 0 0)
    = UNDER_BEAMS.
Proof.
  split; [discriminate|].
  destruct (solar_condition_hierarchy (H := spec_math 0)
              (_check_enhanced_combustion_exception (H := spec_math 0)) sample_config MARS
              (position MARS 112 (1 # 2) CANCER 1) (position SUN 100 1 CANCER 1)
              0 0 0 ltac:(discriminate))
    as (_ & _ & _ & _ & _ & Hp).
  apply Hp; vm_compute; reflexivity.
Defined.

(** Mercury at 12 degrees from the Sun, both in Gemini: the visibility
    exception holds and frees the planet. *)
Example mercury_in_gemini_excepted :
  let r := _analyze_enhanced_solar_condition (H := spec_math 0) sample_config MERCURY
             (position MERCURY 82 1 GEMINI 1) (position SUN 70 1 GEMINI 1) 0 0 0 in
  sa_condition r = FREE ∧ sa_traditional_exception r = true.
Proof. vm_compute. split; reflexivity. Qed.

(** The cazimi case of the test suite: Sun and Mercury both at 228.75. *)
Example mercury_cazimi :
  let r := _analyze_enhanced_solar_condition (H := spec_math 0) sample_config MERCURY
             (position MERCURY (915 # 4) 1 SCORPIO 1)
             (position SUN (915 # 4) 1 SCORPIO 1) 0 0 0 in
  sa_condition r = CAZIMI ∧ sa_exact_cazimi r = true.
Proof. vm_compute. split; reflexivity. Qed.

(** ** Normalising a separation *)

Lemma inject_nat_succ (n : nat) :
  inject_Z (Z.of_nat (S n)) == inject_Z (Z.of_nat n) + 1.
Proof. rewrite Nat2Z.inj_succ. unfold Z.succ. rewrite inject_Z_plus. reflexivity. Qed.

Lemma loop_budget_enough (s : Q) :
  Qabs s <= 360 * inject_Z (Z.of_nat (loop_budget s)).
Proof.
  unfold loop_budget.
  assert (H0 : 0 <= Qabs s / 360).
  { pose proof (Qabs_nonneg s). apply Qle_shift_div_l; lra. }
  assert (Hc : (0 <= Qceiling (Qabs s / 360))%Z).
  { apply (Z.le_trans _ (Qceiling 0)); [apply Z.le_refl|].
    apply Qceiling_resp_le. exact H0. }
  rewrite Z2Nat.id by exact Hc.
  pose proof (Qle_ceiling (Qabs s / 360)) as Hle.
  assert (Heq : Qabs s == 360 * (Qabs s / 360)) by (field).
  lra.
Qed.

Lemma while_above_180_spec (n : nat) (s : Q) :
  s <= 180 + 360 * inject_Z (Z.of_nat n) →
  while_above_180 n s <= 180
  ∧ (-180 <= s → -180 <= while_above_180 n s)
  ∧ (s <= 180 → while_above_180 n s = s).
Proof.
  revert s. induction n as [|n IH]; intros s Hs.
  - change (inject_Z (Z.of_nat 0)) with 0 in Hs. cbn.
    repeat split; intros; try reflexivity; lra.
  - rewrite inject_nat_succ in Hs. cbn [while_above_180].
    qcase (s >? 180).
    + destruct (IH (s - 360)) as (H1 & H2 & H3); [lra|].
      repeat split; [exact H1 | intros; apply H2; lra | intros; lra].
    + repeat split; intros; try reflexivity; lra.
Qed.

Lemma while_below_minus_180_spec (n : nat) (s : Q) :
  - 180 - 360 * inject_Z (Z.of_nat n) <= s →
  -180 <= while_below_minus_180 n s
  ∧ (s <= 180 → while_below_minus_180 n s <= 180)
  ∧ (-180 <= s → while_below_minus_180 n s = s).
Proof.
  revert s. induction n as [|n IH]; intros s Hs.
  - change (inject_Z (Z.of_nat 0)) with 0 in Hs. cbn.
    repeat split; intros; try reflexivity; lra.
  - rewrite inject_nat_succ in Hs. cbn [while_below_minus_180].
    qcase (s <? -180).
    + destruct (IH (s + 360)) as (H1 & H2 & H3); [lra|].
      repeat split; [exact H1 | intros; apply H2; lra | intros; lra].
    + repeat split; intros; try reflexivity; lra.
Qed.

(** The budget lets both loops run to their exit conditions. *)
Lemma normalize_separation_range (s : Q) :
  -180 <= normalize_separation s ∧ normalize_separation s <= 180.
Proof.
  unfold normalize_separation.
  set (s1 := while_above_180 (loop_budget s) s).
  assert (H1 : s1 <= 180).
  { apply while_above_180_spec.
    pose proof (loop_budget_enough s). pose proof (Qle_Qabs s). lra. }
  destruct (while_below_minus_180_spec (loop_budget s1) s1) as (Ha & Hb & _).
  { pose proof (loop_budget_enough s1).
    assert (- s1 <= Qabs s1) by (rewrite <- Qabs_opp; apply Qle_Qabs). lra. }
  split; [exact Ha | apply Hb; exact H1].
Qed.

Lemma normalize_separation_id (s : Q) :
  -180 <= s → s <= 180 → normalize_separation s = s.
Proof.
  intros Hlo Hhi. unfold normalize_separation.
  destruct (while_above_180_spec (loop_budget s) s) as (_ & _ & H1).
  { pose proof (loop_budget_enough s). pose proof (Qabs_nonneg s). lra. }
  rewrite (H1 Hhi).
  destruct (while_below_minus_180_spec (loop_budget s) s) as (_ & _ & H2).
  { pose proof (loop_budget_enough s). pose proof (Qabs_nonneg s). lra. }
  exact (H2 Hlo).
Qed.

#[global] Instance while_above_180_proper (n : nat) :
  Proper (Qeq ==> Qeq) (while_above_180 n).
Proof.
  induction n as [|n IH]; intros x y Hxy; cbn; [exact Hxy|].
  unfold Qlt_bool. rewrite Hxy.
  destruct (Qle_bool y 180); cbn; [exact Hxy|].
  apply IH. rewrite Hxy. reflexivity.
Qed.

#[global] Instance while_below_minus_180_proper (n : nat) :
  Proper (Qeq ==> Qeq) (while_below_minus_180 n).
Proof.
  induction n as [|n IH]; intros x y Hxy; cbn; [exact Hxy|].
  unfold Qlt_bool. rewrite Hxy.
  destruct (Qle_bool (-180) y); cbn; [exact Hxy|].
  apply IH. rewrite Hxy. reflexivity.
Qed.

Lemma loop_budget_proper (x y : Q) : x == y → loop_budget x = loop_budget y.
Proof.
  intros Hxy. unfold loop_budget. f_equal. apply Qceiling_comp.
  rewrite Hxy. reflexivity.
Qed.

#[global] Instance normalize_separation_proper :
  Proper (Qeq ==> Qeq) normalize_separation.
Proof.
  intros x y Hxy. unfold normalize_separation.
  rewrite (loop_budget_proper x y Hxy).
  pose proof (while_above_180_proper (loop_budget y) x y Hxy) as H1.
  rewrite (loop_budget_proper _ _ H1).
  apply while_below_minus_180_proper. exact H1.
Qed.

(** ** Applying aspects and sign exits *)

Section ApplyingFacts.
Context `{HoraryMath}.
Variable config : Config.
Variables pos1 pos2 : PlanetPosition.
Variable aspect : Aspect.
Variable jd_ut : Q.

Let faster := (faster_slower pos1 pos2).1.
Let slower := (faster_slower pos1 pos2).2.

Lemma current_separation_range :
  -180 <= current_separation pos1 pos2 ∧ current_separation pos1 pos2 <= 180.
Proof.
  unfold current_separation. destruct (faster_slower pos1 pos2).
  apply normalize_separation_range.
Qed.

(** Bodies moving at one speed keep their separation, so a shrinking orb
    needs a relative speed, and the days to exact are a finite quotient. *)
Lemma orb_decreasing_relative_speed :
  orb_decreasing config pos1 pos2 aspect = true → 0 < relative_speed pos1 pos2.
Proof.
  unfold orb_decreasing, relative_speed.
  destruct (faster_slower pos1 pos2) as [f s].
  intros Hdec. apply Qlt_bool_iff in Hdec.
  destruct (Qlt_le_dec 0 (Qabs (pp_speed f - pp_speed s))) as [Hpos|Hle];
    [exact Hpos|exfalso].
  assert (Hz : pp_speed f - pp_speed s == 0).
  { revert Hle. apply Qabs_case; intros; lra. }
  destruct current_separation_range as [Hlo Hhi].
  assert (Hfs : normalize_separation
                  (current_separation pos1 pos2
                   + (pp_speed f - pp_speed s) * timing_precision_days (cfg_timing config))
                == current_separation pos1 pos2).
  { rewrite <- (normalize_separation_id (current_separation pos1 pos2) Hlo Hhi) at 2.
    apply normalize_separation_proper. rewrite Hz. ring. }
  unfold current_orb in Hdec. rewrite Hfs in Hdec. lra.
Qed.

Lemma is_applying_enhanced_iff :
  _is_applying_enhanced config pos1 pos2 aspect jd_ut = true ↔
  exits_before (days_to_sign_exit (pp_longitude faster) (pp_speed faster))
               (applying_days_to_perfect pos1 pos2 aspect) = false
  ∧ exits_before (days_to_sign_exit (pp_longitude slower) (pp_speed slower))
                 (applying_days_to_perfect pos1 pos2 aspect) = false
  ∧ orb_decreasing config pos1 pos2 aspect = true.
Proof.
  unfold _is_applying_enhanced, faster, slower.
  destruct (faster_slower pos1 pos2) as [f s]; cbn [fst snd].
  destruct (exits_before (days_to_sign_exit (pp_longitude f) (pp_speed f)) _);
    [split; [discriminate | intros (? & _); discriminate]|].
  destruct (exits_before (days_to_sign_exit (pp_longitude s) (pp_speed s)) _);
    [split; [discriminate | intros (_ & ? & _); discriminate]|].
  tauto.
Qed.

(** C4. When the orb from the closest target is shrinking, the days to
    exact are the orb divided by the (non-zero) relative speed, and the
    aspect is still reported not applying as soon as one of the two bodies
    has a projected sign exit, a non-zero number of days, that is smaller;
    it is reported applying exactly when no projected exit of either body
    is smaller. *)
Theorem applying_rejected_on_sign_exit :
  orb_decreasing config pos1 pos2 aspect = true →
  let days_to_exact := current_orb pos1 pos2 aspect / relative_speed pos1 pos2 in
  0 < relative_speed pos1 pos2
  ∧ applying_days_to_perfect pos1 pos2 aspect = Finite days_to_exact
  ∧ (∀ body d,
       body = faster ∨ body = slower →
       days_to_sign_exit (pp_longitude body) (pp_speed body) = Some d →
       ¬ d == 0 → d < days_to_exact →
       _is_applying_enhanced config pos1 pos2 aspect jd_ut = false)
  ∧ (_is_applying_enhanced config pos1 pos2 aspect jd_ut = true ↔
     ∀ body d,
       body = faster ∨ body = slower →
       days_to_sign_exit (pp_longitude body) (pp_speed body) = Some d →
       ¬ d == 0 → days_to_exact <= d).
Proof.
  intros Hdec days_to_exact.
  pose proof (orb_decreasing_relative_speed Hdec) as Hrel.
  assert (Hdays : applying_days_to_perfect pos1 pos2 aspect = Finite days_to_exact).
  { unfold applying_days_to_perfect.
    apply Qlt_bool_iff in Hrel. rewrite Hrel. reflexivity. }
  assert (Hexit : ∀ o,
    exits_before o (applying_days_to_perfect pos1 pos2 aspect) = false ↔
    ∀ d, o = Some d → ¬ d == 0 → days_to_exact <= d).
  { intros o. rewrite Hdays. destruct o as [d|]; cbn.
    - split.
      + intros Hx d' [= <-] Hnz.
        apply andb_false_iff in Hx as [Hx|Hx]; qbool; [contradiction|exact Hx].
      + intros Hall. destruct (d =? 0) eqn:Ez; [reflexivity|]. cbn.
        apply Qlt_bool_false_iff. apply Hall; [reflexivity|].
        apply Qeq_bool_neq. exact Ez.
    - split; [intros _ d [=] | reflexivity]. }
  assert (Hiff : _is_applying_enhanced config pos1 pos2 aspect jd_ut = true ↔
     ∀ body d,
       body = faster ∨ body = slower →
       days_to_sign_exit (pp_longitude body) (pp_speed body) = Some d →
       ¬ d == 0 → days_to_exact <= d).
  { rewrite is_applying_enhanced_iff, !Hexit. split.
    - intros (Hf & Hs & _) body d [-> | ->]; [apply Hf | apply Hs].
    - intros Hall. split; [|split; [|exact Hdec]].
      + intros d. apply Hall. left; reflexivity.
      + intros d. apply Hall. right; reflexivity. }
  split; [exact Hrel|]. split; [exact Hdays|]. split; [|exact Hiff].
  intros body d Hbody Hd Hnz Hlt.
  destruct (_is_applying_enhanced config pos1 pos2 aspect jd_ut) eqn:E;
    [exfalso|reflexivity].
  destruct Hiff as [Hiff _]. specialize (Hiff eq_refl body d Hbody Hd Hnz). lra.
Qed.

End ApplyingFacts.

(** The judgment engine repeats the test on the direct aspect it has found:
    perfection in sign holds exactly when the bodies move relative to each
    other and neither has a projected exit before the days to exact. *)
Lemma enhanced_perfects_in_sign_iff `{HoraryMath} (pos1 pos2 : PlanetPosition)
    (aspect_info : AspectDict) (chart : HoraryChart) :
  let relative := Qabs (pp_speed pos1 - pp_speed pos2) in
  let days_to_perfect := Finite (ad_degrees_to_exact aspect_info / relative) in
  _enhanced_perfects_in_sign pos1 pos2 aspect_info chart = true ↔
  ¬ relative == 0
  ∧ exits_before (days_to_sign_exit (pp_longitude pos1) (pp_speed pos1))
      days_to_perfect = false
  ∧ exits_before (days_to_sign_exit (pp_longitude pos2) (pp_speed pos2))
      days_to_perfect = false.
Proof.
  intros relative days_to_perfect. unfold _enhanced_perfects_in_sign.
  fold relative. fold days_to_perfect.
  destruct (relative =? 0) eqn:Ez.
  - apply Qeq_bool_iff in Ez. split; [discriminate | intros [Hnz _]; contradiction].
  - apply Qeq_bool_neq in Ez.
    destruct (exits_before (days_to_sign_exit (pp_longitude pos1) (pp_speed pos1)) _);
      [split; [discriminate | intros (_ & ? & _); discriminate]|].
    destruct (exits_before (days_to_sign_exit (pp_longitude pos2) (pp_speed pos2)) _);
      [split; [discriminate | intros (_ & _ & ?); discriminate]|].
    tauto.
Qed.

(** A Moon at 29 Aries closing a sextile to Saturn at 5 Cancer: the orb of
    6 degrees shrinks, but the Moon leaves Aries in a thirteenth of a day, well
    before the aspect would be exact. *)
Lemma applying_rejected_on_sign_exit_witness :
  let moon_pos := position MOON 29 13 ARIES 1 in
  let saturn_pos := position SATURN 95 (1 # 30) CANCER 4 in
  orb_decreasing sample_config moon_pos saturn_pos SEXTILE = true
  ∧ _is_applying_enhanced (H := spec_math 0) sample_config moon_pos saturn_pos SEXTILE 0
    = false.
Proof.
  intros moon_pos saturn_pos.
  assert (Hdec : orb_decreasing sample_config moon_pos saturn_pos
                   SEXTILE = true) by (vm_compute; reflexivity).
  split; [exact Hdec|].
  destruct (applying_rejected_on_sign_exit (H := spec_math 0) sample_config
              moon_pos saturn_pos SEXTILE 0 Hdec) as (_ & _ & Hrej & _).
  apply (Hrej moon_pos (1 # 13)).
  - left. reflexivity.
  - vm_compute. reflexivity.
  - vm_compute. discriminate.
  - vm_compute. reflexivity.
Defined.

(** ** House placement *)

Section CuspChain.
(** The cusps by index, with one step down at [j]. *)
Variable c : nat → Q.
Variable j : nat.
Variable l : Q.
Hypothesis Hj : (j < 12)%nat.
Hypothesis Hdown : c ((j + 1) mod 12)%nat < c j.
Hypothesis Hup : ∀ i, (i < 12)%nat → i ≠ j → c i <= c ((i + 1) mod 12)%nat.

(** The cusps read from the one after the step down: a non-decreasing run
    of twelve. *)
Let s (k : nat) : Q := c ((j + 1 + k) mod 12)%nat.

Let hit (i : nat) : bool := in_arc (c i) (c ((i + 1) mod 12)%nat) l.

Lemma chain_step (k : nat) : (k < 11)%nat → s k <= s (S k).
Proof.
  intros Hk. unfold s.
  replace ((j + 1 + S k) mod 12)%nat with (((j + 1 + k) mod 12 + 1) mod 12)%nat by lia.
  apply Hup; lia.
Qed.

Lemma chain_mono (k k' : nat) : (k <= k')%nat → (k' <= 11)%nat → s k <= s k'.
Proof.
  induction k' as [|k' IH]; intros Hle Hk'.
  - replace k with 0%nat by lia. lra.
  - destruct (decide (k = S k')) as [->|Hne]; [lra|].
    pose proof (chain_step k' ltac:(lia)). specialize (IH ltac:(lia) ltac:(lia)). lra.
Qed.

Lemma chain_wrap : s 0 < s 11 ∧ s 12 = s 0.
Proof.
  unfold s. split.
  - replace ((j + 1 + 11) mod 12)%nat with j by lia.
    replace ((j + 1 + 0) mod 12)%nat with ((j + 1) mod 12)%nat by (f_equal; lia).
    exact Hdown.
  - f_equal. lia.
Qed.

Lemma hit_chain (k : nat) :
  hit ((j + 1 + k) mod 12)%nat = in_arc (s k) (s (S k)) l.
Proof.
  unfold hit, s. do 2 f_equal. lia.
Qed.

Lemma in_arc_inner (k : nat) :
  (k < 11)%nat →
  in_arc (s k) (s (S k)) l = true ↔ s k <= l ∧ l < s (S k).
Proof.
  intros Hk. pose proof (chain_step k Hk). unfold in_arc.
  qcase (s k >? s (S k)); [lra|].
  rewrite andb_true_iff, Qlt_bool_iff, Qle_bool_iff. reflexivity.
Qed.

Lemma in_arc_wrap :
  in_arc (s 11) (s 12) l = true ↔ s 11 <= l ∨ l < s 0.
Proof.
  destruct chain_wrap as [Hw ->]. unfold in_arc.
  qcase (s 11 >? s 0); [|lra].
  rewrite orb_true_iff, Qlt_bool_iff, Qle_bool_iff. reflexivity.
Qed.

Lemma chain_between (n : nat) :
  (n <= 11)%nat → s 0 <= l → l < s n →
  ∃ k, (k < n)%nat ∧ s k <= l ∧ l < s (S k).
Proof.
  induction n as [|n IH]; intros Hn Hlo Hhi; [lra|].
  destruct (Qlt_le_dec l (s n)) as [Hlt|Hge].
  - destruct (IH ltac:(lia) Hlo Hlt) as (k & Hk & Hkl). exists k. split; [lia|exact Hkl].
  - exists n. split; [lia|]. split; assumption.
Qed.

Lemma chain_exists : ∃ k, (k <= 11)%nat ∧ in_arc (s k) (s (S k)) l = true.
Proof.
  destruct (Qlt_le_dec l (s 0)) as [Hlt|Hge0].
  { exists 11%nat. split; [lia|]. apply in_arc_wrap. right. exact Hlt. }
  destruct (Qlt_le_dec l (s 11)) as [Hlt|Hge].
  - destruct (chain_between 11 ltac:(lia) Hge0 Hlt) as (k & Hk & Hkl).
    exists k. split; [lia|]. apply in_arc_inner; assumption.
  - exists 11%nat. split; [lia|]. apply in_arc_wrap. left. exact Hge.
Qed.

Lemma chain_unique (k k' : nat) :
  (k <= 11)%nat → (k' <= 11)%nat →
  in_arc (s k) (s (S k)) l = true → in_arc (s k') (s (S k')) l = true → k = k'.
Proof.
  assert (Hinner : ∀ a b, (a < b)%nat → (b < 11)%nat →
            in_arc (s a) (s (S a)) l = true → in_arc (s b) (s (S b)) l = true → False).
  { intros a b Hab Hb Ha Hb'.
    apply in_arc_inner in Ha; [|lia]. apply in_arc_inner in Hb'; [|lia].
    pose proof (chain_mono (S a) b ltac:(lia) ltac:(lia)). lra. }
  assert (Hwrap : ∀ a, (a < 11)%nat →
            in_arc (s a) (s (S a)) l = true → in_arc (s 11) (s 12) l = true → False).
  { intros a Ha Hin Hw.
    apply in_arc_inner in Hin; [|lia]. apply in_arc_wrap in Hw.
    pose proof (chain_mono (S a) 11 ltac:(lia) ltac:(lia)).
    pose proof (chain_mono 0 a ltac:(lia) ltac:(lia)).
    destruct Hw; lra. }
  intros Hk Hk' Hin Hin'.
  destruct (decide (k = k')) as [|Hne]; [assumption|exfalso].
  destruct (decide (k = 11%nat)) as [->|]; destruct (decide (k' = 11%nat)) as [->|].
  - lia.
  - apply (Hwrap k'); [lia|assumption..].
  - apply (Hwrap k); [lia|assumption..].
  - destruct (decide (k < k')%nat).
    + apply (Hinner k k'); [lia|lia|assumption..].
    + apply (Hinner k' k); [lia|lia|assumption..].
Qed.

(** Exactly one of the twelve arc tests succeeds. *)
Lemma one_arc_hits :
  ∃ i, (i < 12)%nat ∧ hit i = true ∧ ∀ i', (i' < 12)%nat → hit i' = true → i' = i.
Proof.
  destruct chain_exists as (k & Hk & Hin).
  exists ((j + 1 + k) mod 12)%nat. split; [lia|]. split.
  - rewrite hit_chain. exact Hin.
  - intros i' Hi' Hhit.
    assert (Hi : i' = ((j + 1 + (i' + 11 - j) mod 12) mod 12)%nat) by lia.
    rewrite Hi in Hhit. rewrite hit_chain in Hhit.
    rewrite (chain_unique k ((i' + 11 - j) mod 12)%nat ltac:(lia) ltac:(lia) Hin Hhit).
    lia.
Qed.

End CuspChain.

Section HouseScan.
Variable houses : list Q.
Variable l : Q.
Hypothesis Hlen : length houses = 12%nat.

Lemma scan_arcs_step (i : nat) (rest : list nat) :
  (i < 12)%nat →
  scan_arcs l houses (i :: rest) =
    if arc_contains houses l i then Matched i else scan_arcs l houses rest.
Proof.
  intros Hi. cbn [scan_arcs]. unfold arc_contains, cusp.
  destruct (lookup_lt_is_Some_2 houses i ltac:(lia)) as [x ->].
  destruct (lookup_lt_is_Some_2 houses ((i + 1) mod 12)%nat ltac:(lia)) as [y ->].
  reflexivity.
Qed.

(** The default is reached exactly when none of the scanned arcs matches. *)
Lemma scan_arcs_NoArc (indices : list nat) :
  Forall (λ i, (i < 12)%nat) indices →
  scan_arcs l houses indices = NoArc ↔
  ∀ i, i ∈ indices → arc_contains houses l i = false.
Proof.
  induction 1 as [|i rest Hi _ IH]; [cbn; split; [intros _ i Hin|reflexivity]|].
  - by apply elem_of_nil in Hin.
  - rewrite scan_arcs_step by exact Hi.
    destruct (arc_contains houses l i) eqn:E.
    + split; [discriminate|]. intros Hall.
      specialize (Hall i (list_elem_of_here _ _)). congruence.
    + rewrite IH. split.
      * intros Hall i' [->|Hin]%elem_of_cons; [exact E | exact (Hall i' Hin)].
      * intros Hall i' Hin. apply Hall. by apply list_elem_of_further.
Qed.

(** With a single matching arc, the scan stops on it. *)
Lemma scan_arcs_Matched (indices : list nat) (i0 : nat) :
  Forall (λ i, (i < 12)%nat) indices →
  i0 ∈ indices →
  arc_contains houses l i0 = true →
  (∀ i, i ∈ indices → arc_contains houses l i = true → i = i0) →
  scan_arcs l houses indices = Matched i0.
Proof.
  induction 1 as [|i rest Hi _ IH]; intros Hin Hhit Huniq.
  - by apply elem_of_nil in Hin.
  - rewrite scan_arcs_step by exact Hi.
    destruct (arc_contains houses l i) eqn:E.
    + f_equal. apply Huniq; [apply list_elem_of_here | exact E].
    + apply IH; [|exact Hhit|].
      * apply elem_of_cons in Hin as [->|Hin]; [congruence|exact Hin].
      * intros i' Hi' Hhit'. apply Huniq; [by apply list_elem_of_further|exact Hhit'].
Qed.

End HouseScan.

Lemma range_12 : Forall (λ i, (i < 12)%nat) (seq 0 12).
Proof. apply Forall_forall. intros i Hi%elem_of_seq. lia. Qed.

Lemma in_range_12 (i : nat) : (i < 12)%nat → i ∈ seq 0 12.
Proof. intros Hi. apply elem_of_seq. lia. Qed.

Lemma lookup_rotate_cusps (houses : list Q) (k i : nat) :
  length houses = 12%nat → (k < 12)%nat → (i < 12)%nat →
  rotate_cusps k houses !! i = houses !! ((i + k) mod 12)%nat.
Proof.
  intros Hlen Hk Hi. unfold rotate_cusps.
  do 12 (destruct houses as [|? houses]; [discriminate|]).
  destruct houses; [|discriminate].
  do 12 (destruct k as [|k]; [do 12 (destruct i as [|i]; [reflexivity|]); lia|]).
  lia.
Qed.

Lemma length_rotate_cusps (houses : list Q) (k : nat) :
  length houses = 12%nat → (k < 12)%nat → length (rotate_cusps k houses) = 12%nat.
Proof.
  intros Hlen Hk. unfold rotate_cusps.
  rewrite length_app, length_drop, length_take. lia.
Qed.

Lemma cusp_rotate_cusps (houses : list Q) (k i : nat) :
  length houses = 12%nat → (k < 12)%nat → (i < 12)%nat →
  cusp (rotate_cusps k houses) i = cusp houses ((i + k) mod 12)%nat.
Proof.
  intros Hlen Hk Hi. unfold cusp. rewrite lookup_rotate_cusps by assumption.
  reflexivity.
Qed.

Lemma arc_contains_rotate_cusps (houses : list Q) (l : Q) (k i : nat) :
  length houses = 12%nat → (k < 12)%nat → (i < 12)%nat →
  arc_contains (rotate_cusps k houses) l i
  = arc_contains houses l ((i + k) mod 12)%nat.
Proof.
  intros Hlen Hk Hi. unfold arc_contains.
  rewrite !cusp_rotate_cusps by (assumption || lia).
  replace (((i + 1) mod 12 + k) mod 12)%nat
    with (((i + k) mod 12 + 1) mod 12)%nat by lia.
  reflexivity.
Qed.

Lemma valid_partition_rotate_cusps (houses : list Q) (k : nat) :
  valid_partition houses → (k < 12)%nat → valid_partition (rotate_cusps k houses).
Proof.
  intros (Hlen & j & Hj & Hdown & Hup) Hk.
  split; [by apply length_rotate_cusps|].
  exists ((j + 12 - k) mod 12)%nat. split; [lia|]. split.
  - rewrite !cusp_rotate_cusps by (assumption || lia).
    replace ((((j + 12 - k) mod 12 + 1) mod 12 + k) mod 12)%nat
      with ((j + 1) mod 12)%nat by lia.
    replace (((j + 12 - k) mod 12 + k) mod 12)%nat with j by lia.
    exact Hdown.
  - intros i Hi Hne.
    rewrite !cusp_rotate_cusps by (assumption || lia).
    replace (((i + 1) mod 12 + k) mod 12)%nat
      with (((i + k) mod 12 + 1) mod 12)%nat by lia.
    apply Hup; lia.
Qed.

(** On a valid partition, one arc contains the longitude and the function
    returns its position in the list, counted from 1. *)
Lemma house_position_unique_arc (houses : list Q) (longitude : Q) :
  valid_partition houses →
  ∃ i, (i < 12)%nat
    ∧ arc_contains houses (fmod longitude 360) i = true
    ∧ (∀ i', (i' < 12)%nat →
         arc_contains houses (fmod longitude 360) i' = true → i' = i)
    ∧ _calculate_house_position longitude houses = Some (Z.of_nat i + 1)%Z.
Proof.
  intros (Hlen & j & Hj & Hdown & Hup).
  destruct (one_arc_hits (cusp houses) j (fmod longitude 360) Hj Hdown Hup)
    as (i & Hi & Hhit & Huniq).
  exists i. split; [exact Hi|]. split; [exact Hhit|]. split; [exact Huniq|].
  unfold _calculate_house_position.
  rewrite (scan_arcs_Matched houses (fmod longitude 360) Hlen (seq 0 12) i);
    [reflexivity | apply range_12 | by apply in_range_12 | exact Hhit |].
  intros i' Hi'%elem_of_seq Hhit'. apply Huniq; [lia|exact Hhit'].
Qed.

(** C8 (amended). For twelve cusps, the default house 1 is returned exactly
    when none of the twelve arc tests succeeds.  When the cusps form a valid
    partition, every longitude lies in exactly one arc
    [cusp i, cusp (i+1 mod 12)), the function returns [i + 1], and listing the
    same cusps from the [k]-th one on keeps that arc but returns its new
    position in the list, [(i - k) mod 12 + 1]. *)
Theorem house_position_partition (houses : list Q) (longitude : Q) :
  length houses = 12%nat →
  let l := fmod longitude 360 in
  (scan_arcs l houses (seq 0 12) = NoArc ↔
   ∀ i, (i < 12)%nat → arc_contains houses l i = false)
  ∧ (valid_partition houses →
     ∃ i, (i < 12)%nat
       ∧ arc_contains houses l i = true
       ∧ (∀ i', (i' < 12)%nat → arc_contains houses l i' = true → i' = i)
       ∧ scan_arcs l houses (seq 0 12) = Matched i
       ∧ _calculate_house_position longitude houses = Some (Z.of_nat i + 1)%Z
       ∧ ∀ k, (k < 12)%nat →
           arc_contains (rotate_cusps k houses) l ((i + 12 - k) mod 12)%nat = true
           ∧ _calculate_house_position longitude (rotate_cusps k houses)
             = Some (Z.of_nat ((i + 12 - k) mod 12) + 1)%Z).
Proof.
  intros Hlen l. split.
  - rewrite (scan_arcs_NoArc houses l Hlen (seq 0 12) range_12). split.
    + intros Hall i Hi. apply Hall. by apply in_range_12.
    + intros Hall i Hi%elem_of_seq. apply Hall. lia.
  - intros Hvalid.
    destruct (house_position_unique_arc houses longitude Hvalid)
      as (i & Hi & Hhit & Huniq & Hhouse).
    exists i. split; [exact Hi|]. split; [exact Hhit|]. split; [exact Huniq|].
    split.
    { apply (scan_arcs_Matched houses l Hlen);
        [apply range_12 | by apply in_range_12 | exact Hhit |].
      intros i' Hi'%elem_of_seq Hhit'. apply Huniq; [lia|exact Hhit']. }
    split; [exact Hhouse|].
    intros k Hk.
    assert (Hhit_k : arc_contains (rotate_cusps k houses) l ((i + 12 - k) mod 12)%nat
                     = true).
    { rewrite arc_contains_rotate_cusps by (assumption || lia).
      replace (((i + 12 - k) mod 12 + k) mod 12)%nat with i by lia. exact Hhit. }
    split; [exact Hhit_k|].
    destruct (house_position_unique_arc (rotate_cusps k houses) longitude
                (valid_partition_rotate_cusps houses k Hvalid Hk))
      as (i' & Hi' & _ & Huniq' & Hhouse').
    rewrite Hhouse'. do 3 f_equal. symmetry. apply Huniq'; [lia|exact Hhit_k].
Qed.

Lemma equal_houses_valid : valid_partition equal_houses.
Proof.
  split; [reflexivity|]. exists 11%nat. split; [lia|]. split; [vm_compute; reflexivity|].
  intros i Hi Hne.
  do 11 (destruct i as [|i]; [vm_compute; discriminate|]). lia.
Qed.

(** Thirty-degree houses: 15 degrees is in house 1, 345 degrees in the arc
    that wraps, house 12. *)
Lemma house_position_partition_witness :
  _calculate_house_position 15 equal_houses = Some 1%Z
  ∧ _calculate_house_position 345 equal_houses = Some 12%Z.
Proof.
  split.
  - destruct (house_position_partition equal_houses 15 eq_refl) as [_ Hv].
    destruct (Hv equal_houses_valid) as (i & Hi & _ & Huniq & _ & Hhouse & _).
    rewrite Hhouse. rewrite <- (Huniq 0%nat); [reflexivity | lia | vm_compute; reflexivity].
  - destruct (house_position_partition equal_houses 345 eq_refl) as [_ Hv].
    destruct (Hv equal_houses_valid) as (i & Hi & _ & Huniq & _ & Hhouse & _).
    rewrite Hhouse. rewrite <- (Huniq 11%nat); [reflexivity | lia | vm_compute; reflexivity].
Defined.

(** C8 as stated fails: the cusp set of [equal_houses] listed from its
    second cusp is still a valid partition, and the longitude 15 moves from
    house 1 to house 12. *)
Lemma house_changes_with_starting_cusp :
  valid_partition equal_houses
  ∧ valid_partition (rotate_cusps 1 equal_houses)
  ∧ rotate_cusps 1 equal_houses
    = [30; 60; 90; 120; 150; 180; 210; 240; 270; 300; 330; 0]
  ∧ _calculate_house_position 15 equal_houses = Some 1%Z
  ∧ _calculate_house_position 15 (rotate_cusps 1 equal_houses) = Some 12%Z
  ∧ ¬ (∀ houses k longitude,
         valid_partition houses → (k < 12)%nat →
         _calculate_house_position longitude (rotate_cusps k houses)
         = _calculate_house_position longitude houses).
Proof.
  assert (H1 : _calculate_house_position 15 equal_houses = Some 1%Z)
    by (vm_compute; reflexivity).
  assert (H12 : _calculate_house_position 15 (rotate_cusps 1 equal_houses) = Some 12%Z)
    by (vm_compute; reflexivity).
  split; [exact equal_houses_valid|].
  split; [apply valid_partition_rotate_cusps; [exact equal_houses_valid|lia]|].
  split; [reflexivity|]. split; [exact H1|]. split; [exact H12|].
  intros Hinv.
  specialize (Hinv equal_houses 1%nat 15 equal_houses_valid ltac:(lia)).
  rewrite H1, H12 in Hinv. discriminate.
Qed.

(** ** The entry point never raises *)

Section JudgeQuestionFacts.
Context `{HoraryMath} `{Ephemeris} `{TimeZones} `{Services}.
Variables question location : string.
Variables date_str time_str timezone_str : option string.
Variable use_current_time : bool.
Variable manual_houses : option (list Z).
Variables ignore_radicality ignore_void_moon ignore_combustion ignore_saturn_7th : bool.
Variable exaltation_confidence_boost : option Q.

Let pipeline :=
  judge_pipeline question location date_str time_str timezone_str use_current_time
    manual_houses ignore_radicality ignore_void_moon ignore_combustion
    ignore_saturn_7th exaltation_confidence_boost.

Let answer :=
  judge_question question location date_str time_str timezone_str use_current_time
    manual_houses ignore_radicality ignore_void_moon ignore_combustion
    ignore_saturn_7th exaltation_confidence_boost.

(** C7. Whatever the collaborators do, [judge_question] returns a result
    dictionary: the one built by the pipeline when nothing is raised, the
    LOCATION_ERROR one with confidence 0 and the message in the reasoning
    when a [LocationError] is raised, and the ERROR one with confidence 0
    and the message in the reasoning for any other exception. *)
Theorem judge_question_never_raises :
  ∃ r, answer = Return r
    ∧ match pipeline with
      | Return r' => r = r'
      | Raise (LocationError msg) =>
          r_judgment r = LOCATION_ERROR
          ∧ r_confidence r = 0%Z
          ∧ r_reasoning r = [[Lit "Location error: "; Lit msg]]
          ∧ r_error r = Some msg
          ∧ r_error_type r = Some "LocationError"
      | Raise (Exception _ msg) =>
          r_judgment r = ERROR
          ∧ r_confidence r = 0%Z
          ∧ r_reasoning r = [[Lit "Calculation error: "; Lit msg]]
          ∧ r_error r = Some msg
      end.
Proof.
  unfold answer, judge_question. fold pipeline.
  destruct pipeline as [r'|[msg|class msg]]; cbn.
  - exists r'. split; reflexivity.
  - eexists. split; [reflexivity|]. cbn. repeat split.
  - eexists. split; [reflexivity|]. cbn. repeat split.
Qed.

(** A geocoder that rejects the place ends in LOCATION_ERROR. *)
Lemma judge_question_location_error (config : Config) (msg : string) :
  cfg = Return config → geolocator = true →
  safe_geocode location = Raise (LocationError msg) →
  ∃ r, answer = Return r ∧ r_judgment r = LOCATION_ERROR ∧ r_confidence r = 0%Z
       ∧ r_reasoning r = [[Lit "Location error: "; Lit msg]].
Proof.
  intros Hcfg Hgeo Hfail.
  unfold answer, judge_question, judge_pipeline.
  rewrite Hcfg, Hgeo, Hfail. cbn. eexists. split; [reflexivity|]. cbn. tauto.
Qed.

(** Without a geocoder the answer is LOCATION_ERROR as well. *)
Lemma judge_question_no_geolocator (config : Config) :
  cfg = Return config → geolocator = false →
  ∃ r, answer = Return r ∧ r_judgment r = LOCATION_ERROR ∧ r_confidence r = 0%Z
       ∧ r_reasoning r
         = [[Lit "Location error: "; Lit "Geocoding service not available"]].
Proof.
  intros Hcfg Hgeo.
  unfold answer, judge_question, judge_pipeline.
  rewrite Hcfg, Hgeo. cbn. eexists. split; [reflexivity|]. cbn. tauto.
Qed.

(** A missing date with [use_current_time] off is a [ValueError] inside the
    [try], hence an ERROR answer. *)
Lemma judge_question_missing_date (config : Config) (place : Q * Q * string) :
  cfg = Return config → geolocator = true →
  safe_geocode location = Return place →
  use_current_time = false → date_str = None →
  ∃ r, answer = Return r ∧ r_judgment r = ERROR ∧ r_confidence r = 0%Z.
Proof.
  intros Hcfg Hgeo Hplace Hnow Hdate.
  unfold answer, judge_question, judge_pipeline.
  rewrite Hcfg, Hgeo, Hplace, Hnow, Hdate.
  destruct place as [[lat lon] name]. cbn. eexists. split; [reflexivity|]. cbn. tauto.
Qed.

End JudgeQuestionFacts.

(** ** Local times and daylight saving *)

Example strptime_spring_forward :
  strptime "2021-03-14" "02:30" = Some 26928150%Z
  ∧ hour 26928150%Z = 2%Z ∧ minute 26928150%Z = 30%Z.
Proof. vm_compute. repeat split. Qed.

Section TimezoneFacts.
Context `{TimeZones}.
Variables date_str time_str name : string.
Variable coordinates : option (Q * Q).
Variable dt_naive : naive.
Hypothesis Hparse : strptime date_str time_str = Some dt_naive.
Hypothesis Hname : name ≠ "".
Hypothesis Hzone : zone_exists name = true.

(** With [zoneinfo] importable the zone object has no [localize]: the wall
    clock is attached to the zone as it is and neither DST handler runs. *)
Lemma parse_zoneinfo_path :
  ZoneInfo_available = true →
  parse_datetime_with_timezone date_str time_str (Some name) coordinates
  = Return (replace_tzinfo dt_naive (ZoneInfoTz name),
            astimezone_utc (replace_tzinfo dt_naive (ZoneInfoTz name)),
            name).
Proof.
  intros Hzi. unfold parse_datetime_with_timezone, zone_or_utc.
  rewrite Hparse, Hzone, Hzi.
  rewrite bool_decide_eq_false_2 by exact Hname. reflexivity.
Qed.

(** Without [zoneinfo] the zone is a pytz one.  A [NonExistentTimeError]
    moves the wall clock one hour on before localizing again. *)
Lemma parse_pytz_nonexistent (off : Z) :
  ZoneInfo_available = false →
  pytz_localize name dt_naive None = NonExistentTimeError →
  pytz_localize name (add_hours dt_naive 1) None = Offset off →
  ∃ dt_local dt_utc,
    parse_datetime_with_timezone date_str time_str (Some name) coordinates
    = Return (dt_local, dt_utc, name)
    ∧ wall dt_local = add_hours dt_naive 1
    ∧ utcoffset dt_local = off
    ∧ wall dt_utc = (add_hours dt_naive 1 - off)%Z.
Proof.
  intros Hzi Hgap Hnext. unfold parse_datetime_with_timezone, zone_or_utc.
  rewrite Hparse, Hzone, Hzi.
  rewrite bool_decide_eq_false_2 by exact Hname. cbn.
  rewrite Hgap, Hnext. cbn. eexists _, _. split; [reflexivity|]. cbn. tauto.
Qed.

(** An [AmbiguousTimeError] is answered with [is_dst=False], the
    standard-time reading. *)
Lemma parse_pytz_ambiguous (off : Z) :
  ZoneInfo_available = false →
  pytz_localize name dt_naive None = AmbiguousTimeError →
  pytz_localize name dt_naive (Some false) = Offset off →
  ∃ dt_local dt_utc,
    parse_datetime_with_timezone date_str time_str (Some name) coordinates
    = Return (dt_local, dt_utc, name)
    ∧ wall dt_local = dt_naive
    ∧ utcoffset dt_local = off
    ∧ wall dt_utc = (dt_naive - off)%Z.
Proof.
  intros Hzi Hamb Hstd. unfold parse_datetime_with_timezone, zone_or_utc.
  rewrite Hparse, Hzone, Hzi.
  rewrite bool_decide_eq_false_2 by exact Hname. cbn.
  rewrite Hamb, Hstd. cbn. eexists _, _. split; [reflexivity|]. cbn. tauto.
Qed.

End TimezoneFacts.

(** C6 (the code at the failing input). Where [zoneinfo] is importable, the
    missing local time 2021-03-14 02:30 in America/New_York comes back with
    its wall clock unchanged, 02:30 and not 03:30, whatever the libraries
    answer; the UTC value is that wall clock minus the offset [ZoneInfo]
    reports for it. *)
Theorem parse_with_zoneinfo_keeps_wall_clock `{TimeZones}
    (coordinates : option (Q * Q)) :
  ZoneInfo_available = true →
  zone_exists "America/New_York" = true →
  ∃ dt_local dt_utc,
    parse_datetime_with_timezone "2021-03-14" "02:30"
      (Some "America/New_York") coordinates
    = Return (dt_local, dt_utc, "America/New_York")
    ∧ tz_of dt_local = ZoneInfoTz "America/New_York"
    ∧ hour (wall dt_local) = 2%Z ∧ minute (wall dt_local) = 30%Z
    ∧ wall dt_utc
      = (wall dt_local - zoneinfo_utcoffset "America/New_York" (wall dt_local))%Z.
Proof.
  intros Hzi Hzone.
  rewrite (parse_zoneinfo_path "2021-03-14" "02:30" "America/New_York"
             coordinates 26928150%Z) by (reflexivity || discriminate || assumption).
  eexists _, _. split; [reflexivity|]. cbn. repeat split.
Qed.

(** On the sample environment for New York: with [zoneinfo] the spring
    forward time stays at 02:30 and the fall back time 2021-11-07 01:30 is
    read as daylight time, UTC 05:30; with pytz raising both errors the
    answers are 03:30 local, UTC 07:30, and standard time, UTC 06:30. *)
Lemma parse_with_zoneinfo_keeps_wall_clock_witness :
  ∃ dt_local dt_utc,
    parse_datetime_with_timezone (H := new_york_2021 true) "2021-03-14" "02:30"
      (Some "America/New_York") None
    = Return (dt_local, dt_utc, "America/New_York")
    ∧ hour (wall dt_local) = 2%Z ∧ minute (wall dt_local) = 30%Z.
Proof.
  destruct (parse_with_zoneinfo_keeps_wall_clock (H := new_york_2021 true) None
              eq_refl eq_refl) as (dt_local & dt_utc & Hp & _ & Hh & Hm & _).
  exists dt_local, dt_utc. repeat split; assumption.
Defined.

Example new_york_fall_back_with_zoneinfo :
  ∃ dt_local dt_utc,
    parse_datetime_with_timezone (H := new_york_2021 true) "2021-11-07" "01:30"
      (Some "America/New_York") None
    = Return (dt_local, dt_utc, "America/New_York")
    ∧ utcoffset dt_local = (-240)%Z
    ∧ hour (wall dt_utc) = 5%Z ∧ minute (wall dt_utc) = 30%Z.
Proof. eexists _, _. vm_compute. repeat split. Qed.

Example new_york_with_pytz_errors :
  (∃ dt_local dt_utc,
     parse_datetime_with_timezone (H := new_york_2021 false) "2021-03-14" "02:30"
       (Some "America/New_York") None
     = Return (dt_local, dt_utc, "America/New_York")
     ∧ hour (wall dt_local) = 3%Z ∧ minute (wall dt_local) = 30%Z
     ∧ hour (wall dt_utc) = 7%Z ∧ minute (wall dt_utc) = 30%Z)
  ∧ (∃ dt_local dt_utc,
     parse_datetime_with_timezone (H := new_york_2021 false) "2021-11-07" "01:30"
       (Some "America/New_York") None
     = Return (dt_local, dt_utc, "America/New_York")
     ∧ utcoffset dt_local = (-300)%Z
     ∧ hour (wall dt_utc) = 6%Z ∧ minute (wall dt_utc) = 30%Z).
Proof. split; eexists _, _; vm_compute; repeat split. Qed.

(** ** Confidence bounds *)

Lemma int_percent (x : Q) : 0 <= x → x <= 100 → in_percent (Py.int x).
Proof.
  intros H0 H100. unfold Py.int, in_percent.
  assert (Hneg : (x <? 0) = false) by (apply Qlt_bool_false_iff; exact H0).
  rewrite Hneg. split.
  - apply (Qfloor_resp_le 0 x). exact H0.
  - apply (Qfloor_resp_le x 100). exact H100.
Qed.

Lemma boosted_percent (base : Z) (boost : Q) :
  in_percent base → 0 <= boost → in_percent (Py.int (Qmin 100 (inject_Z base + boost))).
Proof.
  intros [Hb0 Hb100] Hboost.
  assert (H0 : inject_Z 0 <= inject_Z base) by (rewrite <- Zle_Qle; exact Hb0).
  change (inject_Z 0) with 0 in H0.
  destruct (Q.min_spec 100 (inject_Z base + boost)) as [[_ Heq]|[Hle Heq]];
    apply int_percent; rewrite Heq; lra.
Qed.

Ltac break_match :=
  match goal with
  | H : context [match ?x with _ => _ end] |- _ =>
      let E := fresh "E" in destruct x eqn:E
  | |- context [match ?x with _ => _ end] =>
      let E := fresh "E" in destruct x eqn:E
  end.

Section JudgmentFacts.
Context `{HoraryMath} `{Ephemeris}.
Variable config : Config.
Variable chart : HoraryChart.
Variable exaltation_confidence_boost : Q.

Let cc := cfg_confidence config.
Let pc := conf_perfection cc.

Lemma perfection_confidence_range (querent quesited : Planet) (p : Perfection) :
  confidence_ranges config exaltation_confidence_boost →
  _check_enhanced_perfection config chart querent quesited
    exaltation_confidence_boost = Some p →
  in_percent (perf_confidence p).
Proof.
  intros (_ & _ & _ & Hall & Hboost) Hp.
  fold cc pc in Hall.
  repeat match goal with
  | H : Forall _ (_ :: _) |- _ => apply Forall_cons in H; destruct H
  end.
  unfold _check_enhanced_perfection in Hp. fold cc pc in Hp.
  repeat break_match; simplify_eq; cbn; try assumption; by apply boosted_percent.
Qed.

Lemma denial_confidence_range (querent quesited : Planet) (c : Z) (why : text) :
  confidence_ranges config exaltation_confidence_boost →
  _check_enhanced_denial_conditions config chart querent quesited = Some (c, why) →
  in_percent c.
Proof.
  intros (_ & _ & _ & Hall & _) Hd.
  fold cc pc in Hall.
  repeat match goal with
  | H : Forall _ (_ :: _) |- _ => apply Forall_cons in H; destruct H
  end.
  unfold _check_enhanced_denial_conditions in Hd. fold cc in Hd.
  repeat break_match; simplify_eq; assumption.
Qed.

Lemma solar_adjusted_confidence_nonneg (solar_factors : SolarFactors)
    (ignore_combustion : bool) :
  confidence_ranges config exaltation_confidence_boost →
  (0 ≤ solar_adjusted_confidence config solar_factors ignore_combustion)%Z.
Proof.
  intros ([Hb0 _] & Hcaz & [Hp0 Hp1] & _).
  unfold solar_adjusted_confidence. fold cc in Hb0, Hcaz, Hp0, Hp1 |- *.
  repeat break_match; lia.
Qed.

Lemma calculate_enhanced_timing_returns (p : Perfection) :
  ¬ get_real_moon_speed (julian_day chart) == 0 →
  ∃ t, _calculate_enhanced_timing chart p = Return t.
Proof.
  intros Hspeed. unfold _calculate_enhanced_timing.
  destruct (perf_aspect p); [|eexists; reflexivity].
  destruct (get_real_moon_speed (julian_day chart) =? 0) eqn:E;
    [apply Qeq_bool_iff in E; contradiction | eexists; reflexivity].
Qed.

Section ApplyJudgment.
Variable question_analysis : QuestionAnalysis.
Variables ignore_radicality ignore_void_moon ignore_combustion ignore_saturn_7th : bool.

Let judgment :=
  _apply_enhanced_judgment config chart question_analysis ignore_radicality
    ignore_void_moon ignore_combustion ignore_saturn_7th exaltation_confidence_boost.

(** The shape of the judgment once radicality and the significators are
    settled: the running confidence is the solar-adjusted one, and each way
    out takes its minimum with a configured level. *)
Lemma apply_judgment_after_significators
    (querent quesited : Planet) (description : text) :
  negb ignore_radicality
  && negb (rad_valid (_check_enhanced_radicality config chart ignore_saturn_7th))
  = false →
  _identify_significators chart question_analysis
  = Significator_pair querent quesited description →
  let solar_factors :=
    _analyze_enhanced_solar_factors chart querent quesited ignore_combustion in
  let running := solar_adjusted_confidence config solar_factors ignore_combustion in
  match _check_enhanced_perfection config chart querent quesited
          exaltation_confidence_boost with
  | Some p =>
      match _calculate_enhanced_timing chart p with
      | Return t =>
          ∃ j, judgment = Return j
            ∧ j_result j = (if perf_favorable p then YES else NO)
            ∧ j_confidence j = Z.min running (perf_confidence p)
      | Raise e => judgment = Raise e
      end
  | None =>
      match _check_enhanced_denial_conditions config chart querent quesited with
      | Some (c, _) =>
          ∃ j, judgment = Return j ∧ j_result j = NO
            ∧ j_confidence j = Z.min running c
      | None =>
          ∃ j, judgment = Return j
            ∧ j_result j ∈ [YES; NO; UNCLEAR]
            ∧ j_confidence j ∈
                [Z.min running (lunar_cap_favorable cc);
                 Z.min running (lunar_cap_unfavorable cc);
                 Z.min running (lunar_cap_neutral cc)]
      end
  end.
Proof.
  intros Hrad Hsig solar_factors running.
  unfold judgment, _apply_enhanced_judgment. rewrite Hrad, Hsig.
  fold solar_factors. fold cc.
  unfold running, solar_adjusted_confidence. fold cc.
  destruct (significant solar_factors);
    [destruct (0 <? cazimi_count solar_factors)%nat;
      [|destruct ((0 <? combustion_count solar_factors)%nat && negb ignore_combustion)]|];
  (destruct (_check_enhanced_perfection config chart querent quesited
               exaltation_confidence_boost) as [p|];
   [ destruct (_calculate_enhanced_timing chart p); cbn;
     [eexists; split; [reflexivity|]; cbn; split; reflexivity | reflexivity]
   | destruct (_check_enhanced_denial_conditions config chart querent quesited)
       as [[c why]|];
     [ eexists; split; [reflexivity|]; cbn; split; reflexivity
     | destruct (mt_favorable _); [|destruct (mt_unfavorable _)];
       (eexists; split; [reflexivity|]; cbn; split;
        repeat first [apply list_elem_of_here | apply list_elem_of_further]) ] ]).
Qed.

Lemma apply_judgment_bounds (j : Judgment) :
  confidence_ranges config exaltation_confidence_boost →
  judgment = Return j →
  in_percent (j_confidence j)
  ∧ j_result j ∈ [YES; NO; UNCLEAR; NOT_RADICAL; CANNOT_JUDGE].
Proof.
  intros Hranges Hj.
  pose proof Hranges as (_ & _ & _ & Hall & _). fold cc pc in Hall.
  repeat match goal with
  | H : Forall _ (_ :: _) |- _ => apply Forall_cons in H; destruct H
  end.
  unfold in_percent in *.
  destruct (negb ignore_radicality
            && negb (rad_valid (_check_enhanced_radicality config chart
                                  ignore_saturn_7th))) eqn:Hrad.
  { unfold judgment, _apply_enhanced_judgment in Hj. rewrite Hrad in Hj.
    simplify_eq. cbn. split; [lia|].
    repeat first [apply list_elem_of_here | apply list_elem_of_further]. }
  destruct (_identify_significators chart question_analysis)
    as [why|querent quesited description] eqn:Hsig.
  { unfold judgment, _apply_enhanced_judgment in Hj. rewrite Hrad, Hsig in Hj.
    simplify_eq. cbn. split; [lia|].
    repeat first [apply list_elem_of_here | apply list_elem_of_further]. }
  pose proof (apply_judgment_after_significators querent quesited description
                Hrad Hsig) as Hshape. cbn zeta in Hshape.
  pose proof (solar_adjusted_confidence_nonneg
                (_analyze_enhanced_solar_factors chart querent quesited
                   ignore_combustion) ignore_combustion Hranges) as Hrun.
  destruct (_check_enhanced_perfection config chart querent quesited
              exaltation_confidence_boost) as [p|] eqn:Hp.
  - pose proof (perfection_confidence_range querent quesited p Hranges Hp) as Hpc.
    unfold in_percent in Hpc.
    destruct (_calculate_enhanced_timing chart p).
    + destruct Hshape as (j' & Hj' & Hres & Hconf).
      rewrite Hj in Hj'. simplify_eq. rewrite Hres, Hconf. split; [lia|].
      destruct (perf_favorable p);
        repeat first [apply list_elem_of_here | apply list_elem_of_further].
    + congruence.
  - destruct (_check_enhanced_denial_conditions config chart querent quesited)
      as [[c why]|] eqn:Hd.
    + pose proof (denial_confidence_range querent quesited c why Hranges Hd) as Hdc.
      unfold in_percent in Hdc.
      destruct Hshape as (j' & Hj' & Hres & Hconf).
      rewrite Hj in Hj'. simplify_eq. rewrite Hres, Hconf. split; [lia|].
      repeat first [apply list_elem_of_here | apply list_elem_of_further].
    + destruct Hshape as (j' & Hj' & Hres & Hconf).
      rewrite Hj in Hj'. simplify_eq. split.
      * repeat (apply elem_of_cons in Hconf as [->|Hconf]; [lia|]).
        by apply elem_of_nil in Hconf.
      * repeat (apply elem_of_cons in Hres as [->|Hres];
                [repeat first [apply list_elem_of_here | apply list_elem_of_further]|]).
        by apply elem_of_nil in Hres.
Qed.

Lemma apply_judgment_returns :
  ¬ get_real_moon_speed (julian_day chart) == 0 → ∃ j, judgment = Return j.
Proof.
  intros Hspeed.
  destruct (negb ignore_radicality
            && negb (rad_valid (_check_enhanced_radicality config chart
                                  ignore_saturn_7th))) eqn:Hrad.
  { unfold judgment, _apply_enhanced_judgment. rewrite Hrad. eexists; reflexivity. }
  destruct (_identify_significators chart question_analysis)
    as [why|querent quesited description] eqn:Hsig.
  { unfold judgment, _apply_enhanced_judgment. rewrite Hrad, Hsig.
    eexists; reflexivity. }
  pose proof (apply_judgment_after_significators querent quesited description
                Hrad Hsig) as Hshape. cbn zeta in Hshape.
  destruct (_check_enhanced_perfection config chart querent quesited
              exaltation_confidence_boost) as [p|].
  - destruct (calculate_enhanced_timing_returns p Hspeed) as [t Ht].
    rewrite Ht in Hshape. destruct Hshape as (j & Hj & _). eauto.
  - destruct (_check_enhanced_denial_conditions config chart querent quesited)
      as [[c why]|]; destruct Hshape as (j & Hj & _); eauto.
Qed.

End ApplyJudgment.
End JudgmentFacts.

Section ConfidenceBounds.
Context `{HoraryMath} `{Ephemeris} `{TimeZones} `{Services}.
Variable config : Config.
Variable exaltation_confidence_boost : Q.

(** C1. With the confidence settings in their ranges, every judgment
    [_apply_enhanced_judgment] returns carries one of the five terminal
    verdicts and a confidence between 0 and 100; it does return one whenever
    the ephemeris reports a moving Moon; and the confidence of the
    dictionary [judge_question] answers with is in the same range. *)
Theorem confidence_within_bounds :
  confidence_ranges config exaltation_confidence_boost →
  (∀ chart question_analysis
     ignore_radicality ignore_void_moon ignore_combustion ignore_saturn_7th,
     let judgment :=
       _apply_enhanced_judgment config chart question_analysis ignore_radicality
         ignore_void_moon ignore_combustion ignore_saturn_7th
         exaltation_confidence_boost in
     (∀ j, judgment = Return j →
        (0 ≤ j_confidence j ≤ 100)%Z
        ∧ j_result j ∈ [YES; NO; UNCLEAR; NOT_RADICAL; CANNOT_JUDGE])
     ∧ (¬ get_real_moon_speed (julian_day chart) == 0 → ∃ j, judgment = Return j))
  ∧ (cfg = Return config →
     ∀ question location date_str time_str timezone_str use_current_time
       manual_houses ignore_radicality ignore_void_moon ignore_combustion
       ignore_saturn_7th r,
       judge_question question location date_str time_str timezone_str
         use_current_time manual_houses ignore_radicality ignore_void_moon
         ignore_combustion ignore_saturn_7th (Some exaltation_confidence_boost)
       = Return r →
       (0 ≤ r_confidence r ≤ 100)%Z).
Proof.
  intros Hranges. split.
  - intros chart question_analysis ir iv ic is7 judgment. split.
    + intros j Hj. by apply (apply_judgment_bounds config chart
                               exaltation_confidence_boost question_analysis
                               ir iv ic is7 j Hranges).
    + apply apply_judgment_returns.
  - intros Hcfg question location date_str time_str timezone_str use_current_time
      manual_houses ir iv ic is7 r Hr.
    unfold judge_question, judge_pipeline in Hr. rewrite Hcfg in Hr.
    unfold mbind, outcome_bind, bind, try_except in Hr. cbn [default] in Hr.
    repeat match type of Hr with
    | context [match ?x with _ => _ end] =>
        lazymatch x with
        | context [match _ with _ => _ end] => fail
        | _apply_enhanced_judgment _ _ _ _ _ _ _ _ =>
            let E := fresh "Hjudgment" in destruct x eqn:E
        | _ => destruct x
        end
    end; simplify_eq; cbn; try lia.
    all: match goal with
         | Hj : _apply_enhanced_judgment _ _ _ _ _ _ _ _ = Return ?j |- _ =>
             apply (apply_judgment_bounds _ _ _ _ _ _ _ _ j Hranges) in Hj;
             destruct Hj as [Hj _]; exact Hj
         end.
Qed.

End ConfidenceBounds.

Lemma sample_config_in_range : confidence_ranges sample_config 15.
Proof.
  unfold confidence_ranges, in_percent. cbn.
  repeat split; try lia; try discriminate.
  repeat (apply Forall_cons; split; [lia|]). apply Forall_nil. exact I.
Qed.

(** The sample chart with Mercury combust: a YES whose confidence, 90,
    lies in range. *)
Lemma confidence_within_bounds_witness :
  confidence_ranges sample_config 15
  ∧ ∃ j,
      _apply_enhanced_judgment (H := spec_math 0) (H0 := steady_moon 13)
        sample_config (opposition_in_reception 15 mercury_combust)
        seventh_house_question false false false false 15 = Return j
      ∧ (0 ≤ j_confidence j ≤ 100)%Z.
Proof.
  split; [exact sample_config_in_range|].
  destruct (confidence_within_bounds (H := spec_math 0) (H0 := steady_moon 13)
              (H1 := new_york_2021 true)
              (H2 := fixed_chart_services (opposition_in_reception 15 mercury_combust))
              sample_config 15 sample_config_in_range) as [Hjudgment _].
  destruct (Hjudgment (opposition_in_reception 15 mercury_combust)
              seventh_house_question false false false false) as [Hbounds Hreturns].
  destruct Hreturns as [j Hj]; [intros Hq; vm_compute in Hq; discriminate|].
  exists j. split; [exact Hj|]. apply (Hbounds j Hj).
Defined.

(** ** Direct perfection in reception *)

Section DirectPerfection.
Context `{HoraryMath} `{Ephemeris}.
Variable config : Config.
Variable chart : HoraryChart.
Variables querent quesited : Planet.
Variable exaltation_confidence_boost : Q.
Variable direct_aspect : AspectDict.

Let pc := conf_perfection (cfg_confidence config).
Let reception := _check_enhanced_mutual_reception chart querent quesited.
Let perfection :=
  _check_enhanced_perfection config chart querent quesited exaltation_confidence_boost.

Hypothesis Happlying :
  _find_applying_aspect chart querent quesited = Some direct_aspect.
Hypothesis Hin_sign :
  _enhanced_perfects_in_sign (planets chart querent) (planets chart quesited)
    direct_aspect chart = true.

Lemma direct_perfection_any_reception :
  reception ≠ none →
  ∃ p, perfection = Some p ∧ perf_type p = direct ∧ perf_favorable p = true
       ∧ perf_aspect p = Some direct_aspect.
Proof.
  intros Hrec. unfold perfection, _check_enhanced_perfection.
  rewrite Happlying, Hin_sign. fold reception.
  destruct reception eqn:E; try contradiction;
    eexists; (split; [reflexivity|]); cbn; repeat split.
Qed.

Lemma direct_perfection_mutual_rulership :
  reception = mutual_rulership →
  ∃ p, perfection = Some p ∧ perf_type p = direct ∧ perf_favorable p = true
       ∧ perf_confidence p = direct_with_mutual_rulership pc
       ∧ perf_aspect p = Some direct_aspect.
Proof.
  intros Hrec. unfold perfection, _check_enhanced_perfection.
  rewrite Happlying, Hin_sign. fold reception. rewrite Hrec.
  eexists. split; [reflexivity|]. cbn. repeat split.
Qed.

(** C2 (amended). An applying direct aspect between the significators that
    perfects in sign, under mutual rulership, is a favorable direct
    perfection at the configured [direct_with_mutual_rulership] confidence
    whatever the aspect type; under any reception (mutual rulership, mutual
    exaltation, mixed) the direct perfection is marked favorable.  The
    judgment built on it is YES once radicality has passed or is bypassed
    (and the timing can be computed), with the smaller of the solar-adjusted
    running confidence and the configured one; a chart that fails radicality
    is NOT RADICAL before perfection is looked at. *)
Theorem mutual_reception_direct_perfection
    (question_analysis : QuestionAnalysis)
    (ignore_radicality ignore_void_moon ignore_combustion ignore_saturn_7th : bool)
    (description : text) :
  let judgment :=
    _apply_enhanced_judgment config chart question_analysis ignore_radicality
      ignore_void_moon ignore_combustion ignore_saturn_7th
      exaltation_confidence_boost in
  let radical :=
    rad_valid (_check_enhanced_radicality config chart ignore_saturn_7th) in
  let running :=
    solar_adjusted_confidence config
      (_analyze_enhanced_solar_factors chart querent quesited ignore_combustion)
      ignore_combustion in
  (reception ∈ [mutual_rulership; mutual_exaltation; mixed_reception] →
   ∃ p, perfection = Some p ∧ perf_type p = direct ∧ perf_favorable p = true)
  ∧ (reception = mutual_rulership →
     (∃ p, perfection = Some p ∧ perf_type p = direct ∧ perf_favorable p = true
           ∧ perf_confidence p = direct_with_mutual_rulership pc)
     ∧ (_identify_significators chart question_analysis
        = Significator_pair querent quesited description →
        (ignore_radicality = false → radical = false →
         ∃ j, judgment = Return j ∧ j_result j = NOT_RADICAL ∧ j_confidence j = 0%Z)
        ∧ (ignore_radicality = true ∨ radical = true →
           ¬ get_real_moon_speed (julian_day chart) == 0 →
           ∃ j, judgment = Return j ∧ j_result j = YES
                ∧ j_confidence j
                  = Z.min running (direct_with_mutual_rulership pc)))).
Proof.
  intros judgment radical running. split.
  - intros Hrec.
    destruct direct_perfection_any_reception as (p & Hp & Ht & Hf & _).
    + intros Hnone. rewrite Hnone in Hrec.
      repeat (apply elem_of_cons in Hrec as [Hrec|Hrec]; [discriminate|]).
      by apply elem_of_nil in Hrec.
    + exists p. repeat split; assumption.
  - intros Hrec.
    destruct (direct_perfection_mutual_rulership Hrec) as (p & Hp & Ht & Hf & Hc & Ha).
    split; [exists p; repeat split; assumption|].
    intros Hsig. split.
    + intros -> Hrad. unfold judgment, _apply_enhanced_judgment.
      fold radical. rewrite Hrad. cbn. eexists. split; [reflexivity|]. cbn. tauto.
    + intros Hrad Hspeed.
      assert (Hradical : negb ignore_radicality && negb radical = false).
      { destruct Hrad as [-> | ->]; [reflexivity|]. apply andb_false_r. }
      pose proof (apply_judgment_after_significators config chart
                    exaltation_confidence_boost question_analysis ignore_radicality
                    ignore_void_moon ignore_combustion ignore_saturn_7th
                    querent quesited description Hradical Hsig) as Hshape.
      cbn zeta in Hshape. fold perfection in Hshape. rewrite Hp in Hshape.
      destruct (calculate_enhanced_timing_returns chart p Hspeed) as [t Htiming].
      rewrite Htiming in Hshape. destruct Hshape as (j & Hj & Hres & Hconf).
      exists j. split; [exact Hj|]. rewrite Hres, Hconf, Hf, Hc. split; reflexivity.
Qed.

End DirectPerfection.

Lemma opposition_in_reception_premises (asc : Q)
    (solar : list (Planet * SolarAnalysis)) :
  let chart := opposition_in_reception asc solar in
  let direct_aspect :=
    {| ad_aspect := OPPOSITION; ad_orb := 5; ad_degrees_to_exact := 5 |} in
  _find_applying_aspect chart MARS VENUS = Some direct_aspect
  ∧ _enhanced_perfects_in_sign (H := spec_math 0)
      (planets chart MARS) (planets chart VENUS) direct_aspect chart = true
  ∧ _check_enhanced_mutual_reception chart MARS VENUS = mutual_rulership
  ∧ ∃ description,
      _identify_significators chart seventh_house_question
      = Significator_pair MARS VENUS description.
Proof.
  cbn zeta. split; [reflexivity|]. split; [vm_compute; reflexivity|].
  split; [reflexivity|]. eexists. vm_compute. reflexivity.
Qed.

(** The opposition in mutual rulership on a radical chart without solar
    afflictions: YES at the configured 95. *)
Lemma mutual_reception_direct_perfection_witness :
  ∃ j,
    _apply_enhanced_judgment (H := spec_math 0) (H0 := steady_moon 13)
      sample_config (opposition_in_reception 15 []) seventh_house_question
      false false false false 15 = Return j
    ∧ j_result j = YES ∧ j_confidence j = 95%Z.
Proof.
  destruct (opposition_in_reception_premises 15 [])
    as (Happlying & Hin_sign & Hreception & description & Hsig).
  destruct (mutual_reception_direct_perfection (H := spec_math 0)
              (H0 := steady_moon 13) sample_config (opposition_in_reception 15 [])
              MARS VENUS 15 _ Happlying Hin_sign seventh_house_question
              false false false false description) as [_ Hrulership].
  destruct (Hrulership Hreception) as [_ Hjudgment].
  destruct (Hjudgment Hsig) as [_ Hyes].
  destruct Hyes as (j & Hj & Hres & Hconf).
  - right. vm_compute. reflexivity.
  - intros Hq. vm_compute in Hq. discriminate.
  - exists j. split; [exact Hj|]. split; [exact Hres|]. rewrite Hconf. reflexivity.
Defined.

(** C2 as stated fails.  On both charts the significators Mars and Venus
    have an applying direct aspect that perfects in sign, in mutual
    rulership; yet with the ascendant at 1 degree the judgment is NOT
    RADICAL, and on the radical chart with Mercury combust it is YES at 90,
    not at the configured 95. *)
Lemma reception_does_not_fix_the_judgment :
  let judge chart :=
    _apply_enhanced_judgment (H := spec_math 0) (H0 := steady_moon 13)
      sample_config chart seventh_house_question false false false false 15 in
  let premises chart :=
    (∃ direct_aspect,
       _find_applying_aspect chart MARS VENUS = Some direct_aspect
       ∧ _enhanced_perfects_in_sign (H := spec_math 0)
           (planets chart MARS) (planets chart VENUS) direct_aspect chart = true)
    ∧ _check_enhanced_mutual_reception chart MARS VENUS = mutual_rulership
    ∧ ∃ description,
        _identify_significators chart seventh_house_question
        = Significator_pair MARS VENUS description in
  direct_with_mutual_rulership (conf_perfection (cfg_confidence sample_config)) = 95%Z
  ∧ premises (opposition_in_reception 1 [])
  ∧ (∃ j, judge (opposition_in_reception 1 []) = Return j
          ∧ j_result j = NOT_RADICAL ∧ j_confidence j = 0%Z)
  ∧ premises (opposition_in_reception 15 mercury_combust)
  ∧ (∃ j, judge (opposition_in_reception 15 mercury_combust) = Return j
          ∧ j_result j = YES ∧ j_confidence j = 90%Z)
  ∧ ¬ (∀ chart, premises chart →
         ∃ j, judge chart = Return j ∧ j_result j = YES ∧ j_confidence j = 95%Z).
Proof.
  intros judge premises.
  assert (Hpremises : ∀ asc solar, premises (opposition_in_reception asc solar)).
  { intros asc solar.
    destruct (opposition_in_reception_premises asc solar) as (Ha & Hs & Hr & Hd).
    split; [eexists; split; [exact Ha | exact Hs]|]. split; [exact Hr | exact Hd]. }
  assert (Hearly : ∃ j, judge (opposition_in_reception 1 []) = Return j
                        ∧ j_result j = NOT_RADICAL ∧ j_confidence j = 0%Z).
  { assert (Hrun : match judge (opposition_in_reception 1 []) with
                   | Return j => j_result j = NOT_RADICAL ∧ j_confidence j = 0%Z
                   | Raise _ => False
                   end) by (vm_compute; split; reflexivity).
    destruct (judge (opposition_in_reception 1 [])) as [j|e]; [|contradiction].
    exists j. split; [reflexivity|exact Hrun]. }
  assert (Hcombust : ∃ j, judge (opposition_in_reception 15 mercury_combust) = Return j
                          ∧ j_result j = YES ∧ j_confidence j = 90%Z).
  { assert (Hrun : match judge (opposition_in_reception 15 mercury_combust) with
                   | Return j => j_result j = YES ∧ j_confidence j = 90%Z
                   | Raise _ => False
                   end) by (vm_compute; split; reflexivity).
    destruct (judge (opposition_in_reception 15 mercury_combust)) as [j|e];
      [|contradiction].
    exists j. split; [reflexivity|exact Hrun]. }
  split; [reflexivity|]. split; [apply Hpremises|]. split; [exact Hearly|].
  split; [apply Hpremises|]. split; [exact Hcombust|].
  intros Hall.
  destruct (Hall (opposition_in_reception 1 []) (Hpremises _ _)) as (j & Hj & Hyes & _).
  destruct Hearly as (j' & Hj' & Hnr & _).
  rewrite Hj in Hj'. simplify_eq. rewrite Hyes in Hnr. discriminate.
Qed.

(* ===================================================================== *)
(** * Part III: further properties of the calculator and the judgment *)
(* ===================================================================== *)

(** ** Reduction to the circle *)

Lemma Qfloor_unique (x : Q) (n : Z) :
  inject_Z n <= x → x < inject_Z (n + 1) → Qfloor x = n.
Proof.
  intros Hlo Hhi.
  pose proof (Qfloor_le x) as Hfl. pose proof (Qlt_floor x) as Hfu.
  assert (H1 : (Qfloor x < n + 1)%Z).
  { rewrite Zlt_Qlt. lra. }
  assert (H2 : (n < Qfloor x + 1)%Z).
  { rewrite Zlt_Qlt. lra. }
  lia.
Qed.

Lemma fmod_range (x m : Q) : 0 < m → 0 <= fmod x m ∧ fmod x m < m.
Proof.
  intros Hm. unfold fmod.
  pose proof (Qfloor_le (x / m)) as Hlo. pose proof (Qlt_floor (x / m)) as Hhi.
  rewrite inject_Z_plus in Hhi. change (inject_Z 1) with 1 in Hhi.
  assert (Hx : x == m * (x / m)) by (field; lra).
  set (f := inject_Z (Qfloor (x / m))) in *.
  split.
  - assert (m * f <= m * (x / m)) by (apply Qmult_le_l; lra). lra.
  - assert (m * (x / m) < m * (f + 1)) by (apply Qmult_lt_l; lra). lra.
Qed.

Lemma fmod_small (x m : Q) : 0 <= x → x < m → fmod x m == x.
Proof.
  intros H0 Hm. unfold fmod.
  assert (Hpos : 0 < m) by lra.
  rewrite (Qfloor_unique (x / m) 0).
  - change (inject_Z 0) with 0. ring.
  - change (inject_Z 0) with 0. apply Qle_shift_div_l; lra.
  - change (inject_Z (0 + 1)) with 1. apply Qlt_shift_div_r; lra.
Qed.

Lemma fmod_proper (x y m : Q) : x == y → fmod x m == fmod y m.
Proof.
  intros Hxy. unfold fmod.
  assert (Hf : Qfloor (x / m) = Qfloor (y / m))
    by (apply Qfloor_comp; rewrite Hxy; reflexivity).
  rewrite Hf, Hxy. reflexivity.
Qed.

(** Whole turns do not change the reduced longitude. *)
Lemma fmod_add_turns (x m : Q) (k : Z) :
  0 < m → fmod (x + m * inject_Z k) m == fmod x m.
Proof.
  intros Hm. unfold fmod.
  assert (Hf : Qfloor ((x + m * inject_Z k) / m) = (Qfloor (x / m) + k)%Z).
  { apply Qfloor_unique.
    - rewrite inject_Z_plus. pose proof (Qfloor_le (x / m)).
      assert (Heq : (x + m * inject_Z k) / m == x / m + inject_Z k) by (field; lra).
      rewrite Heq. lra.
    - rewrite !inject_Z_plus. pose proof (Qlt_floor (x / m)) as Hlt.
      rewrite inject_Z_plus in Hlt.
      assert (Heq : (x + m * inject_Z k) / m == x / m + inject_Z k) by (field; lra).
      rewrite Heq. lra. }
  rewrite Hf, inject_Z_plus. ring.
Qed.

(** ** Signs *)

Lemma get_sign_span (longitude : Q) :
  in_sign_span (_get_sign longitude) (fmod longitude 360).
Proof.
  unfold _get_sign, in_sign_span.
  destruct (fmod_range longitude 360 ltac:(lra)) as [H0 H360].
  set (l := fmod longitude 360) in *.
  cbn [all_signs List.find sign_start_degree].
  repeat match goal with
  | |- context [if ?c then _ else _] =>
      qcase c; [cbn [default from_option id sign_start_degree]; split; lra|]
  end.
  exfalso. cbn [sign_start_degree] in *. qsplit; lra.
Qed.

Lemma sign_spans_disjoint (s s' : Sign) (l : Q) :
  in_sign_span s l → in_sign_span s' l → s = s'.
Proof.
  unfold in_sign_span. intros [H1 H2] [H3 H4].
  destruct s, s'; try reflexivity; exfalso; cbn in *; lra.
Qed.

Lemma in_sign_span_proper (s : Sign) (l l' : Q) :
  l == l' → in_sign_span s l → in_sign_span s l'.
Proof. unfold in_sign_span. intros Heq [H1 H2]. split; lra. Qed.

(** X1. [_get_sign] returns the one sign whose 30 degree span holds the
    longitude reduced to the circle, so its Pisces default is never what
    decides, and adding whole turns to a longitude does not change its
    sign. *)
Theorem get_sign_is_the_containing_sign (longitude : Q) (k : Z) :
  in_sign_span (_get_sign longitude) (fmod longitude 360)
  ∧ (∀ s, in_sign_span s (fmod longitude 360) → _get_sign longitude = s)
  ∧ _get_sign (longitude + 360 * inject_Z k) = _get_sign longitude.
Proof.
  split; [apply get_sign_span|]. split.
  - intros s Hs. apply (sign_spans_disjoint _ _ (fmod longitude 360));
      [apply get_sign_span | exact Hs].
  - apply (sign_spans_disjoint _ _ (fmod longitude 360)); [|apply get_sign_span].
    apply (in_sign_span_proper _ (fmod (longitude + 360 * inject_Z k) 360));
      [apply fmod_add_turns; lra | apply get_sign_span].
Qed.

(** ** Dignity tables and the dignity score *)

(** X2. The tables of the calculator are the mirror images their comments
    say they are: a planet's fall is the sign opposite its exaltation, and
    its detriments are exactly the signs opposite the ones it rules; hence
    no placement is scored both as rulership and detriment, or both as
    exaltation and fall. *)
Theorem dignity_tables_are_opposed (p : Planet) (s : Sign) :
  sign_start_degree (opposite_sign s) == fmod (sign_start_degree s + 180) 360
  ∧ falls p = opposite_sign (exaltations p)
  ∧ (member s (detriment_signs p) = true ↔ sign_ruler (opposite_sign s) = p)
  ∧ ¬ (sign_ruler s = p ∧ member s (detriment_signs p) = true)
  ∧ ¬ (exaltations p = s ∧ falls p = s).
Proof.
  split; [destruct s; vm_compute; reflexivity|].
  split; [destruct p; reflexivity|].
  split; [destruct p, s; cbn; split; intros Hx; first [reflexivity | discriminate]|].
  split; destruct p, s; cbn; intros [Ha Hb]; discriminate.
Qed.

Section DignityFacts.
Context `{HoraryMath}.
Variable check_exception :
  Planet → PlanetPosition → PlanetPosition → Q → Q → Q → bool.
Variable config : Config.
Variable dc : DignityConfig.
Variables (planet : Planet) (planet_pos sun_pos : PlanetPosition).
Variables lat lon jd_ut : Q.

Let analysis :=
  analyze_solar_condition_with check_exception config planet planet_pos sun_pos
    lat lon jd_ut.

Lemma solar_analysis_flags :
  (sa_traditional_exception analysis = true → sa_condition analysis = FREE)
  ∧ (sa_exact_cazimi analysis = true → sa_condition analysis = CAZIMI)
  ∧ sa_planet analysis = planet.
Proof.
  unfold analysis, analyze_solar_condition_with.
  repeat match goal with
  | |- context [if ?c then _ else _] => destruct c
  end; cbn; repeat split; intros; congruence.
Qed.

(** X3. On an analysis produced by the solar analyzer, the exception flag
    is only ever set together with the condition FREE, so the two exception
    guards of the dignity score never fire: the score is the sign and house
    score plus the cazimi bonus, minus the combustion or under-beams
    penalty, according to the condition alone. *)
Theorem dignity_of_analysed_planet (sign : Sign) (house : Z) :
  (sa_traditional_exception analysis = true → sa_condition analysis = FREE)
  ∧ _calculate_enhanced_dignity config dc planet sign house (Some analysis)
    = (essential_score dc planet sign house
       + match sa_condition analysis with
         | CAZIMI =>
             if sa_exact_cazimi analysis then dg_exact_cazimi_bonus dc
             else solar_cazimi_bonus (cfg_confidence config)
         | COMBUSTION => - solar_combustion_penalty (cfg_confidence config)
         | UNDER_BEAMS => - dg_under_beams_penalty dc
         | FREE => 0
         end)%Z.
Proof.
  destruct solar_analysis_flags as (Hexc & _ & _).
  split; [exact Hexc|].
  unfold _calculate_enhanced_dignity.
  destruct (sa_condition analysis) eqn:Hc.
  - destruct (sa_exact_cazimi analysis); lia.
  - destruct (sa_traditional_exception analysis);
      [specialize (Hexc eq_refl); discriminate | cbn; lia].
  - destruct (sa_traditional_exception analysis);
      [specialize (Hexc eq_refl); discriminate | cbn; lia].
  - lia.
Qed.

End DignityFacts.

(** ** Aspects between the planets *)

#[global] Instance Qlt_bool_proper : Proper (Qeq ==> Qeq ==> eq) Qlt_bool.
Proof. intros x x' Hx y y' Hy. unfold Qlt_bool. rewrite Hx, Hy. reflexivity. Qed.

#[global] Instance angular_separation_proper :
  Proper (Qeq ==> Qeq ==> Qeq) angular_separation.
Proof.
  intros x x' Hx y y' Hy. unfold angular_separation.
  assert (Hs : Qabs (x - y) == Qabs (x' - y')) by (rewrite Hx, Hy; reflexivity).
  assert (Hc : (Qabs (x - y) >? 180) = (Qabs (x' - y') >? 180))
    by (apply Qlt_bool_proper; [reflexivity | exact Hs]).
  rewrite Hc. destruct (Qabs (x' - y') >? 180); [rewrite Hs; reflexivity | exact Hs].
Qed.

Lemma angular_separation_sym (x y : Q) :
  angular_separation x y == angular_separation y x.
Proof.
  unfold angular_separation.
  assert (Hs : Qabs (x - y) == Qabs (y - x)).
  { rewrite <- (Qabs_opp (x - y)). apply Qabs_wd. ring. }
  assert (Hc : (Qabs (x - y) >? 180) = (Qabs (y - x) >? 180))
    by (apply Qlt_bool_proper; [reflexivity | exact Hs]).
  rewrite Hc. destruct (Qabs (y - x) >? 180); [rewrite Hs; reflexivity | exact Hs].
Qed.

Lemma degrees_to_exact_at_least_tenth (pos1 pos2 : PlanetPosition)
    (aspect : Aspect) :
  1 # 10 <= _calculate_enhanced_degrees_to_exact pos1 pos2 aspect.
Proof.
  unfold _calculate_enhanced_degrees_to_exact.
  match goal with |- context [if ?c then _ else _] => qcase c end; lra.
Qed.

(** X4. The degrees to exact are never below a tenth of a degree, are the
    orb from the exact aspect whenever that orb is at least a tenth, and do
    not depend on the order of the two bodies. *)
Theorem degrees_to_exact_floor (pos1 pos2 : PlanetPosition) (aspect : Aspect) :
  let orb :=
    Qabs (angular_separation (pp_longitude pos1) (pp_longitude pos2)
          - aspect_degrees aspect) in
  1 # 10 <= _calculate_enhanced_degrees_to_exact pos1 pos2 aspect
  ∧ orb <= _calculate_enhanced_degrees_to_exact pos1 pos2 aspect
  ∧ (1 # 10 <= orb → _calculate_enhanced_degrees_to_exact pos1 pos2 aspect = orb)
  ∧ _calculate_enhanced_degrees_to_exact pos1 pos2 aspect
    == _calculate_enhanced_degrees_to_exact pos2 pos1 aspect.
Proof.
  intros orb. unfold _calculate_enhanced_degrees_to_exact. fold orb.
  assert (Hsym : Qabs (angular_separation (pp_longitude pos2) (pp_longitude pos1)
                       - aspect_degrees aspect) == orb).
  { unfold orb. rewrite (angular_separation_sym (pp_longitude pos2)). reflexivity. }
  split; [qcase (orb <? 1 # 10); lra|].
  split; [qcase (orb <? 1 # 10); lra|].
  split; [intros Hbig; qcase (orb <? 1 # 10); [lra|reflexivity]|].
  set (orb' := Qabs (angular_separation (pp_longitude pos2) (pp_longitude pos1)
                     - aspect_degrees aspect)) in *.
  assert (Hc : (orb' <? 1 # 10) = (orb <? 1 # 10))
    by (apply Qlt_bool_proper; [exact Hsym | reflexivity]).
  rewrite Hc. destruct (orb <? 1 # 10); [reflexivity | symmetry; exact Hsym].
Qed.

Section AspectFacts.
Context `{HoraryMath}.
Variable config : Config.
Variable ao : AspectOrbs.
Variable planets : Planet → PlanetPosition.
Variable jd_ut : Q.

Let computed := _calculate_enhanced_aspects config ao planets jd_ut.

Lemma aspect_between_spec (planet1 planet2 : Planet) (a : AspectInfo) :
  aspect_between config ao planets jd_ut planet1 planet2 = Some a →
  ai_planet1 a = planet1 ∧ ai_planet2 a = planet2
  ∧ ai_orb a
    = Qabs (angular_separation (pp_longitude (planets planet1))
              (pp_longitude (planets planet2)) - aspect_degrees (ai_aspect a))
  ∧ ai_orb a <= max_orb_for ao planet1 planet2 (ai_aspect a)
  ∧ ai_applying a
    = _is_applying_enhanced config (planets planet1) (planets planet2)
        (ai_aspect a) jd_ut
  ∧ ai_degrees_to_exact a
    = _calculate_enhanced_degrees_to_exact (planets planet1) (planets planet2)
        (ai_aspect a).
Proof.
  unfold aspect_between. intros Ha.
  destruct (List.find _ all_aspects) as [t|] eqn:Hfind; [|discriminate].
  cbn in Ha. injection Ha as <-. cbn.
  apply List.find_some in Hfind as [_ Horb]. apply Qle_bool_iff in Horb.
  repeat split; try reflexivity. exact Horb.
Qed.

Lemma computed_aspect_pair (a : AspectInfo) :
  a ∈ computed →
  (ai_planet1 a, ai_planet2 a) ∈ pairs_in_order planet_order
  ∧ aspect_between config ao planets jd_ut (ai_planet1 a) (ai_planet2 a) = Some a.
Proof.
  unfold computed, _calculate_enhanced_aspects.
  rewrite list_elem_of_In, in_flat_map.
  intros ([p1 p2] & Hpair & Hin).
  destruct (aspect_between config ao planets jd_ut p1 p2) as [a'|] eqn:Hb;
    [|destruct Hin].
  destruct Hin as [<-|[]].
  destruct (aspect_between_spec p1 p2 a' Hb) as (-> & -> & _).
  split; [by apply list_elem_of_In | exact Hb].
Qed.

Lemma pairs_in_order_one_way (p q : Planet) :
  (p, q) ∈ pairs_in_order planet_order →
  p ≠ q ∧ (q, p) ∉ pairs_in_order planet_order.
Proof.
  intros Hin. cbn in Hin.
  repeat (apply elem_of_cons in Hin as [Hin|Hin];
          [injection Hin as -> ->; split; [discriminate|];
           intros Hrev; cbn in Hrev;
           repeat (apply elem_of_cons in Hrev as [Hrev|Hrev]; [discriminate|]);
           by apply elem_of_nil in Hrev|]).
  by apply elem_of_nil in Hin.
Qed.

(** X5. Every computed aspect joins two different planets, the first
    earlier in the planet order, with an orb within the configured orb of
    its type (luminary bonuses included) and at least a tenth of a degree
    to exact; and no two computed aspects join the same two planets, in
    either order. *)
Theorem computed_aspects_one_per_pair (a : AspectInfo) :
  a ∈ computed →
  ((ai_planet1 a, ai_planet2 a) ∈ pairs_in_order planet_order
   ∧ ai_planet1 a ≠ ai_planet2 a)
  ∧ ai_orb a <= max_orb_for ao (ai_planet1 a) (ai_planet2 a) (ai_aspect a)
  ∧ 1 # 10 <= ai_degrees_to_exact a
  ∧ ∀ b, b ∈ computed →
      (ai_planet1 b = ai_planet1 a ∧ ai_planet2 b = ai_planet2 a)
      ∨ (ai_planet1 b = ai_planet2 a ∧ ai_planet2 b = ai_planet1 a) →
      b = a.
Proof.
  intros Ha.
  destruct (computed_aspect_pair a Ha) as [Hpair Hbetween].
  destruct (pairs_in_order_one_way _ _ Hpair) as [Hne Hrev].
  destruct (aspect_between_spec _ _ a Hbetween) as (_ & _ & _ & Horb & _ & Hdeg).
  split; [split; assumption|]. split; [exact Horb|]. split.
  - rewrite Hdeg. apply degrees_to_exact_at_least_tenth.
  - intros b Hb Hsame.
    destruct (computed_aspect_pair b Hb) as [Hpair_b Hbetween_b].
    destruct Hsame as [[H1 H2]|[H1 H2]].
    + rewrite H1, H2 in Hbetween_b. congruence.
    + rewrite H1, H2 in Hpair_b. contradiction.
Qed.

End AspectFacts.

(** A Venus-Mars opposition among the aspects computed for the sample
    chart. *)
Lemma computed_aspects_one_per_pair_witness :
  let computed :=
    _calculate_enhanced_aspects (H := spec_math 0) sample_config sample_orbs
      (planets (opposition_in_reception 15 [])) 0 in
  ∃ a, a ∈ computed ∧ ai_planet1 a = VENUS ∧ ai_planet2 a = MARS
       ∧ ai_aspect a = OPPOSITION ∧ ai_planet1 a ≠ ai_planet2 a
       ∧ 1 # 10 <= ai_degrees_to_exact a.
Proof.
  intros computed.
  set (a := {| ai_planet1 := VENUS; ai_planet2 := MARS; ai_aspect := OPPOSITION;
               ai_orb := 5; ai_applying := true; ai_degrees_to_exact := 5 |}).
  assert (Hin : a ∈ computed).
  { apply (list_elem_of_lookup_2 _ 8%nat). vm_compute. reflexivity. }
  destruct (computed_aspects_one_per_pair (H := spec_math 0) sample_config
              sample_orbs (planets (opposition_in_reception 15 [])) 0 a Hin)
    as ((_ & Hne) & _ & Hdeg & _).
  exists a. repeat split; assumption.
Defined.

(** ** The Moon's last and next aspect *)

Lemma days_lt_irrefl (a : days) : days_lt a a = false.
Proof. destruct a; cbn; [apply Qlt_bool_false_iff; lra | reflexivity]. Qed.

Lemma days_not_lt_trans (a b c : days) :
  days_lt b a = false → days_lt c b = false → days_lt c a = false.
Proof.
  destruct a, b, c; cbn; intros H1 H2; try reflexivity; try discriminate;
    qbool; apply Qlt_bool_false_iff; lra.
Qed.

Lemma days_lt_not_gt (a b : days) : days_lt a b = true → days_lt b a = false.
Proof.
  destruct a, b; cbn; intros H1; try reflexivity; try discriminate;
    qbool; apply Qlt_bool_false_iff; lra.
Qed.

Section MinByDays.
Context {A : Type}.
Variable key : A → days.

Lemma min_by_days_in (best : A) (l : list A) :
  min_by_days key best l ∈ best :: l.
Proof.
  revert best. induction l as [|x rest IH]; intros best; cbn.
  - apply list_elem_of_here.
  - destruct (days_lt (key x) (key best)).
    + apply list_elem_of_further. apply IH.
    + specialize (IH best). apply elem_of_cons in IH as [->|IH].
      * apply list_elem_of_here.
      * by do 2 apply list_elem_of_further.
Qed.

Lemma min_by_days_least (best : A) (l : list A) (x : A) :
  x ∈ best :: l → days_lt (key x) (key (min_by_days key best l)) = false.
Proof.
  revert best x. induction l as [|y rest IH]; intros best x Hx; cbn.
  - apply elem_of_cons in Hx as [->|Hx]; [apply days_lt_irrefl|].
    by apply elem_of_nil in Hx.
  - destruct (days_lt (key y) (key best)) eqn:E.
    + apply elem_of_cons in Hx as [->|Hx]; [|by apply IH].
      apply (days_not_lt_trans _ (key y)).
      * apply IH. apply list_elem_of_here.
      * by apply days_lt_not_gt.
    + apply elem_of_cons in Hx as [->|Hx];
        [apply IH; apply list_elem_of_here|].
      apply elem_of_cons in Hx as [->|Hx];
        [|apply IH; by apply list_elem_of_further].
      apply (days_not_lt_trans _ (key best)); [|exact E].
      apply IH. apply list_elem_of_here.
Qed.

End MinByDays.

Lemma moon_orbs_at_rest (moon_pos planet_pos : PlanetPosition) (aspect : Aspect)
    (moon_speed : Q) :
  longitude_in_circle moon_pos → moon_speed == 0 →
  (moon_orbs moon_pos planet_pos aspect moon_speed).2
  == (moon_orbs moon_pos planet_pos aspect moon_speed).1.
Proof.
  intros [H0 H360] Hspeed. unfold moon_orbs. cbn [fst snd].
  assert (Hlon : fmod (pp_longitude moon_pos + moon_speed * (1 # 10)) 360
                 == pp_longitude moon_pos).
  { rewrite <- (fmod_small (pp_longitude moon_pos) 360 H0 H360) at 2.
    apply fmod_proper. rewrite Hspeed. ring. }
  rewrite Hlon. reflexivity.
Qed.

Lemma moon_not_applying_and_separating
    (moon_pos planet_pos : PlanetPosition) (aspect : Aspect) (moon_speed : Q) :
  _is_moon_applying_to_aspect moon_pos planet_pos aspect moon_speed = true →
  _is_moon_separating_from_aspect moon_pos planet_pos aspect moon_speed = true →
  False.
Proof.
  unfold _is_moon_applying_to_aspect, _is_moon_separating_from_aspect.
  destruct (moon_orbs moon_pos planet_pos aspect moon_speed) as [c f].
  intros Ha Hs. qbool. lra.
Qed.

Lemma moon_at_rest_neither
    (moon_pos planet_pos : PlanetPosition) (aspect : Aspect) (moon_speed : Q) :
  longitude_in_circle moon_pos → moon_speed == 0 →
  _is_moon_applying_to_aspect moon_pos planet_pos aspect moon_speed = false
  ∧ _is_moon_separating_from_aspect moon_pos planet_pos aspect moon_speed = false.
Proof.
  intros Hcircle Hspeed.
  unfold _is_moon_applying_to_aspect, _is_moon_separating_from_aspect.
  pose proof (moon_orbs_at_rest moon_pos planet_pos aspect moon_speed
                Hcircle Hspeed) as Heq.
  destruct (moon_orbs moon_pos planet_pos aspect moon_speed) as [c f].
  cbn [fst snd] in Heq. split; apply Qlt_bool_false_iff; lra.
Qed.

(** X6. The Moon is never found both applying to and separating from the
    same aspect of the same planet; and a Moon on the circle that the
    ephemeris reports at zero speed is found doing neither. *)
Theorem moon_applying_excludes_separating
    (moon_pos planet_pos : PlanetPosition) (aspect : Aspect) (moon_speed : Q) :
  ¬ (_is_moon_applying_to_aspect moon_pos planet_pos aspect moon_speed = true
     ∧ _is_moon_separating_from_aspect moon_pos planet_pos aspect moon_speed = true)
  ∧ (longitude_in_circle moon_pos → moon_speed == 0 →
     _is_moon_applying_to_aspect moon_pos planet_pos aspect moon_speed = false
     ∧ _is_moon_separating_from_aspect moon_pos planet_pos aspect moon_speed = false).
Proof.
  split.
  - intros [Ha Hs]. exact (moon_not_applying_and_separating _ _ _ _ Ha Hs).
  - apply moon_at_rest_neither.
Qed.

Section MoonAspectFacts.
Context `{Ephemeris}.
Variable ao : AspectOrbs.
Variable planets : Planet → PlanetPosition.
Variable jd_ut : Q.

Let moon_speed := get_real_moon_speed jd_ut.
Let separation (planet : Planet) :=
  angular_separation (pp_longitude (planets MOON)) (pp_longitude (planets planet)).

Lemma applying_moon_aspect_spec (la : LunarAspect) :
  la ∈ applying_moon_aspects ao planets moon_speed →
  la_planet la ≠ MOON
  ∧ la_applying la = true
  ∧ la_orb la = Qabs (separation (la_planet la) - aspect_degrees (la_aspect la))
  ∧ la_orb la <= aspect_orb ao (la_aspect la)
  ∧ la_degrees_difference la = la_orb la
  ∧ _is_moon_applying_to_aspect (planets MOON) (planets (la_planet la))
      (la_aspect la) moon_speed = true.
Proof.
  unfold applying_moon_aspects.
  rewrite list_elem_of_In, in_flat_map. intros (planet & _ & Hin).
  destruct (bool_decide (planet = MOON)) eqn:Hmoon; [destruct Hin|].
  apply bool_decide_eq_false in Hmoon.
  apply in_flat_map in Hin as (aspect_type & _ & Hin).
  destruct (_ && _) eqn:Hcond in Hin; [|destruct Hin].
  destruct Hin as [<-|[]]. cbn.
  apply andb_true_iff in Hcond as [Horb Happ]. apply Qle_bool_iff in Horb.
  repeat split; try assumption; reflexivity.
Qed.

Lemma separating_moon_candidate_spec (planet : Planet) (aspect_type : Aspect)
    (orb_diff : Q) :
  (planet, aspect_type, orb_diff) ∈ separating_moon_candidates ao planets moon_speed →
  planet ≠ MOON
  ∧ orb_diff = Qabs (separation planet - aspect_degrees aspect_type)
  ∧ orb_diff <= aspect_orb ao aspect_type * (3 # 2)
  ∧ _is_moon_separating_from_aspect (planets MOON) (planets planet)
      aspect_type moon_speed = true.
Proof.
  unfold separating_moon_candidates.
  rewrite list_elem_of_In, in_flat_map. intros (planet' & _ & Hin).
  destruct (bool_decide (planet' = MOON)) eqn:Hmoon; [destruct Hin|].
  apply bool_decide_eq_false in Hmoon.
  apply in_flat_map in Hin as (aspect' & _ & Hin).
  destruct (_ && _) eqn:Hcond in Hin; [|destruct Hin].
  destruct Hin as [Heq|[]]. injection Heq as -> -> <-.
  apply andb_true_iff in Hcond as [Horb Hsep]. apply Qle_bool_iff in Horb.
  repeat split; assumption.
Qed.

Lemma moon_next_aspect_in (la : LunarAspect) :
  _calculate_moon_next_aspect ao planets jd_ut = Some la →
  la ∈ applying_moon_aspects ao planets moon_speed.
Proof.
  unfold _calculate_moon_next_aspect. fold moon_speed.
  destruct (applying_moon_aspects ao planets moon_speed) as [|first rest]; cbn.
  - intros [=].
  - intros [= <-]. apply min_by_days_in.
Qed.

(** X7. The next lunar aspect, when there is one, is an aspect of another
    planet that the Moon is within the configured orb of and applying to,
    with the least time to exact among all such aspects; there is none
    exactly when the Moon applies to no aspect within orb. *)
Theorem moon_next_aspect_is_soonest :
  (_calculate_moon_next_aspect ao planets jd_ut = None ↔
   applying_moon_aspects ao planets moon_speed = [])
  ∧ ∀ la, _calculate_moon_next_aspect ao planets jd_ut = Some la →
      la ∈ applying_moon_aspects ao planets moon_speed
      ∧ la_planet la ≠ MOON
      ∧ la_applying la = true
      ∧ la_orb la <= aspect_orb ao (la_aspect la)
      ∧ _is_moon_applying_to_aspect (planets MOON) (planets (la_planet la))
          (la_aspect la) moon_speed = true
      ∧ ∀ other, other ∈ applying_moon_aspects ao planets moon_speed →
          days_lt (la_perfection_eta_days other) (la_perfection_eta_days la) = false.
Proof.
  unfold _calculate_moon_next_aspect. fold moon_speed.
  destruct (applying_moon_aspects ao planets moon_speed) as [|first rest] eqn:Hl; cbn.
  - split; [tauto|]. intros la [=].
  - split; [split; discriminate|]. intros la [= <-].
    pose proof (min_by_days_in la_perfection_eta_days first rest) as Hin.
    rewrite <- Hl in Hin.
    destruct (applying_moon_aspect_spec _ Hin) as (Hp & Ha & _ & Ho & _ & Happ).
    rewrite Hl in Hin.
    repeat split; try assumption.
    intros other Hother. by apply min_by_days_least.
Qed.

(** X8. The last lunar aspect never divides by a zero Moon speed when the
    Moon is on the circle: the search always returns.  What it returns,
    when there is one, is an aspect of another planet within one and a half
    times the configured orb that the Moon is separating from, flagged as
    not applying; in particular it is never the planet and aspect of the
    next lunar aspect. *)
Theorem moon_last_aspect_returns :
  longitude_in_circle (planets MOON) →
  (∃ r, _calculate_moon_last_aspect ao planets jd_ut = Return r)
  ∧ ∀ la, _calculate_moon_last_aspect ao planets jd_ut = Return (Some la) →
      la_planet la ≠ MOON
      ∧ la_applying la = false
      ∧ la_orb la <= aspect_orb ao (la_aspect la) * (3 # 2)
      ∧ _is_moon_separating_from_aspect (planets MOON) (planets (la_planet la))
          (la_aspect la) moon_speed = true
      ∧ ∀ next, _calculate_moon_next_aspect ao planets jd_ut = Some next →
          (la_planet next, la_aspect next) ≠ (la_planet la, la_aspect la).
Proof.
  intros Hcircle.
  unfold _calculate_moon_last_aspect. fold moon_speed.
  destruct (separating_moon_candidates ao planets moon_speed)
    as [|first rest] eqn:Hl.
  { split; [eexists; reflexivity | intros la [=]]. }
  assert (Hfirst : first ∈ separating_moon_candidates ao planets moon_speed)
    by (rewrite Hl; apply list_elem_of_here).
  destruct first as [[p0 a0] o0].
  destruct (separating_moon_candidate_spec _ _ _ Hfirst) as (_ & _ & _ & Hsep0).
  destruct (moon_speed =? 0) eqn:Hz.
  { exfalso. apply Qeq_bool_iff in Hz.
    destruct (moon_at_rest_neither (planets MOON) (planets p0) a0 moon_speed
                Hcircle Hz) as [_ Hno]. congruence. }
  split; [eexists; reflexivity|].
  intros la [= <-].
  match goal with
  | |- context [min_by_days ?key ?best ?l] =>
      pose proof (min_by_days_in key best l) as Hin;
      change (best :: l)
        with ((λ '(planet, aspect_type, orb_diff),
                 {| la_planet := planet; la_aspect := aspect_type;
                    la_orb := orb_diff; la_degrees_difference := orb_diff;
                    la_perfection_eta_days := Finite (orb_diff / moon_speed);
                    la_perfection_eta_description :=
                      [Float1 (orb_diff / moon_speed); Lit " days ago"];
                    la_applying := false |}) <$> ((p0, a0, o0) :: rest)) in Hin
  end.
  apply list_elem_of_fmap in Hin as ([[p a] o] & Heq & Hcand).
  rewrite <- Hl in Hcand.
  destruct (separating_moon_candidate_spec _ _ _ Hcand) as (Hp & _ & Ho & Hsep).
  rewrite Heq. cbn.
  repeat split; try assumption.
  intros next Hnext Hsame. injection Hsame as Hpl Has.
  apply moon_next_aspect_in in Hnext.
  destruct (applying_moon_aspect_spec _ Hnext) as (_ & _ & _ & _ & _ & Happ).
  rewrite Hpl, Has in Happ.
  exact (moon_not_applying_and_separating _ _ _ _ Happ Hsep).
Qed.

End MoonAspectFacts.

(** On the sample chart, with the Moon moving thirteen degrees a day, the
    last aspect is the square of Saturn and the next one the sextile of
    Mercury. *)
Lemma moon_last_aspect_returns_witness :
  longitude_in_circle (moon_applying_planets MOON)
  ∧ ∃ la next,
      _calculate_moon_last_aspect (H := steady_moon 13) sample_orbs
        moon_applying_planets 0 = Return (Some la)
      ∧ _calculate_moon_next_aspect (H := steady_moon 13) sample_orbs
          moon_applying_planets 0 = Some next
      ∧ la_planet la = SATURN ∧ la_planet next = MERCURY
      ∧ la_applying la = false
      ∧ (la_planet next, la_aspect next) ≠ (la_planet la, la_aspect la).
Proof.
  assert (Hcircle : longitude_in_circle (moon_applying_planets MOON))
    by (split; vm_compute; [discriminate | reflexivity]).
  split; [exact Hcircle|].
  destruct (moon_last_aspect_returns (H := steady_moon 13) sample_orbs
              moon_applying_planets 0 Hcircle) as [_ Hspec].
  destruct (_calculate_moon_last_aspect (H := steady_moon 13) sample_orbs
              moon_applying_planets 0) as [[la|]|e] eqn:Hlast;
    [|vm_compute in Hlast; discriminate..].
  destruct (_calculate_moon_next_aspect (H := steady_moon 13) sample_orbs
              moon_applying_planets 0) as [next|] eqn:Hnext;
    [|vm_compute in Hnext; discriminate].
  destruct (Hspec la eq_refl) as (_ & Happ & _ & _ & Hdiff).
  exists la, next. repeat split; try assumption.
  - vm_compute in Hlast. injection Hlast as <-. reflexivity.
  - vm_compute in Hnext. injection Hnext as <-. reflexivity.
  - apply Hdiff. reflexivity.
Defined.

(** ** Applying aspects and receptions between two planets *)

Lemma head_flat_map_filter {A} (keep : A → bool) (l : list A) (x : A) :
  head (flat_map (λ a, if keep a then [a] else []) l) = Some x →
  x ∈ l ∧ keep x = true.
Proof.
  induction l as [|a l IH]; cbn; [intros [=]|].
  destruct (keep a) eqn:Hk; cbn.
  - intros [= <-]. split; [apply list_elem_of_here | assumption].
  - intros Hx. destruct (IH Hx). split; [by apply list_elem_of_further | assumption].
Qed.

Lemma head_flat_map_filter_none {A} (keep : A → bool) (l : list A) :
  head (flat_map (λ a, if keep a then [a] else []) l) = None ↔
  ∀ a, a ∈ l → keep a = false.
Proof.
  induction l as [|a l IH]; cbn.
  - split; [intros _ a Ha; by apply elem_of_nil in Ha | reflexivity].
  - destruct (keep a) eqn:Hk; cbn.
    + split; [intros [=]|]. intros Hall.
      specialize (Hall a (list_elem_of_here _ _)). congruence.
    + rewrite IH. split.
      * intros Hall b Hb. apply elem_of_cons in Hb as [->|Hb]; auto.
      * intros Hall b Hb. apply Hall. by apply list_elem_of_further.
Qed.

Lemma applying_between_sym (planet1 planet2 : Planet) (aspect : AspectInfo) :
  applying_between planet1 planet2 aspect = applying_between planet2 planet1 aspect.
Proof. unfold applying_between. by rewrite orb_comm. Qed.

Lemma find_applying_aspect_some (chart : HoraryChart) (planet1 planet2 : Planet)
    (found : AspectDict) :
  _find_applying_aspect chart planet1 planet2 = Some found →
  ∃ aspect, aspect ∈ aspects chart
    ∧ applying_between planet1 planet2 aspect = true
    ∧ found = {| ad_aspect := ai_aspect aspect; ad_orb := ai_orb aspect;
                 ad_degrees_to_exact := ai_degrees_to_exact aspect |}.
Proof.
  unfold _find_applying_aspect. intros Hfound.
  apply fmap_Some in Hfound as (aspect & Hhead & ->).
  apply (head_flat_map_filter (applying_between planet1 planet2)) in Hhead
    as [Hin Hkeep].
  by exists aspect.
Qed.

Lemma find_applying_aspect_none (chart : HoraryChart) (planet1 planet2 : Planet) :
  _find_applying_aspect chart planet1 planet2 = None ↔
  ∀ aspect, aspect ∈ aspects chart → applying_between planet1 planet2 aspect = false.
Proof.
  unfold _find_applying_aspect. rewrite fmap_None.
  apply (head_flat_map_filter_none (applying_between planet1 planet2)).
Qed.

Lemma find_applying_aspect_sym (chart : HoraryChart) (planet1 planet2 : Planet) :
  _find_applying_aspect chart planet1 planet2
  = _find_applying_aspect chart planet2 planet1.
Proof.
  unfold _find_applying_aspect. do 2 f_equal.
  induction (aspects chart) as [|a l IH]; cbn; [reflexivity|].
  rewrite IH. f_equal.
  pose proof (applying_between_sym planet1 planet2 a) as Hsym.
  unfold applying_between in Hsym. by rewrite Hsym.
Qed.

(** X9. The search for an applying aspect between two planets does not
    depend on the order in which the planets are given; what it finds is an
    applying aspect of the chart that joins the two, and it finds nothing
    exactly when the chart has no such aspect.  In a chart without applying
    aspects it finds nothing for any pair. *)
Theorem find_applying_aspect_unordered (chart : HoraryChart)
    (planet1 planet2 : Planet) :
  _find_applying_aspect chart planet1 planet2
  = _find_applying_aspect chart planet2 planet1
  ∧ (∀ found, _find_applying_aspect chart planet1 planet2 = Some found →
       ∃ aspect, aspect ∈ aspects chart ∧ ai_applying aspect = true
         ∧ ((ai_planet1 aspect = planet1 ∧ ai_planet2 aspect = planet2)
            ∨ (ai_planet1 aspect = planet2 ∧ ai_planet2 aspect = planet1))
         ∧ ad_aspect found = ai_aspect aspect
         ∧ ad_degrees_to_exact found = ai_degrees_to_exact aspect)
  ∧ (_find_applying_aspect chart planet1 planet2 = None ↔
     ∀ aspect, aspect ∈ aspects chart → ai_applying aspect = true →
       ¬ ((ai_planet1 aspect = planet1 ∧ ai_planet2 aspect = planet2)
          ∨ (ai_planet1 aspect = planet2 ∧ ai_planet2 aspect = planet1))).
Proof.
  split; [apply find_applying_aspect_sym|]. split.
  - intros found Hfound.
    apply find_applying_aspect_some in Hfound as (aspect & Hin & Hkeep & ->).
    exists aspect. unfold applying_between in Hkeep.
    apply andb_true_iff in Hkeep as [Hjoin Happ].
    repeat split; try assumption; try reflexivity.
    apply orb_true_iff in Hjoin as [Hj|Hj]; apply andb_true_iff in Hj as [H1 H2];
      apply bool_decide_eq_true in H1, H2; auto.
  - rewrite find_applying_aspect_none. unfold applying_between.
    split.
    + intros Hall aspect Hin Happ Hjoin. specialize (Hall aspect Hin).
      rewrite Happ, andb_true_r in Hall.
      apply orb_false_iff in Hall as [Ha Hb].
      destruct Hjoin as [[H1 H2]|[H1 H2]].
      * rewrite (bool_decide_eq_true_2 _ H1), (bool_decide_eq_true_2 _ H2) in Ha.
        discriminate.
      * rewrite (bool_decide_eq_true_2 _ H1), (bool_decide_eq_true_2 _ H2) in Hb.
        discriminate.
    + intros Hall aspect Hin. specialize (Hall aspect Hin).
      destruct (ai_applying aspect); [|by rewrite andb_false_r].
      rewrite andb_true_r. apply not_true_is_false. intros Hjoin.
      apply Hall; [reflexivity|].
      apply orb_true_iff in Hjoin as [Hj|Hj]; apply andb_true_iff in Hj as [H1 H2];
        apply bool_decide_eq_true in H1, H2; auto.
Qed.

(** X10. The reception between two planets does not depend on their
    order.  A single planet in a sign it rules is reported in mutual
    reception by rulership with itself.  And with the tables of the
    calculator a mixed reception can only be reported between Mercury and
    a planet in Virgo, the one sign whose ruler is also exalted in it. *)
Theorem mutual_reception_unordered (chart : HoraryChart) (planet1 planet2 : Planet) :
  _check_enhanced_mutual_reception chart planet1 planet2
  = _check_enhanced_mutual_reception chart planet2 planet1
  ∧ (sign_ruler (pp_sign (planets chart planet1)) = planet1 →
     _check_enhanced_mutual_reception chart planet1 planet1 = mutual_rulership)
  ∧ (_check_enhanced_mutual_reception chart planet1 planet2 = mixed_reception →
     (planet2 = MERCURY ∧ pp_sign (planets chart planet1) = VIRGO)
     ∨ (planet1 = MERCURY ∧ pp_sign (planets chart planet2) = VIRGO)).
Proof.
  unfold _check_enhanced_mutual_reception. split; [|split].
  - rewrite (andb_comm (bool_decide (sign_ruler (pp_sign (planets chart planet1)) = planet2))).
    rewrite (andb_comm (bool_decide (exaltations planet1 = pp_sign (planets chart planet2)))).
    rewrite (orb_comm (bool_decide (sign_ruler (pp_sign (planets chart planet1)) = planet2)
                       && bool_decide (exaltations planet2 = pp_sign (planets chart planet1)))).
    reflexivity.
  - intros Hown. by rewrite (bool_decide_eq_true_2 _ Hown).
  - repeat match goal with
    | |- context [if ?c then _ else _] => destruct c eqn:?
    end; try discriminate. intros _.
    match goal with
    | Hm : (_ || _) = true |- _ =>
        apply orb_true_iff in Hm as [Hm|Hm]; apply andb_true_iff in Hm as [Hr He];
        apply bool_decide_eq_true in Hr, He
    end.
    + left. destruct (pp_sign (planets chart planet1)), planet2;
        cbn in *; try discriminate; auto.
    + right. destruct (pp_sign (planets chart planet2)), planet1;
        cbn in *; try discriminate; auto.
Qed.

(** ** Solar factors of the judgment *)

Lemma planets_in_bucket_ignored (chart : HoraryChart) (bucket : SolarCondition) :
  bucket ≠ CAZIMI → planets_in_bucket chart true bucket = [].
Proof.
  intros Hb. unfold planets_in_bucket.
  induction (solar_analyses chart) as [|[planet analysis] l IH]; cbn; [reflexivity|].
  rewrite IH, app_nil_r. unfold solar_bucket. cbn. rewrite !andb_false_r.
  destruct (bool_decide (sa_condition analysis = CAZIMI)); cbn;
    rewrite bool_decide_eq_false_2; congruence.
Qed.

Lemma planets_in_buckets_length (chart : HoraryChart) (ignore_combustion : bool) :
  (length (planets_in_bucket chart ignore_combustion CAZIMI)
   + length (planets_in_bucket chart ignore_combustion COMBUSTION)
   + length (planets_in_bucket chart ignore_combustion UNDER_BEAMS)
   ≤ length (solar_analyses chart))%nat.
Proof.
  unfold planets_in_bucket.
  induction (solar_analyses chart) as [|[planet analysis] l IH]; cbn; [lia|].
  rewrite !length_app.
  repeat case_bool_decide; simplify_eq; cbn; lia.
Qed.

(** X11. The solar factors are significant exactly when one of the three
    counts is positive, and the counts never exceed the number of analysed
    planets.  Under the combustion override no planet is ever collected as
    combust or under the beams, so the note that the override appends when
    one was collected is never written: the summary is the cazimi line or
    the line for no conditions. *)
Theorem solar_factors_override_note_never_written (chart : HoraryChart)
    (querent quesited : Planet) (ignore_combustion : bool) :
  let factors :=
    _analyze_enhanced_solar_factors chart querent quesited ignore_combustion in
  let overridden := _analyze_enhanced_solar_factors chart querent quesited true in
  (significant factors = true ↔
   (0 < cazimi_count factors + combustion_count factors + under_beams_count factors)%nat)
  ∧ (cazimi_count factors + combustion_count factors + under_beams_count factors
     ≤ length (solar_analyses chart))%nat
  ∧ combustion_count overridden = 0%nat ∧ under_beams_count overridden = 0%nat
  ∧ (summary overridden = [Lit "No significant solar conditions"]
     ∨ summary overridden
       = [Lit "Cazimi: ";
          Lit (String.concat ", " (planet_value <$> planets_in_bucket chart true CAZIMI))]).
Proof.
  cbn zeta. split; [|split; [|split; [|split]]].
  - unfold _analyze_enhanced_solar_factors. cbn.
    destruct ignore_combustion.
    + rewrite (planets_in_bucket_ignored chart COMBUSTION),
        (planets_in_bucket_ignored chart UNDER_BEAMS) by discriminate. cbn.
      destruct (planets_in_bucket chart true CAZIMI); cbn; split;
        first [discriminate | lia | reflexivity].
    + destruct (planets_in_bucket chart false CAZIMI),
               (planets_in_bucket chart false COMBUSTION),
               (planets_in_bucket chart false UNDER_BEAMS); cbn; split;
        first [discriminate | lia | reflexivity].
  - pose proof (planets_in_buckets_length chart ignore_combustion).
    unfold _analyze_enhanced_solar_factors. cbn. destruct ignore_combustion; lia.
  - reflexivity.
  - reflexivity.
  - unfold _analyze_enhanced_solar_factors. cbn.
    rewrite (planets_in_bucket_ignored chart COMBUSTION),
        (planets_in_bucket_ignored chart UNDER_BEAMS) by discriminate. cbn.
    destruct (planets_in_bucket chart true CAZIMI); cbn; auto.
Qed.

(** ** Translation and collection of light *)

(** Case analysis on every scrutinee in a hypothesis, innermost first. *)
Ltac split_matches_in H :=
  repeat match type of H with
  | context [match ?x with _ => _ end] =>
      lazymatch x with
      | context [match _ with _ => _ end] => fail
      | _ => destruct x eqn:?
      end
  end.

Lemma member_pair_false (planet querent quesited : Planet) :
  member planet [querent; quesited] = false → planet ≠ querent ∧ planet ≠ quesited.
Proof.
  unfold member. cbn. rewrite orb_false_r. intros Hm.
  apply orb_false_iff in Hm as [H1 H2].
  apply bool_decide_eq_false in H1, H2. auto.
Qed.

Lemma head_flat_map_option {A B} (f : A → option B) (l : list A) (x : A) (y : B) :
  head (flat_map (λ a, match f a with Some b => [(a, b)] | None => [] end) l)
  = Some (x, y) →
  x ∈ l ∧ f x = Some y.
Proof.
  induction l as [|a l IH]; cbn; [intros [=]|].
  destruct (f a) as [b|] eqn:Hf; cbn.
  - intros [= <- <-]. split; [apply list_elem_of_here | assumption].
  - intros Hx. destruct (IH Hx). split; [by apply list_elem_of_further | assumption].
Qed.

Lemma head_flat_map_option_none {A B} (f : A → option B) (l : list A) :
  head (flat_map (λ a, match f a with Some b => [(a, b)] | None => [] end) l) = None →
  ∀ a, a ∈ l → f a = None.
Proof.
  induction l as [|a l IH]; cbn.
  - intros _ a Ha. by apply elem_of_nil in Ha.
  - destruct (f a) as [b|] eqn:Hf; cbn; [intros [=]|].
    intros Hnone c Hc. apply elem_of_cons in Hc as [->|Hc]; auto.
Qed.

Lemma planet_in_order (planet : Planet) : planet ∈ planet_order.
Proof.
  destruct planet; unfold planet_order;
    repeat first [apply list_elem_of_here | apply list_elem_of_further].
Qed.

Lemma no_applying_aspect_found (chart : HoraryChart) (planet1 planet2 : Planet) :
  (∀ aspect, aspect ∈ aspects chart → ai_applying aspect = false) →
  _find_applying_aspect chart planet1 planet2 = None.
Proof.
  intros Hnone. apply find_applying_aspect_none. intros aspect Hin.
  unfold applying_between. by rewrite (Hnone aspect Hin), andb_false_r.
Qed.

Section LightFacts.
Context `{HoraryMath}.
Variable config : Config.
Variable chart : HoraryChart.
Variables querent quesited : Planet.

Lemma translates_spec (planet : Planet) (sequence : text) :
  translates config chart querent quesited planet = Some sequence →
  planet ≠ querent ∧ planet ≠ quesited
  ∧ ∃ to_querent to_quesited,
      _find_applying_aspect chart planet querent = Some to_querent
      ∧ _find_applying_aspect chart planet quesited = Some to_quesited
      ∧ (translation_require_proper_sequence (cfg_moon config) = true →
         ¬ ad_degrees_to_exact to_querent == ad_degrees_to_exact to_quesited).
Proof.
  unfold translates.
  destruct (member planet [querent; quesited]) eqn:Hm; [intros [=]|].
  apply member_pair_false in Hm as [Hq Hqs].
  destruct (_find_applying_aspect chart planet querent) as [a|]; [|intros [=]].
  destruct (_find_applying_aspect chart planet quesited) as [b|]; [|intros [=]].
  intros Hseq. split; [assumption|]. split; [assumption|].
  exists a, b. split; [reflexivity|]. split; [reflexivity|].
  intros Hproper. rewrite Hproper in Hseq.
  destruct (_ && _) eqn:Hfirst in Hseq.
  - apply andb_true_iff in Hfirst as [_ Hlt]. qbool. lra.
  - destruct (_ && _) eqn:Hsecond in Hseq; [|discriminate].
    apply andb_true_iff in Hsecond as [_ Hlt]. qbool. lra.
Qed.

Lemma translates_simple (planet : Planet) (to_querent to_quesited : AspectDict) :
  translation_require_proper_sequence (cfg_moon config) = false →
  planet ≠ querent → planet ≠ quesited →
  _find_applying_aspect chart planet querent = Some to_querent →
  _find_applying_aspect chart planet quesited = Some to_quesited →
  translates config chart querent quesited planet ≠ None.
Proof.
  intros Hsimple Hq Hqs Ha Hb. unfold translates.
  assert (Hm : member planet [querent; quesited] = false).
  { unfold member. cbn.
    by rewrite (bool_decide_eq_false_2 _ Hq), (bool_decide_eq_false_2 _ Hqs). }
  rewrite Hm, Ha, Hb, Hsimple. discriminate.
Qed.

Lemma collects_spec (planet : Planet) :
  collects config chart querent quesited planet = true →
  planet ≠ querent ∧ planet ≠ quesited
  ∧ (∃ from_querent, _find_applying_aspect chart querent planet = Some from_querent)
  ∧ (∃ from_quesited, _find_applying_aspect chart quesited planet = Some from_quesited)
  ∧ (collection_require_collector_dignity (cfg_moon config) = true →
     (collection_minimum_dignity_score (cfg_moon config)
      <= pp_dignity_score (planets chart planet))%Z).
Proof.
  unfold collects.
  destruct (member planet [querent; quesited]) eqn:Hm; [intros [=]|].
  apply member_pair_false in Hm as [Hq Hqs].
  destruct (_find_applying_aspect chart querent planet) as [a|]; [|intros [=]].
  destruct (_find_applying_aspect chart quesited planet) as [b|]; [|intros [=]].
  destruct (_ && _) eqn:Hdignity; [intros [=]|]. intros _.
  repeat split; try assumption; [by exists a | by exists b |].
  intros Hreq. rewrite Hreq in Hdignity. cbn in Hdignity.
  apply Z.ltb_ge in Hdignity. exact Hdignity.
Qed.

Lemma translation_spec (translator : Planet) (sequence : text) :
  _check_enhanced_translation_of_light config chart querent quesited
  = Some (translator, sequence) →
  translation_require_speed_advantage (cfg_moon config) = false
  ∧ translates config chart querent quesited translator = Some sequence.
Proof.
  unfold _check_enhanced_translation_of_light.
  destruct (translation_require_speed_advantage (cfg_moon config)); [intros [=]|].
  cbn [negb]. intros Hhead.
  apply (head_flat_map_option (translates config chart querent quesited)) in Hhead
    as [_ Htr].
  by split.
Qed.

Lemma collection_spec (collector : Planet) :
  _check_enhanced_collection_of_light config chart querent quesited = Some collector →
  collects config chart querent quesited collector = true.
Proof.
  unfold _check_enhanced_collection_of_light. intros Hhead.
  by apply (head_flat_map_filter (collects config chart querent quesited)) in Hhead
    as [_ Hc].
Qed.

Lemma collection_implies_translation :
  translation_require_speed_advantage (cfg_moon config) = false →
  translation_require_proper_sequence (cfg_moon config) = false →
  _check_enhanced_collection_of_light config chart querent quesited ≠ None →
  _check_enhanced_translation_of_light config chart querent quesited ≠ None.
Proof.
  intros Hspeed Hsimple Hcoll.
  destruct (_check_enhanced_collection_of_light config chart querent quesited)
    as [collector|] eqn:Hc; [clear Hcoll | congruence].
  apply collection_spec, collects_spec in Hc as (Hq & Hqs & [a Ha] & [b Hb] & _).
  rewrite find_applying_aspect_sym in Ha, Hb.
  pose proof (translates_simple collector a b Hsimple Hq Hqs Ha Hb) as Htr.
  unfold _check_enhanced_translation_of_light. rewrite Hspeed. cbn [negb].
  intros Hnone. apply Htr.
  exact (head_flat_map_option_none (translates config chart querent quesited)
           planet_order Hnone collector (planet_in_order collector)).
Qed.

Lemma no_applying_no_translation :
  (∀ aspect, aspect ∈ aspects chart → ai_applying aspect = false) →
  _check_enhanced_translation_of_light config chart querent quesited = None
  ∧ _check_enhanced_collection_of_light config chart querent quesited = None.
Proof.
  intros Hnone. split.
  - destruct (_check_enhanced_translation_of_light config chart querent quesited)
      as [[translator sequence]|] eqn:Htr; [|reflexivity].
    apply translation_spec in Htr as [_ Htr].
    apply translates_spec in Htr as (_ & _ & a & _ & Ha & _).
    by rewrite (no_applying_aspect_found chart translator querent Hnone) in Ha.
  - destruct (_check_enhanced_collection_of_light config chart querent quesited)
      as [collector|] eqn:Hc; [|reflexivity].
    apply collection_spec, collects_spec in Hc as (_ & _ & [a Ha] & _).
    by rewrite (no_applying_aspect_found chart querent collector Hnone) in Ha.
Qed.

(** X12. Light is only translated when the speed advantage is not
    required by the configuration.  The translator is a third planet with
    an applying aspect to each significator; when the proper sequence is
    required the two aspects are at different distances from exact. *)
Theorem translation_of_light_by_a_third_planet :
  (translation_require_speed_advantage (cfg_moon config) = true →
   _check_enhanced_translation_of_light config chart querent quesited = None)
  ∧ ∀ translator sequence,
      _check_enhanced_translation_of_light config chart querent quesited
      = Some (translator, sequence) →
      translator ≠ querent ∧ translator ≠ quesited
      ∧ ∃ to_querent to_quesited,
          _find_applying_aspect chart translator querent = Some to_querent
          ∧ _find_applying_aspect chart translator quesited = Some to_quesited
          ∧ (translation_require_proper_sequence (cfg_moon config) = true →
             ¬ ad_degrees_to_exact to_querent == ad_degrees_to_exact to_quesited).
Proof.
  split.
  - intros Hspeed. unfold _check_enhanced_translation_of_light. by rewrite Hspeed.
  - intros translator sequence Htr.
    apply translation_spec in Htr as [_ Htr]. by apply translates_spec in Htr.
Qed.

(** X13. The collector of light is a third planet that both significators
    apply to, of at least the minimum dignity when the configuration asks
    for it.  When translation needs neither the speed advantage nor the
    proper sequence, every collector also passes as a translator, so
    translation is found whenever collection is and no perfection is ever
    reported as a collection. *)
Theorem collection_of_light_shadowed_by_translation :
  (∀ collector,
     _check_enhanced_collection_of_light config chart querent quesited
     = Some collector →
     collector ≠ querent ∧ collector ≠ quesited
     ∧ (∃ from_querent,
          _find_applying_aspect chart querent collector = Some from_querent)
     ∧ (∃ from_quesited,
          _find_applying_aspect chart quesited collector = Some from_quesited)
     ∧ (collection_require_collector_dignity (cfg_moon config) = true →
        (collection_minimum_dignity_score (cfg_moon config)
         <= pp_dignity_score (planets chart collector))%Z))
  ∧ (translation_require_speed_advantage (cfg_moon config) = false →
     translation_require_proper_sequence (cfg_moon config) = false →
     (_check_enhanced_collection_of_light config chart querent quesited ≠ None →
      _check_enhanced_translation_of_light config chart querent quesited ≠ None)
     ∧ ∀ boost p,
         _check_enhanced_perfection config chart querent quesited boost = Some p →
         perf_type p ≠ collection).
Proof.
  split.
  - intros collector Hc. by apply collection_spec, collects_spec in Hc.
  - intros Hspeed Hsimple.
    pose proof (collection_implies_translation Hspeed Hsimple) as Hshadow.
    split; [exact Hshadow|].
    intros boost p. unfold _check_enhanced_perfection.
    destruct (_check_enhanced_translation_of_light config chart querent quesited)
      as [[translator sequence]|].
    + intros Hp.
      split_matches_in Hp; simplify_eq; cbn; discriminate.
    + destruct (_check_enhanced_collection_of_light config chart querent quesited);
        [exfalso; by apply Hshadow|].
      intros Hp.
      split_matches_in Hp; simplify_eq; cbn; discriminate.
Qed.

(** X14. A perfection is direct exactly when it carries an aspect, and
    names a third planet exactly when it is a translation or a collection.
    The only perfection that is not favorable is a direct square or
    opposition without any reception.  In a chart with no applying aspect
    the only perfection left is the one by mutual reception alone. *)
Theorem perfection_kinds (boost : Q) (p : Perfection) :
  _check_enhanced_perfection config chart querent quesited boost = Some p →
  (perf_type p = direct ↔ perf_aspect p ≠ None)
  ∧ (perf_third_planet p ≠ None ↔
     perf_type p = translation ∨ perf_type p = collection)
  ∧ (perf_favorable p = false →
     perf_type p = direct ∧ perf_reception p = Some none
     ∧ ∃ aspect, perf_aspect p = Some aspect
         ∧ (ad_aspect aspect = SQUARE ∨ ad_aspect aspect = OPPOSITION))
  ∧ ((∀ aspect, aspect ∈ aspects chart → ai_applying aspect = false) →
     perf_type p = reception_only_type ∧ perf_favorable p = true).
Proof.
  intros Hp. split; [|split; [|split]].
  - unfold _check_enhanced_perfection in Hp.
    split_matches_in Hp; simplify_eq; cbn; split; intros; congruence.
  - unfold _check_enhanced_perfection in Hp.
    split_matches_in Hp; simplify_eq; cbn; split; intros; try congruence; try tauto;
      destruct H0; congruence.
  - unfold _check_enhanced_perfection in Hp.
    split_matches_in Hp; simplify_eq; cbn; try discriminate.
    intros Hfav. repeat split. eexists. split; [reflexivity|].
    destruct (ad_aspect _); vm_compute in Hfav; try discriminate; auto.
  - intros Hnone. unfold _check_enhanced_perfection in Hp.
    rewrite (no_applying_aspect_found chart querent quesited Hnone) in Hp.
    destruct (no_applying_no_translation Hnone) as [Htr Hcoll].
    rewrite Htr, Hcoll in Hp.
    destruct (_check_enhanced_mutual_reception chart querent quesited);
      simplify_eq; cbn; auto.
Qed.

End LightFacts.

(** Venus and Mars in each other's signs without any aspect between them:
    the perfection is by reception alone. *)
Lemma perfection_kinds_witness :
  ∃ p, _check_enhanced_perfection (H := spec_math 0) sample_config
         (without_aspects (opposition_in_reception 15 [])) MARS VENUS 15 = Some p
       ∧ perf_type p = reception_only_type ∧ perf_favorable p = true
       ∧ perf_aspect p = None ∧ perf_third_planet p = None.
Proof.
  destruct (_check_enhanced_perfection (H := spec_math 0) sample_config
              (without_aspects (opposition_in_reception 15 [])) MARS VENUS 15)
    as [p|] eqn:Hp; [|vm_compute in Hp; discriminate].
  destruct (perfection_kinds (H := spec_math 0) sample_config
              (without_aspects (opposition_in_reception 15 [])) MARS VENUS 15 p Hp)
    as (Hdirect & Hthird & _ & Hbare).
  destruct (Hbare ltac:(intros aspect Hin; by apply elem_of_nil in Hin))
    as [Htype Hfav].
  exists p. repeat split; try assumption.
  - destruct (perf_aspect p) eqn:Ha; [|reflexivity].
    assert (perf_type p = direct) by (apply Hdirect; discriminate). congruence.
  - destruct (perf_third_planet p) eqn:Ht; [|reflexivity].
    assert (perf_type p = translation ∨ perf_type p = collection) as [|]
      by (apply Hthird; discriminate); congruence.
Defined.

(** ** Denial *)

Lemma prohibits_spec (chart : HoraryChart) (querent quesited : Planet)
    (aspect : AspectInfo) (other_planet : Planet) :
  prohibits chart querent quesited aspect = Some other_planet →
  ai_applying aspect = true
  ∧ ((ai_planet1 aspect = SATURN ∧ ai_planet2 aspect = other_planet)
     ∨ (ai_planet2 aspect = SATURN ∧ ai_planet1 aspect = other_planet))
  ∧ (other_planet = querent ∨ other_planet = quesited)
  ∧ ∃ sig_aspect,
      _find_applying_aspect chart querent quesited = Some sig_aspect
      ∧ ai_degrees_to_exact aspect < ad_degrees_to_exact sig_aspect.
Proof.
  unfold prohibits.
  destruct (_ && ai_applying aspect) eqn:Hsat; [|intros [=]].
  apply andb_true_iff in Hsat as [Hsat Happ].
  destruct (member _ [querent; quesited]) eqn:Hm; [|intros [=]].
  destruct (_find_applying_aspect chart querent quesited) as [sig_aspect|];
    [|intros [=]].
  destruct (_ <? _) eqn:Hlt; [|intros [=]]. intros [= <-].
  split; [assumption|]. split; [|split].
  - destruct (bool_decide (ai_planet1 aspect = SATURN)) eqn:H1.
    + apply bool_decide_eq_true in H1. auto.
    + cbn in Hsat. apply bool_decide_eq_true in Hsat. auto.
  - unfold member in Hm. cbn in Hm. rewrite orb_false_r in Hm.
    apply orb_true_iff in Hm as [Hm|Hm]; apply bool_decide_eq_true in Hm; auto.
  - exists sig_aspect. split; [reflexivity|]. by apply Qlt_bool_iff.
Qed.

Section DenialFacts.
Context `{HoraryMath}.
Variable config : Config.
Variable chart : HoraryChart.
Variables querent quesited : Planet.

Lemma applying_aspect_in_sign_perfects (boost : Q) (sig_aspect : AspectDict) :
  _find_applying_aspect chart querent quesited = Some sig_aspect →
  _enhanced_perfects_in_sign (planets chart querent) (planets chart quesited)
    sig_aspect chart = true →
  _check_enhanced_perfection config chart querent quesited boost ≠ None.
Proof.
  intros Hfind Hsign. unfold _check_enhanced_perfection.
  rewrite Hfind, Hsign.
  destruct (_check_enhanced_mutual_reception chart querent quesited); discriminate.
Qed.

(** X15. A denial is either a prohibition, at the configured prohibition
    confidence, or a frustration, at the configured frustration confidence.
    A prohibition needs an applying aspect between the significators and an
    applying aspect of Saturn to one of them that is closer to exact; when
    the perfection check has found nothing, that aspect between the
    significators is one that does not perfect before a sign is left.  A
    frustration is only reported when retrograde motion is configured as an
    automatic denial and a significator is retrograde. *)
Theorem denial_is_prohibition_or_frustration (confidence : Z) (why : text) :
  _check_enhanced_denial_conditions config chart querent quesited
  = Some (confidence, why) →
  (confidence = denial_prohibition (cfg_confidence config)
   ∧ ∃ saturn_aspect sig_aspect,
       saturn_aspect ∈ aspects chart
       ∧ ai_applying saturn_aspect = true
       ∧ (ai_planet1 saturn_aspect = SATURN ∨ ai_planet2 saturn_aspect = SATURN)
       ∧ _find_applying_aspect chart querent quesited = Some sig_aspect
       ∧ ai_degrees_to_exact saturn_aspect < ad_degrees_to_exact sig_aspect
       ∧ ((∀ boost,
             _check_enhanced_perfection config chart querent quesited boost = None) →
          _enhanced_perfects_in_sign (planets chart querent)
            (planets chart quesited) sig_aspect chart = false))
  ∨ (confidence = denial_frustration_retrograde (cfg_confidence config)
     ∧ retrograde_automatic_denial config = true
     ∧ (pp_retrograde (planets chart querent) = true
        ∨ pp_retrograde (planets chart quesited) = true)).
Proof.
  unfold _check_enhanced_denial_conditions.
  destruct (head _) as [other_planet|] eqn:Hhead.
  - intros [= <- <-]. left. split; [reflexivity|].
    assert (∃ saturn_aspect, saturn_aspect ∈ aspects chart
              ∧ prohibits chart querent quesited saturn_aspect = Some other_planet)
      as (saturn_aspect & Hin & Hpro).
    { clear -Hhead. induction (aspects chart) as [|a l IH]; [discriminate|].
      cbn in Hhead.
      destruct (prohibits chart querent quesited a) as [p|] eqn:Hp.
      - cbn in Hhead. injection Hhead as ->.
        exists a. split; [apply list_elem_of_here | assumption].
      - destruct (IH Hhead) as (b & Hb & Hpb).
        exists b. split; [by apply list_elem_of_further | assumption]. }
    apply prohibits_spec in Hpro as (Happ & Hsat & _ & sig_aspect & Hfind & Hlt).
    exists saturn_aspect, sig_aspect.
    repeat split; try assumption; [tauto|].
    intros Hnone.
    destruct (_enhanced_perfects_in_sign _ _ sig_aspect chart) eqn:Hsign;
      [|reflexivity].
    exfalso.
    exact (applying_aspect_in_sign_perfects 0 sig_aspect Hfind Hsign (Hnone 0)).
  - destruct (retrograde_automatic_denial config); cbn; [|intros [=]].
    destruct (pp_retrograde (planets chart querent) || pp_retrograde (planets chart quesited))
      eqn:Hretro; [|intros [=]].
    intros [= <- <-]. right. repeat split.
    by apply orb_true_iff in Hretro.
Qed.

End DenialFacts.

(** ** Radicality and the considerations *)

Lemma radicality_override_monotone (config : Config) (chart : HoraryChart) :
  rad_valid (_check_enhanced_radicality config chart false) = true →
  ∀ ignore_saturn_7th,
    rad_valid (_check_enhanced_radicality config chart ignore_saturn_7th) = true.
Proof.
  intros Hvalid [|]; [|assumption].
  revert Hvalid. unfold _check_enhanced_radicality.
  destruct (saturn_7th_enabled (cfg_radicality config)),
           (bool_decide (pp_house (planets chart SATURN) = 7%Z));
    cbn [negb andb];
    repeat match goal with
    | |- context [if ?c then _ else _] => destruct c
    end; cbn; congruence.
Qed.

(** X16. A radical chart has its ascendant between the configured early
    and late degrees of its sign.  Ignoring Saturn in the seventh house
    only ever turns a chart radical, never the reverse, and changes nothing
    when the Saturn rule is disabled or Saturn is elsewhere.  The
    considerations, which check radicality without the override, therefore
    call a chart not radical whenever the judgment does. *)
Theorem radicality_and_considerations `{HoraryMath} `{Ephemeris}
    (config : Config) (chart : HoraryChart) (question_analysis : QuestionAnalysis)
    (ignore_saturn_7th : bool) :
  (rad_valid (_check_enhanced_radicality config chart ignore_saturn_7th) = true →
   asc_too_early (cfg_radicality config) <= fmod (ascendant chart) 30
   ∧ fmod (ascendant chart) 30 <= asc_too_late (cfg_radicality config))
  ∧ (rad_valid (_check_enhanced_radicality config chart false) = true →
     rad_valid (_check_enhanced_radicality config chart true) = true)
  ∧ (saturn_7th_enabled (cfg_radicality config) = false
     ∨ pp_house (planets chart SATURN) ≠ 7%Z →
     _check_enhanced_radicality config chart true
     = _check_enhanced_radicality config chart false)
  ∧ ∀ ignore_radicality ignore_void_moon ignore_combustion boost judgment,
      _apply_enhanced_judgment config chart question_analysis ignore_radicality
        ignore_void_moon ignore_combustion ignore_saturn_7th boost
      = Return judgment →
      j_result judgment = NOT_RADICAL →
      radical (_calculate_considerations config chart question_analysis) = false.
Proof.
  split; [|split; [|split]].
  - unfold _check_enhanced_radicality.
    destruct (_ <? asc_too_early _) eqn:Hearly; [discriminate|].
    destruct (_ >? asc_too_late _) eqn:Hlate; [discriminate|].
    intros _. split; qbool; lra.
  - intros Hvalid. by apply radicality_override_monotone.
  - intros Hoff. unfold _check_enhanced_radicality.
    assert (Hsame : ∀ b, saturn_7th_enabled (cfg_radicality config) && negb b
                     && bool_decide (pp_house (planets chart SATURN) = 7%Z) = false).
    { intros b. destruct Hoff as [->|Hhouse]; [reflexivity|].
      by rewrite (bool_decide_eq_false_2 _ Hhouse), andb_false_r. }
    by rewrite !Hsame.
  - intros ignore_radicality ignore_void_moon ignore_combustion boost judgment
      Hjudge Hresult.
    unfold _calculate_considerations. cbn.
    destruct (rad_valid (_check_enhanced_radicality config chart false)) eqn:Hvalid;
      [|reflexivity].
    exfalso.
    pose proof (radicality_override_monotone config chart Hvalid ignore_saturn_7th)
      as Hvalid'.
    unfold _apply_enhanced_judgment in Hjudge. rewrite Hvalid' in Hjudge.
    rewrite andb_false_r in Hjudge.
    destruct (_identify_significators chart question_analysis);
      [injection Hjudge as <-; discriminate|].
    destruct (if significant _ then _ else _) as [confidence reasoning].
    destruct (_check_enhanced_perfection _ _ _ _ _) as [perfection|].
    + destruct (_calculate_enhanced_timing chart perfection); cbn in Hjudge;
        [|discriminate].
      injection Hjudge as <-. cbn in Hresult. by destruct (perf_favorable perfection).
    + destruct (_check_enhanced_denial_conditions _ _ _ _) as [[? ?]|].
      * injection Hjudge as <-. discriminate.
      * destruct (if mt_favorable _ then _ else _) as [result confidence'] eqn:Hmoon.
        injection Hjudge as <-. cbn in Hresult. subst result.
        destruct (mt_favorable _); [discriminate|].
        destruct (mt_unfavorable _); discriminate.
Qed.

(** Saturn reaches Venus before Venus reaches Mars. *)
Lemma denial_is_prohibition_or_frustration_witness :
  ∃ why,
    _check_enhanced_denial_conditions sample_config saturn_before_perfection
      MARS VENUS = Some (85%Z, why)
    ∧ ∃ saturn_aspect sig_aspect,
        saturn_aspect ∈ aspects saturn_before_perfection
        ∧ _find_applying_aspect saturn_before_perfection MARS VENUS = Some sig_aspect
        ∧ ai_degrees_to_exact saturn_aspect < ad_degrees_to_exact sig_aspect.
Proof.
  destruct (_check_enhanced_denial_conditions sample_config saturn_before_perfection
              MARS VENUS) as [[confidence why]|] eqn:Hdenial;
    [|vm_compute in Hdenial; discriminate].
  assert (Hconf : confidence = 85%Z).
  { vm_compute in Hdenial. by injection Hdenial as <- _. }
  destruct (denial_is_prohibition_or_frustration (H := spec_math 0) sample_config
              saturn_before_perfection MARS VENUS confidence why Hdenial)
    as [(_ & saturn_aspect & sig_aspect & Hin & _ & _ & Hfind & Hlt & _)
       |(_ & Hauto & _)]; [|discriminate Hauto].
  subst confidence. exists why. split; [reflexivity|].
  exists saturn_aspect, sig_aspect. by repeat split.
Defined.

(** ** The testimony of the Moon *)

Lemma moon_testimony_exclusive (config : Config) (chart : HoraryChart)
    (querent quesited : Planet) (ignore_void_moon : bool) :
  let testimony :=
    _check_enhanced_moon_testimony config chart querent quesited ignore_void_moon in
  (mt_favorable testimony = true → mt_unfavorable testimony = false)
  ∧ (mt_void_of_course testimony = true → mt_favorable testimony = false).
Proof.
  unfold _check_enhanced_moon_testimony.
  repeat match goal with
  | |- context [match ?c with _ => _ end] =>
      lazymatch c with
      | context [match _ with _ => _ end] => fail
      | _ => destruct c
      end
  end; cbn; split; intros Hside; rewrite ?Hside; cbn; congruence.
Qed.

Lemma moon_testimony_override (config : Config) (chart : HoraryChart)
    (querent quesited : Planet) :
  let testimony :=
    _check_enhanced_moon_testimony config chart querent quesited true in
  mt_favorable testimony = false ∧ mt_unfavorable testimony = false
  ∧ mt_void_of_course testimony = true.
Proof. unfold _check_enhanced_moon_testimony. cbn. auto. Qed.

(** X17. The Moon never testifies both for and against.  Under the
    void-Moon override it gives no testimony at all and is reported void of
    course whether it is or not.  Without the override it is reported void
    of course exactly when the configured rule finds it void with no
    exception, and then it testifies against.  When the testimony carries no
    timing it has been decided by the adjusted dignity alone: above zero
    for, below minus three against. *)
Theorem moon_testimony_sides (config : Config) (chart : HoraryChart)
    (querent quesited : Planet) (ignore_void_moon : bool) :
  let testimony :=
    _check_enhanced_moon_testimony config chart querent quesited ignore_void_moon in
  let void_check := _is_moon_void_of_course_enhanced config chart in
  let adjusted_dignity :=
    (pp_dignity_score (planets chart MOON)
     + (_moon_phase_bonus config chart + _moon_speed_bonus config chart
        + _moon_angularity_bonus config chart))%Z in
  ¬ (mt_favorable testimony = true ∧ mt_unfavorable testimony = true)
  ∧ (ignore_void_moon = true →
     mt_favorable testimony = false ∧ mt_unfavorable testimony = false
     ∧ mt_void_of_course testimony = true)
  ∧ (ignore_void_moon = false →
     (mt_void_of_course testimony = true ↔
      void void_check = true ∧ exception void_check = false)
     ∧ (mt_void_of_course testimony = true → mt_unfavorable testimony = true))
  ∧ (mt_timing testimony = None →
     mt_void_of_course testimony = false
     ∧ mt_favorable testimony = (adjusted_dignity >? 0)%Z
     ∧ mt_unfavorable testimony
       = (negb (adjusted_dignity >? 0) && (adjusted_dignity <? -3))%Z).
Proof.
  cbn zeta. split; [|split; [|split]].
  - intros [Hfor Hagainst].
    destruct (moon_testimony_exclusive config chart querent quesited
                ignore_void_moon) as [Hex _].
    specialize (Hex Hfor). congruence.
  - intros ->. apply moon_testimony_override.
  - intros ->. unfold _check_enhanced_moon_testimony. cbn [negb andb].
    destruct (void (_is_moon_void_of_course_enhanced config chart)),
             (exception (_is_moon_void_of_course_enhanced config chart));
      cbn [negb andb];
      repeat match goal with
      | |- context [match ?c with _ => _ end] =>
          lazymatch c with
          | context [match _ with _ => _ end] => fail
          | _ => destruct c
          end
      end; cbn; repeat split; intros; try congruence;
      match goal with Hc : _ ∧ _ |- _ => destruct Hc; congruence end.
  - unfold _check_enhanced_moon_testimony.
    repeat match goal with
    | |- context [match ?c with _ => _ end] =>
        lazymatch c with
        | context [match _ with _ => _ end] => fail
        | _ => destruct c eqn:?
        end
    end; cbn; intros; try discriminate; repeat split;
      rewrite ?andb_true_r; try reflexivity; cbn; congruence.
Qed.

(** ** The shape of a judgment *)

Section JudgmentShape.
Context `{HoraryMath} `{Ephemeris}.
Variable config : Config.
Variable chart : HoraryChart.
Variable question_analysis : QuestionAnalysis.
Variables ignore_radicality ignore_void_moon ignore_combustion ignore_saturn_7th : bool.
Variable boost : Q.

(** X18. A judgment that is returned is YES, NO, UNCLEAR, NOT RADICAL or
    CANNOT JUDGE.  It is NOT RADICAL only without the radicality override,
    with confidence zero and the radicality reason as its only line.
    UNCLEAR only ever comes from the Moon; a perfection always gives YES or
    NO; a Moon reported void of course never gives YES, and under the
    void-Moon override the Moon only ever gives UNCLEAR.  The solar factors
    are missing exactly from the NOT RADICAL and CANNOT JUDGE answers, the
    timing exactly from those and from denials, and the reasoning has
    between one and six lines. *)
Theorem judgment_shape (judgment : Judgment) :
  _apply_enhanced_judgment config chart question_analysis ignore_radicality
    ignore_void_moon ignore_combustion ignore_saturn_7th boost = Return judgment →
  (j_result judgment ≠ ERROR ∧ j_result judgment ≠ LOCATION_ERROR)
  ∧ (j_result judgment = NOT_RADICAL →
     ignore_radicality = false ∧ j_confidence judgment = 0%Z
     ∧ j_reasoning judgment
       = [rad_reason (_check_enhanced_radicality config chart ignore_saturn_7th)])
  ∧ (j_result judgment = UNCLEAR →
     j_moon_void judgment ≠ None ∧ j_perfection_type judgment = None)
  ∧ (j_perfection_type judgment ≠ None →
     (j_result judgment = YES ∨ j_result judgment = NO)
     ∧ j_timing judgment ≠ None)
  ∧ (j_moon_void judgment = Some true → j_result judgment ≠ YES)
  ∧ (ignore_void_moon = true → j_moon_void judgment ≠ None →
     j_result judgment = UNCLEAR ∧ j_moon_void judgment = Some true)
  ∧ (j_solar_factors judgment = None ↔
     j_result judgment = NOT_RADICAL ∨ j_result judgment = CANNOT_JUDGE)
  ∧ (j_timing judgment = None →
     j_perfection_type judgment = None ∧ j_moon_void judgment = None)
  ∧ (1 ≤ length (j_reasoning judgment) ≤ 6)%nat.
Proof.
  unfold _apply_enhanced_judgment. intros Hjudge.
  destruct (negb ignore_radicality && negb (rad_valid _)) eqn:Hrad.
  { injection Hjudge as <-. cbn.
    apply andb_true_iff in Hrad as [Hignore _]. apply negb_true_iff in Hignore.
    repeat split; intros; try congruence; try discriminate; auto; lia. }
  assert (Hlen : length (if negb ignore_radicality
                         then [Lit "Radicality: "
                               :: rad_reason (_check_enhanced_radicality config chart
                                                ignore_saturn_7th)]
                         else [[Lit "Radicality: Bypassed by override"]]) = 1%nat)
    by (by destruct (negb ignore_radicality)).
  destruct (_identify_significators chart question_analysis)
    as [why|querent quesited description].
  { injection Hjudge as <-. cbn. rewrite length_app, Hlen. cbn.
    repeat split; intros; try congruence; try discriminate; auto; lia. }
  set (solar := _analyze_enhanced_solar_factors chart querent quesited
                  ignore_combustion) in *.
  destruct (if significant solar then _ else _) as [confidence reasoning] eqn:Hsolar.
  assert (Hreasoning : (2 ≤ length reasoning ≤ 4)%nat).
  { revert Hsolar.
    repeat match goal with
    | |- context [if ?c then _ else _] =>
        lazymatch c with
        | negb _ => fail
        | _ => destruct c
        end
    end; intros [= _ <-]; rewrite ?length_app, Hlen; cbn; lia. }
  clear Hsolar.
  destruct (_check_enhanced_perfection config chart querent quesited boost)
    as [perfection|].
  { destruct (_calculate_enhanced_timing chart perfection) as [timing|e];
      cbn in Hjudge; [|discriminate].
    injection Hjudge as <-. cbn. rewrite length_app. cbn.
    destruct (perf_favorable perfection);
      repeat split; intros; try congruence; try discriminate; auto; try lia;
      match goal with Hor : _ ∨ _ |- _ => destruct Hor; discriminate end. }
  destruct (_check_enhanced_denial_conditions config chart querent quesited)
    as [[denial_confidence denial_reason]|].
  { injection Hjudge as <-. cbn. rewrite length_app. cbn.
    repeat split; intros; try congruence; try discriminate; auto; try lia;
      match goal with Hor : _ ∨ _ |- _ => destruct Hor; discriminate end. }
  pose proof (moon_testimony_exclusive config chart querent quesited
                ignore_void_moon) as [_ Hvoid].
  pose proof (moon_testimony_override config chart querent quesited) as Hoverride.
  cbn zeta in Hvoid, Hoverride.
  destruct ignore_void_moon.
  - destruct Hoverride as (Hfor & Hagainst & Hvc).
    rewrite Hfor, Hagainst, Hvc in Hjudge.
    injection Hjudge as <-. cbn. rewrite length_app. cbn.
    repeat split; intros; try congruence; try discriminate; auto; try lia;
      match goal with Hor : _ ∨ _ |- _ => destruct Hor; discriminate end.
  - clear Hoverride.
    destruct (mt_favorable _) eqn:Hfor.
    + injection Hjudge as <-. cbn. rewrite length_app. cbn.
      repeat split; intros; try congruence; try discriminate; auto; try lia;
        try (match goal with Hor : _ ∨ _ |- _ => destruct Hor; discriminate end).
      match goal with
      | Hv : Some _ = Some true |- _ =>
          injection Hv as Hvc; specialize (Hvoid Hvc); discriminate
      end.
    + destruct (mt_unfavorable _);
        injection Hjudge as <-; cbn; rewrite length_app; cbn;
        repeat split; intros; try congruence; try discriminate; auto; try lia;
        match goal with Hor : _ ∨ _ |- _ => destruct Hor; discriminate end.
Qed.

End JudgmentShape.

(** The opposition of Venus and Mars in mutual reception is judged YES by a
    direct perfection, with a timing and four lines of reasoning at most
    six. *)
Lemma judgment_shape_witness :
  ∃ judgment,
    _apply_enhanced_judgment (H := spec_math 0) (H0 := steady_moon 13)
      sample_config (opposition_in_reception 15 []) seventh_house_question
      false false false false 15 = Return judgment
    ∧ j_result judgment = YES
    ∧ j_perfection_type judgment = Some direct
    ∧ j_timing judgment ≠ None
    ∧ (1 ≤ length (j_reasoning judgment) ≤ 6)%nat.
Proof.
  assert (Hrun : match _apply_enhanced_judgment (H := spec_math 0)
                         (H0 := steady_moon 13) sample_config
                         (opposition_in_reception 15 []) seventh_house_question
                         false false false false 15 with
                 | Return judgment =>
                     j_result judgment = YES
                     ∧ j_perfection_type judgment = Some direct
                 | Raise _ => False
                 end) by (vm_compute; split; reflexivity).
  destruct (_apply_enhanced_judgment (H := spec_math 0) (H0 := steady_moon 13)
              sample_config (opposition_in_reception 15 []) seventh_house_question
              false false false false 15) as [judgment|e] eqn:Hjudge;
    [|destruct Hrun].
  destruct Hrun as [Hyes Htype].
  destruct (judgment_shape (H := spec_math 0) (H0 := steady_moon 13)
              sample_config (opposition_in_reception 15 []) seventh_house_question
              false false false false 15 judgment Hjudge)
    as (_ & _ & _ & Hperf & _ & _ & _ & _ & Hlen).
  exists judgment. repeat split; try assumption; try lia.
  apply Hperf. rewrite Htype. discriminate.
Defined.

(** ** Timing descriptions *)

Lemma int_floor_bounds (x : Q) :
  0 <= x → inject_Z (Py.int x) <= x ∧ x < inject_Z (Py.int x) + 1.
Proof.
  intros H0. unfold Py.int.
  assert (Hneg : (x <? 0) = false) by (apply Qlt_bool_false_iff; exact H0).
  rewrite Hneg. split; [apply Qfloor_le|].
  pose proof (Qlt_floor x) as Hhi. rewrite inject_Z_plus in Hhi. exact Hhi.
Qed.

Lemma int_between (x : Q) (lo hi : Z) :
  0 <= x → inject_Z lo <= x → x < inject_Z hi → (lo <= Py.int x < hi)%Z.
Proof.
  intros H0 Hlo Hhi. destruct (int_floor_bounds x H0) as [Hf Hf'].
  split.
  - apply Z.lt_succ_r. rewrite Zlt_Qlt.
    unfold Z.succ. rewrite inject_Z_plus. change (inject_Z 1) with 1. lra.
  - rewrite Zlt_Qlt. lra.
Qed.

(** X19. A timing description is one of six forms, decided by the number
    of days alone: hours below half a day (negative numbers included), a
    day below one, then whole days from 1 to 6, whole weeks from 1 to 4,
    whole months of thirty days from 1 to 12, and more than a year from 365
    days on.  The calculator's formatter is the same on finite numbers and
    reads an infinite one as more than a year. *)
Theorem timing_description_forms (days : Q) :
  let description := _format_timing_description_enhanced days in
  ((days < 1 # 2 ∧ description = [Lit "Within hours"])
   ∨ (1 # 2 <= days ∧ days < 1 ∧ description = [Lit "Within a day"])
   ∨ (∃ n, (1 <= n <= 6)%Z ∧ inject_Z n <= days ∧ days < inject_Z n + 1
        ∧ description = [Lit "Within "; Int n; Lit " days"])
   ∨ (∃ n, (1 <= n <= 4)%Z ∧ 7 * inject_Z n <= days ∧ days < 7 * (inject_Z n + 1)
        ∧ description = [Lit "Within "; Int n; Lit " weeks"])
   ∨ (∃ n, (1 <= n <= 12)%Z ∧ 30 * inject_Z n <= days
        ∧ days < 30 * (inject_Z n + 1)
        ∧ description = [Lit "Within "; Int n; Lit " months"])
   ∨ (365 <= days ∧ description = [Lit "More than a year"]))
  ∧ _format_timing_description (Finite days) = description
  ∧ _format_timing_description Inf = [Lit "More than a year"].
Proof.
  cbn zeta. split; [|split; reflexivity].
  unfold _format_timing_description_enhanced.
  qcase (days <? 1 # 2); [left; by split|].
  qcase (days <? 1); [right; left; by repeat split|].
  qcase (days <? 7).
  { right; right; left. exists (Py.int days).
    destruct (int_floor_bounds days ltac:(lra)) as [Hlo Hhi].
    pose proof (int_between days 1 7 ltac:(lra) ltac:(unfold inject_Z; lra) ltac:(unfold inject_Z; lra)).
    repeat split; try assumption; lia. }
  qcase (days <? 30).
  { right; right; right; left. exists (Py.int (days / 7)).
    assert (Hw : days == 7 * (days / 7)) by field.
    set (weeks := days / 7) in *.
    destruct (int_floor_bounds weeks ltac:(lra)) as [Hlo Hhi].
    pose proof (int_between weeks 1 5 ltac:(lra) ltac:(unfold inject_Z; lra) ltac:(unfold inject_Z; lra)).
    repeat split; try lia; try reflexivity; lra. }
  qcase (days <? 365).
  { right; right; right; right; left. exists (Py.int (days / 30)).
    assert (Hm : days == 30 * (days / 30)) by field.
    set (months := days / 30) in *.
    destruct (int_floor_bounds months ltac:(lra)) as [Hlo Hhi].
    pose proof (int_between months 1 13 ltac:(lra) ltac:(unfold inject_Z; lra) ltac:(unfold inject_Z; lra)).
    repeat split; try lia; try reflexivity; lra. }
  right; right; right; right; right. by split.
Qed.

(** ** Planetary day and hour, lunar mansion *)

Lemma planetary_rulers_spec (weekday hour_index : Z) :
  ∃ start_idx hour_ruler,
    list_index (default SUN (PLANETARY_DAY_RULERS !! weekday)) PLANET_SEQUENCE
    = Some start_idx
    ∧ PLANET_SEQUENCE !! Z.to_nat ((Z.of_nat start_idx + hour_index) mod 7)
      = Some hour_ruler
    ∧ planetary_rulers weekday hour_index
      = Return (default SUN (PLANETARY_DAY_RULERS !! weekday), hour_ruler).
Proof.
  unfold planetary_rulers.
  generalize (default SUN (PLANETARY_DAY_RULERS !! weekday)). intros day_ruler.
  assert (∃ start_idx, list_index day_ruler PLANET_SEQUENCE = Some start_idx)
    as [start_idx Hidx] by (destruct day_ruler; vm_compute; eauto).
  rewrite Hidx. exists start_idx.
  pose proof (Z.mod_pos_bound (Z.of_nat start_idx + hour_index) 7 ltac:(lia)) as Hm.
  set (m := ((Z.of_nat start_idx + hour_index) mod 7)%Z) in *.
  unfold getitem.
  assert (Hneg : (m <? 0)%Z = false) by (apply Z.ltb_ge; lia).
  rewrite Hneg.
  assert (Hcases : (m = 0 ∨ m = 1 ∨ m = 2 ∨ m = 3 ∨ m = 4 ∨ m = 5 ∨ m = 6)%Z) by lia.
  destruct Hcases as [->|[->|[->|[->|[->|[->| ->]]]]]]; cbn; eauto.
Qed.

Lemma list_index_lookup {A} `{EqDecision A} (x : A) (l : list A) (i : nat) :
  list_index x l = Some i → l !! i = Some x.
Proof.
  revert i. induction l as [|y rest IH]; intros i; cbn; [intros [=]|].
  case_bool_decide as Hy.
  - intros [= <-]. by subst.
  - destruct (list_index x rest) as [j|]; cbn; [|intros [=]].
    intros [= <-]. cbn. by apply IH.
Qed.

(** X20. The rulers of the day and of the hour are always found: neither
    the search in the planet sequence nor the indexing fails, for any
    weekday and hour.  An hour that is a multiple of seven is ruled by the
    day ruler, and hours seven apart share their ruler.  The table of day
    rulers agrees with the sequence of the hours: the first hour of the
    next day is ruled by the planet that follows the ruler of hour 23 in
    the sequence. *)
Theorem planetary_hours_follow_the_sequence (weekday hour_index : Z) :
  (∃ hour_ruler,
     planetary_rulers weekday hour_index
     = Return (default SUN (PLANETARY_DAY_RULERS !! weekday), hour_ruler)
     ∧ (hour_index mod 7 = 0 →
        hour_ruler = default SUN (PLANETARY_DAY_RULERS !! weekday))%Z)
  ∧ planetary_rulers weekday (hour_index + 7) = planetary_rulers weekday hour_index
  ∧ ((0 <= weekday <= 6)%Z →
     ∃ day_ruler last next_day_ruler i,
       planetary_rulers weekday 23 = Return (day_ruler, last)
       ∧ planetary_rulers ((weekday + 1) mod 7) 0
         = Return (next_day_ruler, next_day_ruler)
       ∧ PLANET_SEQUENCE !! i = Some last
       ∧ PLANET_SEQUENCE !! ((i + 1) mod 7)%nat = Some next_day_ruler).
Proof.
  split; [|split].
  - destruct (planetary_rulers_spec weekday hour_index)
      as (start_idx & hour_ruler & Hidx & Hhour & Hrun).
    exists hour_ruler. split; [exact Hrun|].
    intros Hmultiple.
    pose proof (list_index_lookup _ _ _ Hidx) as Hday.
    pose proof (lookup_lt_Some _ _ _ Hday) as Hlt. cbn in Hlt.
    assert (Hsame : ((Z.of_nat start_idx + hour_index) mod 7 = Z.of_nat start_idx)%Z)
      by lia.
    rewrite Hsame, Nat2Z.id in Hhour. congruence.
  - unfold planetary_rulers.
    destruct (list_index _ PLANET_SEQUENCE) as [start_idx|]; [|reflexivity].
    assert (Hsame : ((Z.of_nat start_idx + (hour_index + 7)) mod 7
                     = (Z.of_nat start_idx + hour_index) mod 7)%Z) by lia.
    by rewrite Hsame.
  - intros Hweekday.
    assert (Hcases : (weekday = 0 ∨ weekday = 1 ∨ weekday = 2 ∨ weekday = 3
                      ∨ weekday = 4 ∨ weekday = 5 ∨ weekday = 6)%Z) by lia.
    destruct Hcases as [->|[->|[->|[->|[->|[->| ->]]]]]].
    + exists MOON, JUPITER, MARS, 1%nat. by vm_compute.
    + exists MARS, VENUS, MERCURY, 4%nat. by vm_compute.
    + exists MERCURY, SATURN, JUPITER, 0%nat. by vm_compute.
    + exists JUPITER, SUN, VENUS, 3%nat. by vm_compute.
    + exists VENUS, MOON, SATURN, 6%nat. by vm_compute.
    + exists SATURN, MARS, SUN, 2%nat. by vm_compute.
    + exists SUN, MERCURY, MOON, 5%nat. by vm_compute.
Qed.


(** X22. The phase name and the speed category that are displayed always
    come from the same band as the phase bonus and the speed bonus that are
    applied; with the Moon and the Sun on the circle the phase is never
    one of the three waning ones. *)
Theorem displayed_moon_condition_matches_bonus (config : Config)
    (chart : HoraryChart) :
  let pb := phase_bonus (cfg_moon config) in
  let sb := speed_bonus (cfg_moon config) in
  (_moon_speed_category (pp_speed (planets chart MOON)),
   _moon_speed_bonus config chart)
  ∈ [("Very Slow", very_slow sb); ("Slow", slow sb); ("Average", average sb);
     ("Fast", fast sb); ("Very Fast", very_fast sb)]
  ∧ (_get_moon_phase_name chart, _moon_phase_bonus config chart)
    ∈ [("New Moon", new_moon pb); ("Waxing Crescent", waxing_crescent pb);
       ("First Quarter", first_quarter pb); ("Waxing Gibbous", waxing_gibbous pb);
       ("Full Moon", full_moon pb); ("Waning Gibbous", waning_gibbous pb);
       ("Last Quarter", last_quarter pb); ("Waning Crescent", waning_crescent pb)]
  ∧ (longitude_in_circle (planets chart MOON) →
     longitude_in_circle (planets chart SUN) →
     (_get_moon_phase_name chart, _moon_phase_bonus config chart)
     ∈ [("New Moon", new_moon pb); ("Waxing Crescent", waxing_crescent pb);
        ("First Quarter", first_quarter pb); ("Waxing Gibbous", waxing_gibbous pb);
        ("Full Moon", full_moon pb)]).
Proof.
  cbn zeta. split; [|split].
  - unfold _moon_speed_category, _moon_speed_bonus.
    repeat match goal with
    | |- context [if ?c then _ else _] => destruct c
    end;
      solve [repeat first [apply list_elem_of_here | apply list_elem_of_further]].
  - unfold _get_moon_phase_name, _moon_phase_bonus.
    repeat match goal with
    | |- context [if ?c then _ else _] => destruct c
    end;
      solve [repeat first [apply list_elem_of_here | apply list_elem_of_further]].
  - intros Hmoon Hsun.
    destruct (moon_sun_elongation_range chart Hmoon Hsun) as [H0 H180].
    unfold _get_moon_phase_name, _moon_phase_bonus.
    repeat match goal with
    | |- context [if ?c then _ else _] => destruct c eqn:?
    end;
      first [ solve [repeat first [apply list_elem_of_here
                                  | apply list_elem_of_further]]
            | exfalso; qsplit; lra ].
Qed.

(** ** Question analysis *)

Module AnalyzerFacts.
Import TraditionalHoraryQuestionAnalyzer.

Lemma turn_is_house (base offset : Z) : is_house (_turn base offset).
Proof. unfold is_house, _turn. lia. Qed.

Lemma keep_first_spec (houses : list Z) (seen : gset Z) :
  NoDup (keep_first seen houses)
  ∧ ∀ h, h ∈ keep_first seen houses ↔ h ∈ houses ∧ h ∉ seen.
Proof.
  revert seen. induction houses as [|x rest IH]; intros seen; cbn.
  - split; [constructor|]. intros h. rewrite elem_of_nil. tauto.
  - case_bool_decide as Hseen.
    + destruct (IH seen) as [Hnodup Hmem]. split; [assumption|].
      intros h. rewrite Hmem, elem_of_cons. split; [tauto|].
      intros [[->|Hin] Hout]; [contradiction | tauto].
    + destruct (IH ({[x]} ∪ seen)) as [Hnodup Hmem]. split.
      * constructor; [|assumption]. rewrite Hmem.
        intros [_ Hout]. apply Hout, elem_of_union_l. by apply elem_of_singleton.
      * intros h. rewrite !elem_of_cons, Hmem. split.
        -- intros [->|[Hin Hout]]; [tauto|]. split; [tauto|].
           intros Hs. apply Hout. by apply elem_of_union_r.
        -- intros [[->|Hin] Hout]; [tauto|].
           destruct (decide (h = x)) as [->|Hne]; [tauto|]. right.
           split; [assumption|].
           intros [Hx%elem_of_singleton|Hs]%elem_of_union; tauto.
Qed.

Lemma first_key_in (table : list (Z * list string)) (text : string) (k : Z) :
  first_key table text = Some k → k ∈ table.*1.
Proof.
  unfold first_key. intros Hk. apply fmap_Some in Hk as ([k' kws] & Hfind & ->).
  apply find_some in Hfind as [Hin _]. apply list_elem_of_In in Hin.
  by apply (list_elem_of_fmap_2 fst) in Hin.
Qed.

Lemma house_keywords_appended (text : string) (table : list (Z * list string))
    (houses : list Z) :
  ∃ extra,
    fold_left (λ houses '(house, keywords),
      if negb (bool_decide (house ∈ houses)) && any_in keywords text
      then houses ++ [house] else houses) table houses
    = houses ++ extra
    ∧ Forall (λ h, h ∈ table.*1) extra.
Proof.
  revert houses. induction table as [|[house keywords] table IH]; intros houses; cbn.
  - exists []. by rewrite app_nil_r.
  - destruct (negb _ && _).
    + destruct (IH (houses ++ [house])) as (extra & -> & Hextra).
      exists (house :: extra). rewrite <- app_assoc. split; [reflexivity|].
      constructor; [apply list_elem_of_here|].
      eapply Forall_impl; [exact Hextra|]. intros h Hh. by apply list_elem_of_further.
    + destruct (IH houses) as (extra & -> & Hextra).
      exists extra. split; [reflexivity|].
      eapply Forall_impl; [exact Hextra|]. intros h Hh. by apply list_elem_of_further.
Qed.

Lemma house_meanings_keys (h : Z) : h ∈ house_meanings.*1 → is_house h.
Proof.
  cbn. unfold is_house. rewrite !elem_of_cons, elem_of_nil. lia.
Qed.

Lemma person_keywords_keys (h : Z) :
  h ∈ person_keywords.*1 → is_house h ∧ h ≠ 1%Z.
Proof.
  cbn. unfold is_house. rewrite !elem_of_cons, elem_of_nil. lia.
Qed.

Section Houses.
Variable lower : string → string.

Lemma determine_houses_shape (question q_type : string) :
  ∃ tail,
    _determine_houses lower question q_type = keep_first ∅ (1%Z :: tail)
    ∧ Forall is_house tail
    ∧ ∃ h, h ∈ tail ∧ h ≠ 1%Z.
Proof.
  unfold _determine_houses.
  destruct (first_key person_keywords (lower question)) as [subject|] eqn:Hsubject.
  - apply first_key_in, person_keywords_keys in Hsubject as [Hhouse Hne].
    pose proof (turn_is_house subject 8) as Heighth.
    pose proof (turn_is_house subject 6) as Hsixth.
    destruct (any_in _ (lower question));
      [exists [_turn subject 8; subject]
      |destruct (any_in _ (lower question));
         [exists [_turn subject 6; subject] | exists [subject]]];
      (split; [reflexivity|]);
      (split; [rewrite ?Forall_cons; repeat split;
                 first [apply Forall_nil_2 | unfold is_house in *; lia]|]);
      exists subject; (split; [|assumption]);
      solve [repeat first [apply list_elem_of_here | apply list_elem_of_further]].
  - match goal with
    | |- context [fold_left ?f house_meanings ?start] =>
        destruct (house_keywords_appended (lower question) house_meanings start)
          as (extra & Hfold & Hextra)
    end.
    assert (Hextra' : Forall is_house extra).
    { eapply Forall_impl; [exact Hextra|]. apply house_meanings_keys. }
    rewrite Hfold. clear Hfold.
    repeat match goal with
    | |- context [if ?c then _ else _] => destruct c
    end;
      match goal with
      | |- context [([1%Z] ++ [?x]) ++ extra] =>
          exists (x :: extra); (split; [reflexivity|]);
          (split; [apply Forall_cons; split; [unfold is_house; lia | assumption]|]);
          exists x; (split; [apply list_elem_of_here | lia])
      end.
Qed.

Lemma analyzed_houses (question q_type : string) :
  ∃ quesited rest,
    _determine_houses lower question q_type = 1%Z :: quesited :: rest
    ∧ quesited ≠ 1%Z
    ∧ NoDup (_determine_houses lower question q_type)
    ∧ Forall is_house (_determine_houses lower question q_type).
Proof.
  destruct (determine_houses_shape question q_type)
    as (tail & -> & Hhouses & h & Hin & Hne).
  destruct (keep_first_spec (1%Z :: tail) ∅) as [Hnodup Hmem].
  cbn in *. rewrite bool_decide_eq_false_2 in * by apply not_elem_of_empty.
  destruct (keep_first_spec tail ({[1%Z]} ∪ ∅)) as [_ Htail].
  destruct (keep_first ({[1%Z]} ∪ ∅) tail) as [|quesited rest] eqn:Hkept.
  { exfalso. apply (elem_of_nil h). apply Htail. split; [assumption|].
    intros [Hx%elem_of_singleton|Hs%elem_of_empty]%elem_of_union; tauto. }
  exists quesited, rest. split; [reflexivity|]. split; [|split].
  - destruct (Htail quesited) as [Hq _].
    destruct (Hq (list_elem_of_here _ _)) as [_ Hout].
    intros ->. apply Hout, elem_of_union_l. by apply elem_of_singleton.
  - assumption.
  - constructor; [unfold is_house; lia|].
    apply Forall_forall. intros x Hx. apply Htail in Hx as [Hx _].
    by apply (proj1 (Forall_forall _ _) Hhouses).
Qed.

End Houses.

End AnalyzerFacts.

(** X23. Turning a house always gives a house from 1 to 12, and turning
    twice is turning by the sum of the offsets.  From one of the twelve
    houses an offset lands on the house itself exactly when it is a multiple
    of twelve: the offset counts steps away from the base, so the offset 1
    gives the next house and not the base. *)
Theorem turn_counts_steps_from_the_base (base offset offset' : Z) :
  let _turn := TraditionalHoraryQuestionAnalyzer._turn in
  (1 <= _turn base offset <= 12)%Z
  ∧ _turn (_turn base offset) offset' = _turn base (offset + offset')%Z
  ∧ ((1 <= base <= 12)%Z → (_turn base offset = base ↔ (offset mod 12 = 0)%Z))
  ∧ ((1 <= base <= 11)%Z → _turn base 1%Z = (base + 1)%Z).
Proof.
  cbn zeta. unfold TraditionalHoraryQuestionAnalyzer._turn.
  repeat split; intros; lia.
Qed.

(** X24. Whatever the question, the analysed houses start with the first
    house followed by at least one other house, the quesited house, which is
    never the first; the houses are all between 1 and 12 and none is listed
    twice.  The default of the seventh house for a list of fewer than two
    houses is therefore never used. *)
Theorem analyzed_question_has_a_quesited_house (lower : string → string)
    (question : string) :
  let analysis := TraditionalHoraryQuestionAnalyzer.analyze_question lower question in
  ∃ quesited rest,
    relevant_houses analysis = 1%Z :: quesited :: rest
    ∧ quesited_house analysis = quesited
    ∧ quesited ≠ 1%Z
    ∧ NoDup (relevant_houses analysis)
    ∧ Forall (λ h, 1 <= h <= 12)%Z (relevant_houses analysis).
Proof.
  cbn zeta.
  destruct (AnalyzerFacts.analyzed_houses lower question
              (TraditionalHoraryQuestionAnalyzer._determine_question_type
                 (lower question)))
    as (quesited & rest & Heq & Hne & Hnodup & Hhouses).
  exists quesited, rest.
  unfold TraditionalHoraryQuestionAnalyzer.analyze_question.
  cbn [relevant_houses quesited_house].
  repeat split; try assumption.
  rewrite Heq. reflexivity.
Qed.

(** ** Applying aspects of the calculator in the judgment *)

Lemma Qabs_cases (x : Q) : (0 <= x ∧ Qabs x = x) ∨ (x <= 0 ∧ Qabs x = - x).
Proof. apply (Qabs_case x (λ y, (0 <= x ∧ y = x) ∨ (x <= 0 ∧ y = - x))); auto. Qed.

(** Case analysis on every absolute value in sight. *)
Ltac qabs :=
  repeat match goal with
  | |- context [Qabs ?x] =>
      let Hs := fresh "Hsign" in let Ha := fresh "Habs" in
      destruct (Qabs_cases x) as [[Hs Ha]|[Hs Ha]]; rewrite Ha in *; clear Ha
  | H : context [Qabs ?x] |- _ =>
      let Hs := fresh "Hsign" in let Ha := fresh "Habs" in
      destruct (Qabs_cases x) as [[Hs Ha]|[Hs Ha]]; rewrite Ha in *; clear Ha
  end.

Lemma while_above_180_turns (n : nat) (s : Q) :
  ∃ k : Z, while_above_180 n s == s + 360 * inject_Z k.
Proof.
  revert s. induction n as [|n IH]; intros s; cbn.
  - exists 0%Z. change (inject_Z 0) with 0. ring.
  - destruct (s >? 180).
    + destruct (IH (s - 360)) as [k Hk]. exists (k + -1)%Z.
      rewrite Hk, inject_Z_plus. change (inject_Z (-1)) with (-1). ring.
    + exists 0%Z. change (inject_Z 0) with 0. ring.
Qed.

Lemma while_below_minus_180_turns (n : nat) (s : Q) :
  ∃ k : Z, while_below_minus_180 n s == s + 360 * inject_Z k.
Proof.
  revert s. induction n as [|n IH]; intros s; cbn.
  - exists 0%Z. change (inject_Z 0) with 0. ring.
  - destruct (s <? -180).
    + destruct (IH (s + 360)) as [k Hk]. exists (k + 1)%Z.
      rewrite Hk, inject_Z_plus. change (inject_Z 1) with 1. ring.
    + exists 0%Z. change (inject_Z 0) with 0. ring.
Qed.

Lemma normalize_separation_turns (s : Q) :
  ∃ k : Z, normalize_separation s == s + 360 * inject_Z k.
Proof.
  unfold normalize_separation.
  destruct (while_above_180_turns (loop_budget s) s) as [j Hj].
  destruct (while_below_minus_180_turns
              (loop_budget (while_above_180 (loop_budget s) s))
              (while_above_180 (loop_budget s) s)) as [k Hk].
  exists (j + k)%Z. rewrite Hk, Hj, inject_Z_plus. ring.
Qed.

Lemma normalized_is_angular (a b : Q) :
  0 <= a → a < 360 → 0 <= b → b < 360 →
  Qabs (normalize_separation (a - b)) == angular_separation a b.
Proof.
  intros Ha0 Ha1 Hb0 Hb1.
  destruct (normalize_separation_range (a - b)) as [Hlo Hhi].
  destruct (normalize_separation_turns (a - b)) as [k Hk].
  set (n := normalize_separation (a - b)) in *.
  assert (Hcases : (k <= -2 ∨ k = -1 ∨ k = 0 ∨ k = 1 ∨ 2 <= k)%Z) by lia.
  unfold angular_separation.
  destruct Hcases as [Hk2|[->|[->|[->|Hk2]]]].
  - exfalso. rewrite Zle_Qle in Hk2. change (inject_Z (-2)) with (-2) in Hk2. lra.
  - change (inject_Z (-1)) with (-1) in Hk.
    qcase (Qabs (a - b) >? 180); qabs; lra.
  - change (inject_Z 0) with 0 in Hk.
    qcase (Qabs (a - b) >? 180); qabs; lra.
  - change (inject_Z 1) with 1 in Hk.
    qcase (Qabs (a - b) >? 180); qabs; lra.
  - exfalso. rewrite Zle_Qle in Hk2. change (inject_Z 2) with 2 in Hk2. lra.
Qed.

Lemma min_by_key_spec {A} (key : A → Q) (best : A) (l : list A) :
  min_by_key key best l ∈ best :: l
  ∧ ∀ x, x ∈ best :: l → key (min_by_key key best l) <= key x.
Proof.
  revert best. induction l as [|y rest IH]; intros best; cbn.
  - split; [apply list_elem_of_here|].
    intros x Hx. apply elem_of_cons in Hx as [->|Hx]; [lra|].
    by apply elem_of_nil in Hx.
  - qcase (key y <? key best).
    + destruct (IH y) as [Hin Hleast]. split.
      * by apply list_elem_of_further.
      * intros x Hx. apply elem_of_cons in Hx as [->|Hx].
        -- specialize (Hleast y (list_elem_of_here _ _)). lra.
        -- by apply Hleast.
    + destruct (IH best) as [Hin Hleast]. split.
      * apply elem_of_cons in Hin as [Hin|Hin];
          [rewrite Hin; apply list_elem_of_here
          |by apply list_elem_of_further, list_elem_of_further].
      * intros x Hx. apply elem_of_cons in Hx as [->|Hx].
        -- by apply Hleast, list_elem_of_here.
        -- apply elem_of_cons in Hx as [->|Hx].
           ++ specialize (Hleast best (list_elem_of_here _ _)). lra.
           ++ by apply Hleast, list_elem_of_further.
Qed.

Lemma exits_before_proper (days_to_exit : option Q) (x y : Q) :
  x == y →
  exits_before days_to_exit (Finite x) = exits_before days_to_exit (Finite y).
Proof.
  intros Hxy. destruct days_to_exit as [d|]; [|reflexivity]. cbn.
  f_equal. apply Qlt_bool_proper; [reflexivity | exact Hxy].
Qed.

Section ComputedAspectsInJudgment.
Context `{HoraryMath}.
Variable config : Config.

Lemma closest_orb_is_orb (pos1 pos2 : PlanetPosition) (aspect : Aspect) :
  longitude_in_circle pos1 → longitude_in_circle pos2 →
  current_orb pos1 pos2 aspect
  == Qabs (angular_separation (pp_longitude pos1) (pp_longitude pos2)
           - aspect_degrees aspect).
Proof.
  intros [H10 H11] [H20 H21].
  assert (Hsep : Qabs (current_separation pos1 pos2)
                 == angular_separation (pp_longitude pos1) (pp_longitude pos2)).
  { unfold current_separation, faster_slower.
    destruct (Qabs (pp_speed pos1) >? Qabs (pp_speed pos2)).
    - by apply normalized_is_angular.
    - rewrite angular_separation_sym. by apply normalized_is_angular. }
  destruct (current_separation_range pos1 pos2) as [Hlo Hhi].
  unfold current_orb, closest_target. rewrite <- Hsep.
  set (sep := current_separation pos1 pos2) in *.
  destruct (aspect_targets aspect) as [first rest] eqn:Htargets.
  destruct (min_by_key_spec (λ t, Qabs (sep - t)) first rest) as [Hin Hleast].
  remember (min_by_key (λ t, Qabs (sep - t)) first rest) as closest eqn:Hclosest.
  clear Hclosest.
  pose proof (Hleast (aspect_degrees aspect)) as Hplus.
  pose proof (Hleast (- aspect_degrees aspect)) as Hminus.
  clear Hleast. unfold aspect_targets in Htargets.
  destruct aspect; cbn [aspect_degrees] in *;
    vm_compute in Htargets; injection Htargets as <- <-;
    (lapply Hplus; [clear Hplus; intros Hplus
                   |solve [repeat first [apply list_elem_of_here
                                        | apply list_elem_of_further]]]);
    (lapply Hminus; [clear Hminus; intros Hminus
                    |solve [repeat first [apply list_elem_of_here
                                         | apply list_elem_of_further]]]);
    rewrite !elem_of_cons, elem_of_nil in Hin;
    repeat match goal with Hor : _ ∨ _ |- _ => destruct Hor as [Hor|Hor] end;
    try contradiction; subst closest; qabs; lra.
Qed.

Lemma relative_speed_is_difference (pos1 pos2 : PlanetPosition) :
  relative_speed pos1 pos2 == Qabs (pp_speed pos1 - pp_speed pos2).
Proof.
  unfold relative_speed, faster_slower.
  destruct (Qabs (pp_speed pos1) >? Qabs (pp_speed pos2)); [reflexivity|].
  rewrite <- (Qabs_opp (pp_speed pos1 - pp_speed pos2)). apply Qabs_wd. ring.
Qed.

Lemma applying_perfects_in_sign (pos1 pos2 : PlanetPosition) (aspect : Aspect)
    (jd_ut : Q) (found : AspectDict) (chart : HoraryChart) :
  longitude_in_circle pos1 → longitude_in_circle pos2 →
  _is_applying_enhanced config pos1 pos2 aspect jd_ut = true →
  ad_degrees_to_exact found
  == Qabs (angular_separation (pp_longitude pos1) (pp_longitude pos2)
           - aspect_degrees aspect) →
  _enhanced_perfects_in_sign pos1 pos2 found chart = true
  ∧ _enhanced_perfects_in_sign pos2 pos1 found chart = true.
Proof.
  intros Hc1 Hc2 Happ Hdeg.
  apply is_applying_enhanced_iff in Happ as (Hfaster & Hslower & Hdec).
  pose proof (orb_decreasing_relative_speed config pos1 pos2 aspect Hdec) as Hrel.
  unfold applying_days_to_perfect in Hfaster, Hslower.
  assert (Hpos : (relative_speed pos1 pos2 >? 0) = true) by (by apply Qlt_bool_iff).
  rewrite Hpos in Hfaster, Hslower.
  pose proof (relative_speed_is_difference pos1 pos2) as Hspeed.
  assert (Hspeed' : relative_speed pos1 pos2 == Qabs (pp_speed pos2 - pp_speed pos1)).
  { rewrite Hspeed, <- (Qabs_opp (pp_speed pos1 - pp_speed pos2)).
    apply Qabs_wd. ring. }
  pose proof (closest_orb_is_orb pos1 pos2 aspect Hc1 Hc2) as Horb.
  assert (Hdays : ∀ relative, relative_speed pos1 pos2 == relative →
            current_orb pos1 pos2 aspect / relative_speed pos1 pos2
            == ad_degrees_to_exact found / relative).
  { intros relative Hr. rewrite Hdeg, <- Horb, <- Hr. reflexivity. }
  assert (Hexits : ∀ relative, relative_speed pos1 pos2 == relative →
            exits_before (days_to_sign_exit (pp_longitude pos1) (pp_speed pos1))
              (Finite (ad_degrees_to_exact found / relative)) = false
            ∧ exits_before (days_to_sign_exit (pp_longitude pos2) (pp_speed pos2))
                (Finite (ad_degrees_to_exact found / relative)) = false).
  { intros relative Hr.
    rewrite <- !(exits_before_proper _ _ _ (Hdays relative Hr)).
    revert Hfaster Hslower. unfold faster_slower.
    destruct (Qabs (pp_speed pos1) >? Qabs (pp_speed pos2)); cbn; auto. }
  split; apply enhanced_perfects_in_sign_iff; cbn zeta.
  - destruct (Hexits _ Hspeed) as [H1 H2]. repeat split; try assumption.
    rewrite <- Hspeed. lra.
  - destruct (Hexits _ Hspeed') as [H1 H2]. repeat split; try assumption.
    rewrite <- Hspeed'. lra.
Qed.

(** X25. Take a chart whose aspects are the ones the calculator computes
    for its planets.  An applying aspect found between two significators on
    the circle, with an orb of at least a tenth of a degree, always passes
    the judgment's own test of perfection before a sign is left: the
    calculator has already refused to call an aspect applying when a sign
    exit comes first, on the same days to exact.  So the perfection check
    always finds a perfection for it. *)
Theorem computed_applying_aspect_perfects_in_sign (ao : AspectOrbs)
    (chart : HoraryChart) (jd_ut : Q) (querent quesited : Planet)
    (found : AspectDict) :
  (∀ aspect, aspect ∈ aspects chart →
     aspect ∈ _calculate_enhanced_aspects config ao (planets chart) jd_ut) →
  longitude_in_circle (planets chart querent) →
  longitude_in_circle (planets chart quesited) →
  _find_applying_aspect chart querent quesited = Some found →
  1 # 10 <= ad_orb found →
  _enhanced_perfects_in_sign (planets chart querent) (planets chart quesited)
    found chart = true
  ∧ ∀ boost,
      _check_enhanced_perfection config chart querent quesited boost ≠ None.
Proof.
  intros Hcomputed Hquerent Hquesited Hfound Horb.
  assert (Hperfects :
    _enhanced_perfects_in_sign (planets chart querent) (planets chart quesited)
      found chart = true).
  { apply find_applying_aspect_some in Hfound as (aspect & Hin & Hbetween & ->).
    cbn [ad_orb] in Horb.
    apply Hcomputed in Hin.
    destruct (computed_aspect_pair config ao (planets chart) jd_ut aspect Hin)
      as [_ Hb].
    destruct (aspect_between_spec config ao (planets chart) jd_ut _ _ aspect Hb)
      as (_ & _ & Horb_eq & _ & Happ_eq & Hdeg_eq).
    unfold applying_between in Hbetween.
    apply andb_true_iff in Hbetween as [Hjoin Happ].
    rewrite Happ_eq in Happ. rewrite Horb_eq in Horb.
    set (found := {| ad_aspect := ai_aspect aspect; ad_orb := ai_orb aspect;
                     ad_degrees_to_exact := ai_degrees_to_exact aspect |}).
    assert (Hdeg : ad_degrees_to_exact found
                   == Qabs (angular_separation
                              (pp_longitude (planets chart (ai_planet1 aspect)))
                              (pp_longitude (planets chart (ai_planet2 aspect)))
                            - aspect_degrees (ai_aspect aspect))).
    { cbn [ad_degrees_to_exact found]. rewrite Hdeg_eq.
      unfold _calculate_enhanced_degrees_to_exact.
      destruct (_ <? 1 # 10) eqn:Hsmall; [|reflexivity].
      apply Qlt_bool_iff in Hsmall. lra. }
    apply orb_true_iff in Hjoin as [Hjoin|Hjoin];
      apply andb_true_iff in Hjoin as [Hp1 Hp2];
      apply bool_decide_eq_true in Hp1, Hp2; rewrite Hp1, Hp2 in *.
    - by destruct (applying_perfects_in_sign (planets chart querent)
                     (planets chart quesited) (ai_aspect aspect) jd_ut found chart
                     Hquerent Hquesited Happ Hdeg) as [Hgoal _].
    - by destruct (applying_perfects_in_sign (planets chart quesited)
                     (planets chart querent) (ai_aspect aspect) jd_ut found chart
                     Hquesited Hquerent Happ Hdeg) as [_ Hgoal]. }
  split; [exact Hperfects|].
  intros boost. unfold _check_enhanced_perfection. rewrite Hfound, Hperfects.
  destruct (_check_enhanced_mutual_reception chart querent quesited); discriminate.
Qed.

End ComputedAspectsInJudgment.

(** The opposition of Venus and Mars that the calculator computes for the
    sample chart, five degrees from exact, passes the judgment's test. *)
Lemma computed_applying_aspect_perfects_in_sign_witness :
  ∃ found,
    _find_applying_aspect chart_with_computed_aspects MARS VENUS = Some found
    ∧ ad_aspect found = OPPOSITION
    ∧ _enhanced_perfects_in_sign (H := spec_math 0)
        (planets chart_with_computed_aspects MARS)
        (planets chart_with_computed_aspects VENUS) found
        chart_with_computed_aspects = true.
Proof.
  destruct (_find_applying_aspect chart_with_computed_aspects MARS VENUS)
    as [found|] eqn:Hfound; [|vm_compute in Hfound; discriminate].
  assert (Hvalue : ad_aspect found = OPPOSITION ∧ 1 # 10 <= ad_orb found).
  { vm_compute in Hfound. injection Hfound as <-.
    split; [reflexivity | vm_compute; discriminate]. }
  destruct Hvalue as [Haspect Horb].
  destruct (computed_applying_aspect_perfects_in_sign (H := spec_math 0)
              sample_config sample_orbs chart_with_computed_aspects 0 MARS VENUS
              found) as [Hperfects _].
  - intros aspect Hin. exact Hin.
  - split; vm_compute; [discriminate | reflexivity].
  - split; vm_compute; [discriminate | reflexivity].
  - exact Hfound.
  - exact Horb.
  - exists found. by repeat split.
Defined.

(** ** Aspect positions in the Moon's sign *)

Lemma sign_end_cases (s : Sign) :
  (s ≠ PISCES
   ∧ fmod (sign_start_degree s + 30) 360 == sign_start_degree s + 30)
  ∨ (s = PISCES ∧ fmod (sign_start_degree s + 30) 360 == 0).
Proof.
  destruct s;
    first [ left; split; [discriminate | vm_compute; reflexivity]
          | right; split; [reflexivity | vm_compute; reflexivity] ].
Qed.

Lemma sign_start_multiple (s : Sign) :
  ∃ k : Z, sign_start_degree s == 30 * inject_Z k.
Proof.
  destruct s;
    [exists 0%Z | exists 1%Z | exists 2%Z | exists 3%Z | exists 4%Z | exists 5%Z
    |exists 6%Z | exists 7%Z | exists 8%Z | exists 9%Z | exists 10%Z | exists 11%Z];
    vm_compute; reflexivity.
Qed.

Lemma position_kept_in_sign (p : Q) (moon_sign : Sign) (pos : Q) :
  let sign_start := sign_start_degree moon_sign in
  let sign_end := fmod (sign_start + 30) 360 in
  let pos_normalized := fmod p 360 in
  pos ∈ (if sign_start <? sign_end then
           if (sign_start <=? pos_normalized) && (pos_normalized <? sign_end)
           then [pos_normalized] else []
         else
           if (pos_normalized >=? sign_start) || (pos_normalized <? sign_end)
           then [pos_normalized] else []) →
  pos = fmod p 360 ∧ in_sign_span moon_sign pos.
Proof.
  cbn zeta. unfold in_sign_span.
  destruct (fmod_range p 360 ltac:(lra)) as [H0 H360].
  destruct (sign_end_cases moon_sign) as [[_ Hend]|[-> Hend]].
  - qcase (sign_start_degree moon_sign <? fmod (sign_start_degree moon_sign + 30) 360);
      [|exfalso; lra].
    destruct (_ && _) eqn:Hin; [|intros Hp; by apply elem_of_nil in Hp].
    intros ->%list_elem_of_singleton. qbool. split; [reflexivity|]. split; lra.
  - cbn [sign_start_degree] in *.
    qcase (330 <? fmod (330 + 30) 360); [exfalso; lra|].
    destruct (_ || _) eqn:Hin; [|intros Hp; by apply elem_of_nil in Hp].
    intros ->%list_elem_of_singleton. split; [reflexivity|].
    qsplit; split; lra.
Qed.

(** X26. Every aspect position computed for the Moon's sign lies in the
    30 degree span of that sign, so [_get_sign] gives the Moon's sign for
    it; it is the planet's longitude plus or minus the angle of the aspect,
    reduced to the circle, and its degree within the sign is its distance
    from the start of the sign. *)
Theorem aspect_positions_lie_in_the_moon_sign (planet_longitude : Q)
    (aspect : Aspect) (moon_sign : Sign) (pos : Q) :
  pos ∈ _calculate_aspect_positions planet_longitude aspect moon_sign →
  in_sign_span moon_sign pos
  ∧ _get_sign pos = moon_sign
  ∧ (pos == fmod (planet_longitude + aspect_degrees aspect) 360
     ∨ pos == fmod (planet_longitude - aspect_degrees aspect) 360)
  ∧ fmod pos 30 == pos - sign_start_degree moon_sign.
Proof.
  intros Hin. unfold _calculate_aspect_positions in Hin.
  cbn [flat_map] in Hin. rewrite app_nil_r in Hin.
  assert (Hkept : in_sign_span moon_sign pos
                  ∧ (pos == fmod (planet_longitude + aspect_degrees aspect) 360
                     ∨ pos == fmod (planet_longitude - aspect_degrees aspect) 360)).
  { apply elem_of_app in Hin as [Hin|Hin];
      apply position_kept_in_sign in Hin as [-> Hspan];
      (split; [exact Hspan|]); [left | right];
      (apply fmod_small; apply fmod_range; lra). }
  destruct Hkept as [Hspan Hwhich]. split; [exact Hspan|]. split; [|split].
  - apply (sign_spans_disjoint _ _ (fmod pos 360)); [apply get_sign_span|].
    apply (in_sign_span_proper _ pos); [|exact Hspan].
    symmetry. destruct Hspan as [Hlo Hhi].
    apply fmod_small; destruct moon_sign; cbn [sign_start_degree] in *; lra.
  - exact Hwhich.
  - destruct Hspan as [Hlo Hhi].
    destruct (sign_start_multiple moon_sign) as [k Hk].
    assert (Hshift : pos == (pos - sign_start_degree moon_sign) + 30 * inject_Z k)
      by (rewrite <- Hk; ring).
    rewrite (fmod_proper _ _ 30 Hshift), fmod_add_turns by lra.
    apply fmod_small; lra.
Qed.

(** The sextile of a Sun at 100 degrees falls at 40 degrees, in Taurus. *)
Lemma aspect_positions_lie_in_the_moon_sign_witness :
  ∃ pos, pos ∈ _calculate_aspect_positions 100 SEXTILE TAURUS
         ∧ pos == 40 ∧ _get_sign pos = TAURUS ∧ fmod pos 30 == 10.
Proof.
  assert (Hin : fmod (fmod (100 - aspect_degrees SEXTILE) 360) 360
                ∈ _calculate_aspect_positions 100 SEXTILE TAURUS).
  { apply (list_elem_of_lookup_2 _ 0%nat). vm_compute. reflexivity. }
  destruct (aspect_positions_lie_in_the_moon_sign 100 SEXTILE TAURUS _ Hin)
    as (_ & Hsign & _ & Hdegree).
  eexists. split; [exact Hin|]. split; [vm_compute; reflexivity|].
  split; [exact Hsign|]. rewrite Hdegree. vm_compute. reflexivity.
Defined.

(** ** Void of course by orb *)

Lemma flat_map_nil_iff {A B} (f : A → list B) (l : list A) :
  flat_map f l = [] ↔ ∀ x, x ∈ l → f x = [].
Proof.
  induction l as [|a l IH]; cbn.
  - split; [intros _ x Hx; by apply elem_of_nil in Hx | reflexivity].
  - split.
    + intros Happ. apply app_eq_nil in Happ as [Ha Hl].
      intros x Hx. apply elem_of_cons in Hx as [->|Hx]; [exact Ha|].
      by apply IH.
    + intros Hall. rewrite (Hall a (list_elem_of_here _ _)). cbn.
      apply IH. intros x Hx. by apply Hall, list_elem_of_further.
Qed.

Lemma aspect_in_all (aspect : Aspect) : aspect ∈ all_aspects.
Proof.
  destruct aspect; unfold all_aspects;
    repeat first [apply list_elem_of_here | apply list_elem_of_further].
Qed.

Lemma first_within_orb_none (void_orb : Q) (chart : HoraryChart) :
  first_within_orb void_orb chart = None ↔
  ∀ planet aspect, planet ≠ MOON →
    void_orb < Qabs (angular_separation (pp_longitude (planets chart MOON))
                       (pp_longitude (planets chart planet))
                     - aspect_degrees aspect).
Proof.
  unfold first_within_orb, angular_separation. rewrite head_None, flat_map_nil_iff.
  split.
  - intros Hall planet aspect Hplanet.
    specialize (Hall planet (planet_in_order planet)).
    rewrite (bool_decide_eq_false_2 _ Hplanet) in Hall.
    rewrite flat_map_nil_iff in Hall.
    specialize (Hall aspect (aspect_in_all aspect)). cbn zeta in Hall.
    destruct (_ <=? void_orb) eqn:Hin; [discriminate|].
    by apply Qle_bool_false_iff in Hin.
  - intros Hall planet _.
    case_bool_decide as Hplanet; [reflexivity|].
    apply flat_map_nil_iff. intros aspect _. cbn zeta.
    specialize (Hall planet aspect Hplanet).
    destruct (_ <=? void_orb) eqn:Hin; [|reflexivity].
    apply Qle_bool_iff in Hin. lra.
Qed.

(** X27. By the orb rule the Moon is void exactly when it is further than
    the void orb from every aspect of every other planet; the rule never
    reports an exception or the degrees left in the sign.  Widening the orb
    can only end a void.  A next lunar aspect of the calculator whose orb is
    within the void orb means the Moon is not void by this rule. *)
Theorem void_by_orb_is_out_of_every_orb `{Ephemeris} (config : Config)
    (chart : HoraryChart) (ao : AspectOrbs) :
  let r := _void_by_orb_method config chart in
  let void_orb := void_orb_deg (cfg_orbs config) in
  exception r = false ∧ degrees_left_in_sign r = None
  ∧ (void r = true ↔
     ∀ planet aspect, planet ≠ MOON →
       void_orb < Qabs (angular_separation (pp_longitude (planets chart MOON))
                          (pp_longitude (planets chart planet))
                        - aspect_degrees aspect))
  ∧ (∀ narrow wide, narrow <= wide →
       first_within_orb wide chart = None → first_within_orb narrow chart = None)
  ∧ (∀ next,
       _calculate_moon_next_aspect ao (planets chart) (julian_day chart) = Some next →
       la_orb next <= void_orb → void r = false).
Proof.
  cbn zeta.
  assert (Hvoid : void (_void_by_orb_method config chart) = true ↔
                  first_within_orb (void_orb_deg (cfg_orbs config)) chart = None).
  { unfold _void_by_orb_method.
    destruct (first_within_orb _ chart) as [[planet aspect]|]; cbn;
      split; congruence. }
  split; [|split; [|split; [|split]]].
  - unfold _void_by_orb_method.
    by destruct (first_within_orb _ chart) as [[planet aspect]|].
  - unfold _void_by_orb_method.
    by destruct (first_within_orb _ chart) as [[planet aspect]|].
  - rewrite Hvoid. apply first_within_orb_none.
  - intros narrow wide Hle. rewrite !first_within_orb_none.
    intros Hall planet aspect Hplanet. specialize (Hall planet aspect Hplanet). lra.
  - intros next Hnext Horb.
    apply moon_next_aspect_in, applying_moon_aspect_spec in Hnext
      as (Hplanet & _ & Heq & _).
    apply not_true_is_false. rewrite Hvoid, first_within_orb_none.
    intros Hall. specialize (Hall (la_planet next) (la_aspect next) Hplanet).
    rewrite Heq in Horb. lra.
Qed.

(** ** The top-level engine *)

Section EngineFacts.
Context `{HoraryMath} `{Ephemeris} `{TimeZones} `{Services}.
Variable question : string.
Variable settings : Settings.

Let answer (boost : option Q) :=
  judge_question question (default "London, England" (st_location settings))
    (st_date settings) (st_time settings) (st_timezone settings)
    (default true (st_use_current_time settings)) (st_manual_houses settings)
    (default false (st_ignore_radicality settings))
    (default false (st_ignore_void_moon settings))
    (default false (st_ignore_combustion settings))
    (default false (st_ignore_saturn_7th settings)) boost.

Lemma answer_returns (boost : option Q) : ∃ r, answer boost = Return r.
Proof.
  unfold answer, judge_question, try_except.
  destruct (judge_pipeline _ _ _ _ _ _ _ _ _ _ _ _) as [r|[msg|class msg]]; eauto.
Qed.

(** X28. The top-level [judge] can raise although [judge_question] cannot:
    it does so exactly when the settings carry no exaltation boost and the
    configuration cannot be read, with the configuration's own exception.
    When the configuration can be read, it answers as [judge_question] does
    on the settings with their defaults; when the boost is supplied and the
    configuration cannot be read, the failure comes back as an answer with
    confidence zero instead. *)
Theorem engine_judge_raises_only_on_configuration :
  (∀ e, judge question settings = Raise e ↔
        st_exaltation_confidence_boost settings = None ∧ cfg = Raise e)
  ∧ (∀ config, cfg = Return config →
       judge question settings = answer (st_exaltation_confidence_boost settings))
  ∧ (∀ boost e, st_exaltation_confidence_boost settings = Some boost →
       cfg = Raise e →
       ∃ r, judge question settings = Return r ∧ r_confidence r = 0%Z
            ∧ r_judgment r = match e with
                             | LocationError _ => LOCATION_ERROR
                             | Exception _ _ => ERROR
                             end).
Proof.
  unfold judge. fold (answer).
  split; [|split].
  - intros e. destruct (st_exaltation_confidence_boost settings) as [boost|].
    + cbn. destruct (answer_returns (Some boost)) as [r Hr].
      unfold answer in Hr. rewrite Hr.
      split; [discriminate | intros [? _]; discriminate].
    + destruct cfg as [config|e'] eqn:Hcfg; cbn.
      * destruct (answer_returns
                    (Some (reception_mutual_exaltation_bonus (cfg_confidence config))))
          as [r Hr].
        unfold answer in Hr. rewrite Hr.
        split; [discriminate | intros [_ ?]; discriminate].
      * split; [intros [= ->]; by split | intros [_ [= ->]]; reflexivity].
  - intros config Hcfg.
    destruct (st_exaltation_confidence_boost settings) as [boost|]; [reflexivity|].
    rewrite Hcfg. cbn.
    unfold answer, judge_question, judge_pipeline. rewrite Hcfg. reflexivity.
  - intros boost e -> Hcfg. cbn.
    unfold judge_question, judge_pipeline, try_except. rewrite Hcfg. cbn.
    destruct e; eexists; (split; [reflexivity|]); by split.
Qed.

End EngineFacts.

(** ** Future aspects within the Moon's sign *)

Section FutureAspects.
Variable config : Config.
Variable chart : HoraryChart.

Let moon_pos := planets chart MOON.
Let moon_degree := fmod (pp_longitude moon_pos) 30.
Let positions (planet : Planet) (aspect : Aspect) :=
  _calculate_aspect_positions (pp_longitude (planets chart planet)) aspect
    (pp_sign moon_pos).

Lemma future_aspect_spec (fa : FutureAspect) :
  fa ∈ future_aspects_in_sign chart ↔
  fa_planet fa ≠ MOON
  ∧ ∃ pos, pos ∈ positions (fa_planet fa) (fa_aspect fa)
      ∧ moon_degree < fmod pos 30
      ∧ fa_target_degree fa = fmod pos 30
      ∧ fa_degrees_to_reach fa = fmod pos 30 - moon_degree.
Proof.
  unfold future_aspects_in_sign. fold moon_pos. fold moon_degree.
  rewrite list_elem_of_In, in_flat_map. split.
  - intros (planet & _ & Hin).
    case_bool_decide as Hplanet; [destruct Hin|].
    apply in_flat_map in Hin as (aspect & _ & Hin).
    apply in_flat_map in Hin as (pos & Hpos & Hin).
    destruct (fmod pos 30 >? moon_degree) eqn:Hahead; [|destruct Hin].
    destruct (_ <? 30 - moon_degree) eqn:Hleft; [|destruct Hin].
    destruct Hin as [<-|[]]. cbn. split; [exact Hplanet|].
    exists pos. apply list_elem_of_In in Hpos. apply Qlt_bool_iff in Hahead.
    by repeat split.
  - intros (Hplanet & pos & Hpos & Hahead & Htarget & Hreach).
    exists (fa_planet fa). split; [apply list_elem_of_In, planet_in_order|].
    rewrite (bool_decide_eq_false_2 _ Hplanet).
    apply in_flat_map. exists (fa_aspect fa).
    split; [apply list_elem_of_In, aspect_in_all|].
    apply in_flat_map. exists pos. split; [by apply list_elem_of_In|].
    assert (Hahead' : (fmod pos 30 >? moon_degree) = true) by (by apply Qlt_bool_iff).
    rewrite Hahead'.
    assert (Hleft : (fmod pos 30 - moon_degree <? 30 - moon_degree) = true).
    { apply Qlt_bool_iff. destruct (fmod_range pos 30 ltac:(lra)). lra. }
    rewrite Hleft. left. destruct fa; cbn in *. by subst.
Qed.

(** X29. The future aspects of the sign method are exactly the aspect
    positions in the Moon's sign whose degree in the sign lies beyond the
    Moon's: the further test against the degrees left in the sign never
    rejects one, a target always lying below 30 degrees.  A moving Moon is
    therefore void exactly when no planet has an aspect position beyond the
    Moon's degree. *)
Theorem future_aspects_are_the_positions_ahead :
  (∀ fa, fa ∈ future_aspects_in_sign chart →
     fa_planet fa ≠ MOON
     ∧ moon_degree < fa_target_degree fa ∧ fa_target_degree fa < 30
     ∧ fa_degrees_to_reach fa = fa_target_degree fa - moon_degree
     ∧ fa_degrees_to_reach fa < 30 - moon_degree)
  ∧ (∀ planet aspect pos,
       planet ≠ MOON → pos ∈ positions planet aspect → moon_degree < fmod pos 30 →
       {| fa_planet := planet; fa_aspect := aspect;
          fa_target_degree := fmod pos 30;
          fa_degrees_to_reach := fmod pos 30 - moon_degree |}
       ∈ future_aspects_in_sign chart)
  ∧ (¬ moon_stationary config chart →
     (void (_void_by_sign_method config chart) = true ↔
      ∀ planet aspect pos,
        planet ≠ MOON → pos ∈ positions planet aspect → fmod pos 30 <= moon_degree)).
Proof.
  split; [|split].
  - intros fa Hfa.
    apply future_aspect_spec in Hfa as (Hplanet & pos & _ & Hahead & -> & ->).
    destruct (fmod_range pos 30 ltac:(lra)) as [_ Hbelow].
    repeat split; try assumption; lra.
  - intros planet aspect pos Hplanet Hpos Hahead.
    apply future_aspect_spec. cbn. split; [exact Hplanet|].
    exists pos. by repeat split.
  - intros Hmoving.
    rewrite (void_by_sign_moving config chart Hmoving).
    split.
    + intros Hvoid planet aspect pos Hplanet Hpos.
      destruct (Qlt_le_dec moon_degree (fmod pos 30)) as [Hahead|Hle]; [|exact Hle].
      exfalso.
      assert (Hin : {| fa_planet := planet; fa_aspect := aspect;
                       fa_target_degree := fmod pos 30;
                       fa_degrees_to_reach := fmod pos 30 - moon_degree |}
                    ∈ future_aspects_in_sign chart).
      { apply future_aspect_spec. cbn. split; [exact Hplanet|].
        exists pos. by repeat split. }
      destruct (future_aspects_in_sign chart); [by apply elem_of_nil in Hin|].
      discriminate.
    + intros Hnone.
      destruct (future_aspects_in_sign chart) as [|fa rest] eqn:Hfuture;
        [reflexivity|exfalso].
      assert (Hfa : fa ∈ future_aspects_in_sign chart)
        by (rewrite Hfuture; apply list_elem_of_here).
      apply future_aspect_spec in Hfa as (Hplanet & pos & Hpos & Hahead & _).
      specialize (Hnone _ _ _ Hplanet Hpos). lra.
Qed.

End FutureAspects.

(** ** The Moon story *)

Lemma insert_by_key_perm {A} (key : A → Q) (x : A) (l : list A) :
  insert_by_key key x l ≡ₚ x :: l.
Proof.
  induction l as [|y rest IH]; cbn; [reflexivity|].
  destruct (key x <=? key y); [reflexivity|].
  rewrite IH. apply Permutation_swap.
Qed.

Lemma sort_by_key_perm {A} (key : A → Q) (l : list A) :
  sort_by_key key l ≡ₚ l.
Proof.
  induction l as [|x rest IH]; cbn; [reflexivity|].
  by rewrite insert_by_key_perm, IH.
Qed.

Lemma insert_by_key_sorted {A} (key : A → Q) (x : A) (l : list A) :
  StronglySorted (λ a b, key a <= key b) l →
  StronglySorted (λ a b, key a <= key b) (insert_by_key key x l).
Proof.
  induction l as [|y rest IH]; cbn; intros Hsorted.
  - constructor; [constructor | constructor].
  - apply StronglySorted_inv in Hsorted as [Hrest Hy].
    qcase (key x <=? key y).
    + constructor; [by constructor|].
      constructor; [assumption|].
      eapply Forall_impl; [exact Hy|]. intros z Hz. cbn in Hz. lra.
    + constructor; [by apply IH|].
      rewrite insert_by_key_perm. constructor; [lra | assumption].
Qed.

Lemma sort_by_key_sorted {A} (key : A → Q) (l : list A) :
  StronglySorted (λ a b, key a <= key b) (sort_by_key key l).
Proof.
  induction l as [|x rest IH]; cbn; [constructor|].
  by apply insert_by_key_sorted.
Qed.

Lemma moon_story_entry_spec (moon_speed : Q) (aspect : AspectInfo) :
  let entry := moon_story_entry moon_speed aspect in
  ms_applying entry = ai_applying aspect
  ∧ ms_orb entry = ai_orb aspect
  ∧ (ai_applying aspect = false →
     ms_days_to_perfect entry = 0 ∧ ms_timing entry = [Lit "Past"]
     ∧ moon_story_key entry = ai_orb aspect)
  ∧ (ai_applying aspect = true →
     moon_story_key entry = ms_days_to_perfect entry
     ∧ ms_timing entry = _format_timing_description_enhanced (ms_days_to_perfect entry)
     ∧ (moon_speed <= 0 →
        ms_days_to_perfect entry = 0 ∧ ms_timing entry = [Lit "Within hours"])
     ∧ (0 < moon_speed →
        ms_days_to_perfect entry = ai_degrees_to_exact aspect / moon_speed)).
Proof.
  unfold moon_story_entry, moon_story_key.
  destruct (ai_applying aspect);
    cbn [ms_applying ms_orb ms_days_to_perfect ms_timing];
    (split; [reflexivity|]); (split; [reflexivity|]);
    split; intros Happ; try discriminate Happ.
  - split; [reflexivity|]. split; [reflexivity|]. split; intros Hspeed.
    + assert (Hslow : (moon_speed >? 0) = false) by (by apply Qlt_bool_false_iff).
      rewrite Hslow. split; reflexivity.
    + assert (Hfast : (moon_speed >? 0) = true) by (by apply Qlt_bool_iff).
      by rewrite Hfast.
  - repeat split.
Qed.

(** X30. The Moon story holds one entry for every aspect of the chart that
    involves the Moon, in the order of a key that does not decrease: the
    days to perfect for an applying aspect and the orb for a separating one.
    A separating aspect is told as past with zero days; an applying one is
    timed by its degrees to exact over the Moon's speed, and by zero days,
    within hours, when the ephemeris gives no positive speed, so no
    division by zero is met here. *)
Theorem moon_story_is_sorted_and_complete `{Ephemeris} (chart : HoraryChart) :
  let moon_speed := get_real_moon_speed (julian_day chart) in
  let story := _build_moon_story chart in
  story ≡ₚ current_moon_aspects moon_speed chart
  ∧ StronglySorted (λ a b, moon_story_key a <= moon_story_key b) story
  ∧ length story
    = length (filter (λ aspect,
                ai_planet1 aspect = MOON ∨ ai_planet2 aspect = MOON) (aspects chart))
  ∧ ∀ entry, entry ∈ story →
      ∃ aspect, aspect ∈ aspects chart
        ∧ (ai_planet1 aspect = MOON ∨ ai_planet2 aspect = MOON)
        ∧ entry = moon_story_entry moon_speed aspect
        ∧ (ms_applying entry = false →
           ms_days_to_perfect entry = 0 ∧ ms_timing entry = [Lit "Past"])
        ∧ (ms_applying entry = true → moon_speed <= 0 →
           ms_days_to_perfect entry = 0 ∧ ms_timing entry = [Lit "Within hours"]).
Proof.
  cbn zeta. unfold _build_moon_story.
  set (moon_speed := get_real_moon_speed (julian_day chart)).
  split; [apply sort_by_key_perm|]. split; [apply sort_by_key_sorted|]. split.
  - rewrite sort_by_key_perm. unfold current_moon_aspects.
    induction (aspects chart) as [|aspect rest IH]; [reflexivity|].
    cbn [flat_map]. rewrite length_app, IH, filter_cons.
    unfold member. cbn [existsb]. rewrite orb_false_r.
    destruct (decide (ai_planet1 aspect = MOON ∨ ai_planet2 aspect = MOON))
      as [[Hp|Hp]|Hno].
    + rewrite (bool_decide_eq_true_2 (MOON = ai_planet1 aspect)) by done.
      reflexivity.
    + rewrite (bool_decide_eq_true_2 (MOON = ai_planet2 aspect)) by done.
      rewrite orb_true_r. reflexivity.
    + rewrite (bool_decide_eq_false_2 (MOON = ai_planet1 aspect)),
              (bool_decide_eq_false_2 (MOON = ai_planet2 aspect))
        by (intros Heq; apply Hno; auto).
      reflexivity.
  - intros entry Hentry. rewrite sort_by_key_perm in Hentry.
    unfold current_moon_aspects in Hentry.
    rewrite list_elem_of_In, in_flat_map in Hentry.
    destruct Hentry as (aspect & Hin & Hentry).
    destruct (member MOON _) eqn:Hmoon; [|destruct Hentry].
    destruct Hentry as [<-|[]].
    exists aspect. split; [by apply list_elem_of_In|]. split.
    { unfold member in Hmoon. cbn in Hmoon. rewrite orb_false_r in Hmoon.
      apply orb_true_iff in Hmoon as [Hm|Hm]; apply bool_decide_eq_true in Hm; auto. }
    split; [reflexivity|].
    destruct (moon_story_entry_spec moon_speed aspect)
      as (Happ & _ & Hseparating & Happlying).
    split.
    + intros Hsep. rewrite Happ in Hsep.
      destruct (Hseparating Hsep) as (Hdays & Htiming & _). by split.
    + intros Happ' Hspeed. rewrite Happ in Happ'.
      destruct (Happlying Happ') as (_ & _ & Hslow & _). by apply Hslow.
Qed.
